(** * sim: stream normalization and the LM Studio tool loop

    A shallow embedding of
    - [apps/sim/app/api/chat-completion-streaming/route.ts] (the [start]
      callback of [transformedStream] inside [POST]),
    - [apps/sim/providers/lmstudio/utils.ts]
      ([createReadableStreamFromLMStudioStream]),
    - [apps/sim/providers/lmstudio/index.ts] (the non-streaming path of
      [executeRequest] and the callback of its streaming path).

    Strings are sequences of code units below 256 and JavaScript values
    are a small inductive type.  Built-ins and imports that are not part
    of these sources ([JSON.parse], [JSON.stringify], [toISOString], the
    chat-completion client, [executeTool], [prepareToolExecution],
    [MAX_TOOL_ITERATIONS]) are section variables.  Wall-clock readings
    ([Date.now()]) are virtual time: synchronous code takes no time and an
    awaited call takes the latency that its oracle reports. *)

From Stdlib Require Import List String Ascii ZArith Bool Arith Lia DecimalString.
Import ListNotations.
Open Scope string_scope.
Open Scope list_scope.

Set Warnings "-register-all".

(* ------------------------------------------------------------------ *)
(** ** JavaScript values *)

Module Js.

(** The values the modelled code handles: what [JSON.parse] returns, plus
    [undefined].  An object is its own enumerable properties in insertion
    order, with distinct keys.  Of a number only its truth value (being
    non-zero) is ever observed. *)
Inductive JsValue : Type :=
| JUndefined
| JNull
| JBool (b : bool)
| JNum (n : Z)
| JStr (s : string)
| JArr (items : list JsValue)
| JObj (fields : list (string * JsValue)).

(** Truthiness, as used by [if (v)], [a || b] and [!v]. *)
Definition truthy (v : JsValue) : bool :=
  match v with
  | JUndefined | JNull => false
  | JBool b => b
  | JNum n => negb (n =? 0)%Z
  | JStr s => negb (s =? "")
  | JArr _ | JObj _ => true
  end.

(** [a || b] *)
Definition or_else (a b : JsValue) : JsValue := if truthy a then a else b.

Fixpoint lookup (k : string) (fields : list (string * JsValue)) : JsValue :=
  match fields with
  | [] => JUndefined
  | (k', v) :: rest => if k' =? k then v else lookup k rest
  end.

(** [v.k] for a key that no prototype defines: [None] is the [TypeError]
    raised on [null] and [undefined]. *)
Definition get (v : JsValue) (k : string) : option JsValue :=
  match v with
  | JUndefined | JNull => None
  | JObj fields => Some (lookup k fields)
  | _ => Some JUndefined
  end.

(** [v?.k] *)
Definition opt_get (v : JsValue) (k : string) : JsValue :=
  match get v k with Some r => r | None => JUndefined end.

(** [v?.[0]]: first element of an array, first code unit of a string,
    property ["0"] of an object. *)
Definition opt_first (v : JsValue) : JsValue :=
  match v with
  | JArr (x :: _) => x
  | JStr (String c _) => JStr (String c "")
  | JObj fields => lookup "0" fields
  | _ => JUndefined
  end.

(** A thrown value: [error instanceof Error] with its [message], or
    another value with its [String(error)]. *)
Inductive Thrown : Type :=
| ErrorObject (message : string)
| OtherValue (text : string).

(** The outcome of a call that may throw (or of a promise that may
    reject). *)
Inductive Outcome (A : Type) : Type :=
| Returns (a : A)
| Throws (e : Thrown).
Arguments Returns {A} a.
Arguments Throws {A} e.

End Js.
Import Js.

(* ------------------------------------------------------------------ *)
(** ** String built-ins *)

Module Str.

Definition newline : ascii := ascii_of_nat 10.

(** White space removed by [String.prototype.trim], among the code units
    below 256: TAB, LF, VT, FF, CR, SP and NBSP. *)
Definition is_white (c : ascii) : bool :=
  let n := nat_of_ascii c in
  ((9 <=? n)%nat && (n <=? 13)%nat) || (n =? 32)%nat || (n =? 160)%nat.

(** [s.startsWith(p)] *)
Fixpoint startsWith (p s : string) : bool :=
  match p with
  | "" => true
  | String a p' =>
      match s with
      | "" => false
      | String b s' => Ascii.eqb a b && startsWith p' s'
      end
  end.

(** [s.includes(p)] *)
Fixpoint includes (p s : string) : bool :=
  startsWith p s ||
  match s with
  | "" => false
  | String _ s' => includes p s'
  end.

(** [s.slice(n)] for [n >= 0] *)
Fixpoint slice (n : nat) (s : string) : string :=
  match n, s with
  | O, _ => s
  | S _, "" => ""
  | S n', String _ s' => slice n' s'
  end.

Fixpoint trimStart (s : string) : string :=
  match s with
  | "" => ""
  | String c s' => if is_white c then trimStart s' else s
  end.

Fixpoint trimEnd (s : string) : string :=
  match s with
  | "" => ""
  | String c s' =>
      match trimEnd s' with
      | "" => if is_white c then "" else String c ""
      | r => String c r
      end
  end.

(** [s.trim()] *)
Definition trim (s : string) : string := trimEnd (trimStart s).

(** [s.split('\n')]: never empty, [''.split('\n')] is [['']]. *)
Fixpoint split_lines (s : string) : list string :=
  match s with
  | "" => [""]
  | String c s' =>
      if Ascii.eqb c newline then "" :: split_lines s'
      else match split_lines s' with
           | l :: ls => String c l :: ls
           | [] => [String c ""]
           end
  end.

(** [chunks.join('')] *)
Fixpoint join (l : list string) : string :=
  match l with
  | [] => ""
  | s :: rest => (s ++ join rest)%string
  end.

End Str.
Import Str.

(* ------------------------------------------------------------------ *)
(** ** chat-completion-streaming/route.ts: the stream transformer *)

Module Route.

(** The objects the route serialises as [data: <json>\n\n].  The route
    builds the first three ([type] ['chat_id'], ['content'], ['done']);
    [ErrorEvent] is the fourth tag of the wire format, [type] ['error']. *)
Inductive CanonicalEvent : Type :=
| ChatIdEvent (chatId : JsValue)
| ContentEvent (data : JsValue)
| DoneEvent (responseId : string)
| ErrorEvent (message : string).

Definition is_done (e : CanonicalEvent) : bool :=
  match e with DoneEvent _ => true | _ => false end.

Definition is_error (e : CanonicalEvent) : bool :=
  match e with ErrorEvent _ => true | _ => false end.

Definition is_terminal (e : CanonicalEvent) : bool := is_done e || is_error e.

(** What [providerStream.getReader()] delivers: the decoded text of each
    successful [reader.read()], then either [done] or a rejected read. *)
Inductive ReadEnd : Type :=
| ReaderDone
| ReaderThrows (e : Thrown).

Record Upstream : Type := {
  reads : list string;
  read_end : ReadEnd
}.

(** The [ReadableStream] controller when [start] settles. *)
Inductive ControllerState : Type :=
| Closed
| Errored (e : Thrown).

Record Transformed : Type := {
  enqueued : list CanonicalEvent;
  controller : ControllerState
}.

Section Transformer.

(** [JSON.parse], which throws a [SyntaxError] on a text that is not
    JSON. *)
Variable JSON_parse : string -> Outcome JsValue.

(** [json.choices?.[0]?.delta?.content || json.content || '']; [None]
    is the [TypeError] of reading [.choices] of [null]. *)
Definition delta_content (json : JsValue) : option JsValue :=
  match get json "choices" with
  | None => None
  | Some choices =>
      let c := opt_get (opt_get (opt_first choices) "delta") "content" in
      if truthy c then Some c
      else match get json "content" with
           | None => None
           | Some c' => Some (or_else c' (JStr ""))
           end
  end.

(** The [catch (e)] branch of the per-line [try]. *)
Definition raw_fallback (data : string) : list CanonicalEvent :=
  if negb (data =? "") then [ContentEvent (JStr data)] else [].

(** The [try { JSON.parse ... } catch] statement for one payload. *)
Definition payload_events (data : string) : list CanonicalEvent :=
  match JSON_parse data with
  | Throws _ => raw_fallback data
  | Returns json =>
      match delta_content json with
      | None => raw_fallback data
      | Some content =>
          if truthy content then [ContentEvent content] else []
      end
  end.

(** [for (const line of lines)]; the [[DONE]] payload leaves the loop. *)
Fixpoint for_lines (lines : list string) : list CanonicalEvent :=
  match lines with
  | [] => []
  | line :: rest =>
      if trim line =? "" then for_lines rest
      else if startsWith "data: " line then
        let data := trim (slice 6 line) in
        if data =? "[DONE]" then []
        else payload_events data ++ for_lines rest
      else for_lines rest
  end.

(** One turn of [while (true)] after a successful read: the new
    [buffer] and the events enqueued. *)
Definition on_chunk (buffer chunk : string)
  : string * list CanonicalEvent :=
  let buffer := (buffer ++ chunk)%string in
  if includes "data: " buffer then
    let lines := split_lines buffer in
    (last lines "", for_lines (removelast lines))
  else
    ("", if negb (buffer =? "") then [ContentEvent (JStr buffer)] else []).

(** The [while (true)] loop over the successful reads. *)
Fixpoint read_loop (buffer : string) (chunks : list string)
  : string * list CanonicalEvent :=
  match chunks with
  | [] => (buffer, [])
  | chunk :: rest =>
      let (buffer', evs) := on_chunk buffer chunk in
      let (final, evs') := read_loop buffer' rest in
      (final, evs ++ evs')
  end.

(** [start(controller)]: [chatId] is the request's field, [responseId]
    the value of [crypto.randomUUID()] drawn for this stream. *)
Definition start (chatId : JsValue) (responseId : string) (up : Upstream)
  : Transformed :=
  let head := if truthy chatId then [ChatIdEvent chatId] else [] in
  let body := snd (read_loop "" (reads up)) in
  match read_end up with
  | ReaderDone =>
      {| enqueued := head ++ body ++ [DoneEvent responseId];
         controller := Closed |}
  | ReaderThrows e =>
      {| enqueued := head ++ body; controller := Errored e |}
  end.

End Transformer.

(** The text carried by the content events, in emission order. *)
Fixpoint content_text (evs : list CanonicalEvent) : string :=
  match evs with
  | [] => ""
  | ContentEvent (JStr s) :: rest => (s ++ content_text rest)%string
  | _ :: rest => content_text rest
  end.

End Route.

(* ------------------------------------------------------------------ *)
(** ** A reference [JSON.parse] for the examples

    The general results quantify over [JSON.parse].  The examples run on
    this parser, which accepts the JSON texts made of objects, arrays,
    strings with the two-character escapes, integers without exponent,
    [true], [false] and [null], and rejects every other text: like
    [JSON.parse] everything that is not JSON, and also the JSON texts with
    fractions, exponents or [\u] escapes, which no example uses. *)

Module JsonRef.

Definition is_json_space (c : ascii) : bool :=
  let n := nat_of_ascii c in
  (n =? 32)%nat || (n =? 9)%nat || (n =? 10)%nat || (n =? 13)%nat.

Fixpoint skip_space (s : string) : string :=
  match s with
  | String c s' => if is_json_space c then skip_space s' else s
  | "" => ""
  end.

Definition digit_of (c : ascii) : option Z :=
  let n := nat_of_ascii c in
  if ((48 <=? n)%nat && (n <=? 57)%nat)%bool
  then Some (Z.of_nat (n - 48)) else None.

(** Digits of an integer literal: the value so far, and the rest. *)
Fixpoint digits (acc : Z) (s : string) : Z * string :=
  match s with
  | String c s' =>
      match digit_of c with
      | Some d => digits (acc * 10 + d)%Z s'
      | None => (acc, s)
      end
  | "" => (acc, s)
  end.

(** An unsigned integer literal without leading zero, fraction or
    exponent. *)
Definition unsigned (s : string) : option (Z * string) :=
  match s with
  | String c s' =>
      match digit_of c with
      | None => None
      | Some d =>
          let (n, rest) := if (d =? 0)%Z then (0%Z, s') else digits d s' in
          match rest with
          | String c' _ =>
              if match digit_of c' with Some _ => true | None => false end
                 || Ascii.eqb c' "." || Ascii.eqb c' "e" || Ascii.eqb c' "E"
              then None else Some (n, rest)
          | "" => Some (n, rest)
          end
      end
  | "" => None
  end.

(** The characters of a string literal after its opening quote. *)
Fixpoint chars (s : string) : option (string * string) :=
  match s with
  | "" => None
  | String c s' =>
      if Ascii.eqb c (ascii_of_nat 34) then Some ("", s')
      else if Ascii.eqb c "\" then
        match s' with
        | String e s'' =>
            let unescaped :=
              if Ascii.eqb e (ascii_of_nat 34) then Some (ascii_of_nat 34)
              else if Ascii.eqb e "\" then Some "\"%char
              else if Ascii.eqb e "/" then Some "/"%char
              else if Ascii.eqb e "n" then Some (ascii_of_nat 10)
              else if Ascii.eqb e "t" then Some (ascii_of_nat 9)
              else if Ascii.eqb e "r" then Some (ascii_of_nat 13)
              else if Ascii.eqb e "b" then Some (ascii_of_nat 8)
              else if Ascii.eqb e "f" then Some (ascii_of_nat 12)
              else None in
            match unescaped, chars s'' with
            | Some u, Some (str, rest) => Some (String u str, rest)
            | _, _ => None
            end
        | "" => None
        end
      else if (nat_of_ascii c <? 32)%nat then None
      else match chars s' with
           | Some (str, rest) => Some (String c str, rest)
           | None => None
           end
  end.

(** Assignment to a property: a repeated key keeps its place and takes
    the later value. *)
Fixpoint set_field (k : string) (v : JsValue)
    (fields : list (string * JsValue)) : list (string * JsValue) :=
  match fields with
  | [] => [(k, v)]
  | (k', v') :: rest =>
      if k' =? k then (k', v) :: rest else (k', v') :: set_field k v rest
  end.

Definition literal (word : string) (v : JsValue) (s : string)
  : option (JsValue * string) :=
  if startsWith word s then Some (v, slice (String.length word) s) else None.

Fixpoint value (fuel : nat) (s : string) : option (JsValue * string) :=
  match fuel with
  | O => None
  | S fuel' =>
      match skip_space s with
      | "" => None
      | String c rest as s0 =>
          if Ascii.eqb c "[" then
            match skip_space rest with
            | String "]" rest' => Some (JArr [], rest')
            | _ => elements fuel' rest []
            end
          else if Ascii.eqb c "{" then
            match skip_space rest with
            | String "}" rest' => Some (JObj [], rest')
            | _ => members fuel' rest []
            end
          else if Ascii.eqb c (ascii_of_nat 34) then
            match chars rest with
            | Some (str, rest') => Some (JStr str, rest')
            | None => None
            end
          else if Ascii.eqb c "-" then
            match unsigned rest with
            | Some (n, rest') => Some (JNum (- n), rest')
            | None => None
            end
          else if Ascii.eqb c "t" then literal "true" (JBool true) s0
          else if Ascii.eqb c "f" then literal "false" (JBool false) s0
          else if Ascii.eqb c "n" then literal "null" JNull s0
          else match unsigned s0 with
               | Some (n, rest') => Some (JNum n, rest')
               | None => None
               end
      end
  end

with elements (fuel : nat) (s : string) (acc : list JsValue)
  : option (JsValue * string) :=
  match fuel with
  | O => None
  | S fuel' =>
      match value fuel' s with
      | None => None
      | Some (v, rest) =>
          match skip_space rest with
          | String "," rest' => elements fuel' rest' (v :: acc)
          | String "]" rest' => Some (JArr (rev (v :: acc)), rest')
          | _ => None
          end
      end
  end

with members (fuel : nat) (s : string) (acc : list (string * JsValue))
  : option (JsValue * string) :=
  match fuel with
  | O => None
  | S fuel' =>
      match skip_space s with
      | String c rest =>
          if Ascii.eqb c (ascii_of_nat 34) then
            match chars rest with
            | None => None
            | Some (key, rest1) =>
                match skip_space rest1 with
                | String ":" rest2 =>
                    match value fuel' rest2 with
                    | None => None
                    | Some (v, rest3) =>
                        let acc' := set_field key v acc in
                        match skip_space rest3 with
                        | String "," rest4 => members fuel' rest4 acc'
                        | String "}" rest4 => Some (JObj acc', rest4)
                        | _ => None
                        end
                    end
                | _ => None
                end
            end
          else None
      | "" => None
      end
  end.

Definition parse (text : string) : option JsValue :=
  match value (2 * String.length text + 2) text with
  | Some (v, rest) => if skip_space rest =? "" then Some v else None
  | None => None
  end.

(** [JSON.parse(text)] on the supported texts.  The message of the
    [SyntaxError] depends on the engine; one text stands for it. *)
Definition JSON_parse (text : string) : Outcome JsValue :=
  match parse text with
  | Some v => Returns v
  | None => Throws (ErrorObject "Unexpected token")
  end.

End JsonRef.

(* ------------------------------------------------------------------ *)
(** ** providers/lmstudio: the batch tool loop and the streaming helper *)

Module LMStudio.

(** One entry of [message.tool_calls]: [{id, function: {name, arguments}}]. *)
Record ToolCall : Type := {
  tc_id : string;
  tc_name : string;
  tc_arguments : string
}.

(** An entry of [request.tools]. *)
Record ToolConfig : Type := {
  id : string;
  description : string;
  parameters : JsValue;
  usageControl : option string
}.

(** The messages of a payload: those of the request, the assistant turn
    that carries the tool calls ([content: null]), and a tool result whose
    [content] is [JSON.stringify(resultContent)]. *)
Inductive Message : Type :=
| RequestMessage (role : string) (text : JsValue)
| AssistantToolCalls (tool_calls : list ToolCall)
| ToolMessage (tool_call_id : string) (text : option string).

(** [usage] of a completion or of a chunk; [None] is an absent field. *)
Record Usage : Type := {
  prompt_tokens : option Z;
  completion_tokens : option Z;
  total_tokens : option Z
}.

(** [choices[0]?.message] of a completion. *)
Record AssistantMessage : Type := {
  msg_content : option string;
  msg_tool_calls : option (list ToolCall)
}.

Record ChatCompletion : Type := {
  first_message : option AssistantMessage;
  usage : option Usage
}.

(** What [executeTool] resolves to. *)
Record ToolResult : Type := {
  success : bool;
  output : JsValue;
  error : option string
}.

(** An awaited call in virtual time: how long it takes and how it
    settles. *)
Record Run (A : Type) : Type := {
  latency : Z;
  settles : Outcome A
}.
Arguments latency {A} r.
Arguments settles {A} r.

Inductive SegmentType : Type := model | tool.

Record TimeSegment : Type := {
  seg_type : SegmentType;
  seg_name : string;
  seg_startTime : Z;
  seg_endTime : Z;
  seg_duration : Z
}.

(** The batch path's [tokens]. *)
Record Tokens : Type := {
  input : Z;
  output_tokens : Z;
  total : Z
}.

(** An entry of [toolCalls]. *)
Record ToolCallRecord : Type := {
  rec_name : string;
  rec_arguments : JsValue;
  rec_startTime : string;
  rec_endTime : string;
  rec_duration : Z;
  rec_result : JsValue;
  rec_success : bool
}.

(** The object a tool promise resolves to when it is not [null]. *)
Record Settled : Type := {
  toolCall : ToolCall;
  toolName : string;
  toolParams : JsValue;
  result : ToolResult;
  startTime : Z;
  endTime : Z;
  duration : Z
}.

(** The local variables of the tool loop, and the virtual clock. *)
Record LoopState : Type := {
  currentResponse : ChatCompletion;
  content : string;
  tokens : Tokens;
  toolCalls : list ToolCallRecord;
  toolResults : list JsValue;
  currentMessages : list Message;
  iterationCount : nat;
  modelTime : Z;
  toolsTime : Z;
  timeSegments : list TimeSegment;
  now : Z
}.

Record Timing : Type := {
  t_startTime : string;
  t_endTime : string;
  t_duration : Z;
  t_modelTime : Z;
  t_toolsTime : Z;
  t_firstResponseTime : Z;
  iterations : nat;
  t_timeSegments : list TimeSegment
}.

Record ProviderResponse : Type := {
  r_content : string;
  r_tokens : Tokens;
  r_toolCalls : option (list ToolCallRecord);
  r_toolResults : option (list JsValue);
  timing : Timing
}.

(** [enhancedError]: the message and the timing attached to it. *)
Record EnhancedError : Type := {
  err_message : string;
  err_startTime : string;
  err_endTime : string;
  err_duration : Z
}.

Inductive BatchResult : Type :=
| Resolved (r : ProviderResponse)
| Rejected (e : EnhancedError).

(** How one turn of the [while] loop ends. *)
Inductive Turn : Type :=
| Break (st : LoopState)
| Continue (st : LoopState)
| Raise (e : Thrown) (at_time : Z).

Definition or_zero (n : option Z) : Z :=
  match n with Some v => v | None => 0%Z end.

(** [String(n)] for a loop counter. *)
Definition string_of_nat (n : nat) : string :=
  NilEmpty.string_of_uint (Nat.to_uint n).

(** [currentResponse.choices[0]?.message?.content] *)
Definition response_content (r : ChatCompletion) : option string :=
  match first_message r with
  | Some m => msg_content m
  | None => None
  end.

(** [currentResponse.choices[0]?.message?.tool_calls] *)
Definition response_tool_calls (r : ChatCompletion) : option (list ToolCall) :=
  match first_message r with
  | Some m => msg_tool_calls m
  | None => None
  end.

(** [x || ''] and [if (x)] on a string that may be [null]. *)
Definition nonempty (s : option string) : option string :=
  match s with
  | Some t => if t =? "" then None else Some t
  | None => None
  end.

(** [error instanceof Error ? error.message : 'Tool execution failed'] *)
Definition tool_error_message (e : Thrown) : string :=
  match e with
  | ErrorObject m => m
  | OtherValue _ => "Tool execution failed"
  end.

(** [error instanceof Error ? error.message : String(error)] *)
Definition error_text (e : Thrown) : string :=
  match e with
  | ErrorObject m => m
  | OtherValue t => t
  end.

Section ExecuteRequest.

(** Imports of [index.ts] that live outside the sources at hand. *)
Variable MAX_TOOL_ITERATIONS : nat.
Variable JSON_parse : string -> Outcome JsValue.
Variable JSON_stringify : JsValue -> option string.
Variable toISOString : Z -> string.
Variable prepareToolExecution :
  ToolConfig -> JsValue -> Outcome (JsValue * JsValue).

(** [executeTool(toolName, executionParams, true)].  The first argument
    names the invocation (iteration and call id), so that two calls with
    equal arguments may still settle differently. *)
Variable executeTool : nat * string -> string -> JsValue -> Run ToolResult.

(** [lmstudio.chat.completions.create] on a payload with these
    messages. *)
Variable create : list Message -> Run ChatCompletion.

(** [request.tools] ([[]] when absent) and [request.model]. *)
Variable tools : list ToolConfig.

(** The object built in the [catch] of a tool promise. *)
Definition failed (tc : ToolCall) (t0 t1 : Z) (e : Thrown) : Settled :=
  {| toolCall := tc;
     toolName := tc_name tc;
     toolParams := JObj [];
     result := {| success := false;
                  output := JUndefined;
                  error := Some (tool_error_message e) |};
     startTime := t0;
     endTime := t1;
     duration := (t1 - t0)%Z |}.

(** The async function mapped over [toolCallsInResponse], started at
    time [t0]: [None] is [null]. *)
Definition invoke (iteration : nat) (t0 : Z) (tc : ToolCall)
  : option Settled :=
  match JSON_parse (tc_arguments tc) with
  | Throws e => Some (failed tc t0 t0 e)
  | Returns toolArgs =>
      match find (fun t => id t =? tc_name tc) tools with
      | None => None
      | Some t =>
          match prepareToolExecution t toolArgs with
          | Throws e => Some (failed tc t0 t0 e)
          | Returns (params, executionParams) =>
              let run :=
                executeTool (iteration, tc_id tc) (tc_name tc)
                  executionParams in
              let t1 := (t0 + latency run)%Z in
              match settles run with
              | Returns r =>
                  Some {| toolCall := tc;
                          toolName := tc_name tc;
                          toolParams := params;
                          result := r;
                          startTime := t0;
                          endTime := t1;
                          duration := (t1 - t0)%Z |}
              | Throws e => Some (failed tc t0 t1 e)
              end
          end
      end
  end.

(** The time at which [Promise.allSettled] resolves: when the last
    promise has settled. *)
Definition joined_at (t0 : Z) (settled : list (option Settled)) : Z :=
  fold_left
    (fun t v => match v with Some s => Z.max t (endTime s) | None => t end)
    settled t0.

(** [resultContent] *)
Definition resultContent (s : Settled) : JsValue :=
  if success (result s) then output (result s)
  else JObj [("error", JBool true);
             ("message",
              JStr match nonempty (error (result s)) with
                   | Some m => m
                   | None => "Tool execution failed"
                   end);
             ("tool", JStr (toolName s))].

(** The segment pushed to [timeSegments] for a settled invocation. *)
Definition tool_segment (s : Settled) : TimeSegment :=
  {| seg_type := tool;
     seg_name := toolName s;
     seg_startTime := startTime s;
     seg_endTime := endTime s;
     seg_duration := duration s |}.

(** The entry pushed to [toolCalls]. *)
Definition tool_call_record (s : Settled) : ToolCallRecord :=
  {| rec_name := toolName s;
     rec_arguments := toolParams s;
     rec_startTime := toISOString (startTime s);
     rec_endTime := toISOString (endTime s);
     rec_duration := duration s;
     rec_result := resultContent s;
     rec_success := success (result s) |}.

(** The [role: 'tool'] message pushed to [currentMessages]. *)
Definition tool_message (s : Settled) : Message :=
  ToolMessage (tc_id (toolCall s)) (JSON_stringify (resultContent s)).

(** One turn of [for (const settledResult of executionResults)]; every
    promise is fulfilled, [None] is the [null] value that is skipped. *)
Definition record_settled (st : LoopState) (v : option Settled)
  : LoopState :=
  match v with
  | None => st
  | Some s =>
      {| currentResponse := currentResponse st;
         content := content st;
         tokens := tokens st;
         toolCalls := toolCalls st ++ [tool_call_record s];
         toolResults :=
           if success (result s)
           then toolResults st ++ [output (result s)]
           else toolResults st;
         currentMessages := currentMessages st ++ [tool_message s];
         iterationCount := iterationCount st;
         modelTime := modelTime st;
         toolsTime := toolsTime st;
         timeSegments := timeSegments st ++ [tool_segment s];
         now := now st |}
  end.

(** [if (currentResponse.choices[0]?.message?.content) content = ...] *)
Definition latest_content (r : ChatCompletion) (old : string) : string :=
  match nonempty (response_content r) with
  | Some c => c
  | None => old
  end.

(** [if (currentResponse.usage) { tokens.input += ... }] *)
Definition add_usage (t : Tokens) (r : ChatCompletion) : Tokens :=
  match usage r with
  | None => t
  | Some u =>
      {| input := (input t + or_zero (prompt_tokens u))%Z;
         output_tokens :=
           (output_tokens t + or_zero (completion_tokens u))%Z;
         total := (total t + or_zero (total_tokens u))%Z |}
  end.

(** The body of [while (iterationCount < MAX_TOOL_ITERATIONS)]. *)
Definition turn (st : LoopState) : Turn :=
  let content1 := latest_content (currentResponse st) (content st) in
  let st1 :=
    {| currentResponse := currentResponse st;
       content := content1;
       tokens := tokens st;
       toolCalls := toolCalls st;
       toolResults := toolResults st;
       currentMessages := currentMessages st;
       iterationCount := iterationCount st;
       modelTime := modelTime st;
       toolsTime := toolsTime st;
       timeSegments := timeSegments st;
       now := now st |} in
  match response_tool_calls (currentResponse st) with
  | None | Some [] => Break st1
  | Some toolCallsInResponse =>
      let toolsStartTime := now st in
      let executionResults :=
        map (invoke (iterationCount st) toolsStartTime)
          toolCallsInResponse in
      let st2 :=
        {| currentResponse := currentResponse st;
           content := content1;
           tokens := tokens st;
           toolCalls := toolCalls st;
           toolResults := toolResults st;
           currentMessages :=
             currentMessages st ++ [AssistantToolCalls toolCallsInResponse];
           iterationCount := iterationCount st;
           modelTime := modelTime st;
           toolsTime := toolsTime st;
           timeSegments := timeSegments st;
           now := joined_at toolsStartTime executionResults |} in
      let st3 := fold_left record_settled executionResults st2 in
      let thisToolsTime := (now st3 - toolsStartTime)%Z in
      let nextModelStartTime := now st3 in
      let call := create (currentMessages st3) in
      let nextModelEndTime := (nextModelStartTime + latency call)%Z in
      match settles call with
      | Throws e => Raise e nextModelEndTime
      | Returns response =>
          let thisModelTime := (nextModelEndTime - nextModelStartTime)%Z in
          Continue
            {| currentResponse := response;
               content := latest_content response (content st3);
               tokens := add_usage (tokens st3) response;
               toolCalls := toolCalls st3;
               toolResults := toolResults st3;
               currentMessages := currentMessages st3;
               iterationCount := S (iterationCount st3);
               modelTime := (modelTime st3 + thisModelTime)%Z;
               toolsTime := (toolsTime st3 + thisToolsTime)%Z;
               timeSegments :=
                 timeSegments st3 ++
                 [{| seg_type := model;
                     seg_name :=
                       "Model response (iteration " ++
                       string_of_nat (iterationCount st3 + 1) ++ ")";
                     seg_startTime := nextModelStartTime;
                     seg_endTime := nextModelEndTime;
                     seg_duration := thisModelTime |}];
               now := nextModelEndTime |}
      end
  end.

(** [while (iterationCount < MAX_TOOL_ITERATIONS) { ... }]: [fuel]
    bounds the number of turns; [while_loop_fuel] shows that
    [MAX_TOOL_ITERATIONS - iterationCount] turns are all the loop can
    take. *)
Fixpoint while_loop (fuel : nat) (st : LoopState) : Turn :=
  match fuel with
  | O => Break st
  | S fuel' =>
      if (iterationCount st <? MAX_TOOL_ITERATIONS)%nat then
        match turn st with
        | Continue st' => while_loop fuel' st'
        | stop => stop
        end
      else Break st
  end.

(** The [return] statement of the batch path. *)
Definition respond (providerStartTime firstResponseTime : Z)
    (st : LoopState) : ProviderResponse :=
  let providerEndTime := now st in
  {| r_content := content st;
     r_tokens := tokens st;
     r_toolCalls :=
       match toolCalls st with [] => None | l => Some l end;
     r_toolResults :=
       match toolResults st with [] => None | l => Some l end;
     timing :=
       {| t_startTime := toISOString providerStartTime;
          t_endTime := toISOString providerEndTime;
          t_duration := (providerEndTime - providerStartTime)%Z;
          t_modelTime := modelTime st;
          t_toolsTime := toolsTime st;
          t_firstResponseTime := firstResponseTime;
          iterations := iterationCount st + 1;
          t_timeSegments := timeSegments st |} |}.

(** The outer [catch (error)]. *)
Definition reject (providerStartTime : Z) (e : Thrown) (at_time : Z)
  : EnhancedError :=
  {| err_message := error_text e;
     err_startTime := toISOString providerStartTime;
     err_endTime := toISOString at_time;
     err_duration := (at_time - providerStartTime)%Z |}.

(** The loop variables after the first completion has arrived. *)
Definition initial_state (allMessages : list Message)
    (initialCallTime firstResponseTime : Z) (response : ChatCompletion)
  : LoopState :=
  {| currentResponse := response;
     content := match nonempty (response_content response) with
                | Some c => c
                | None => ""
                end;
     tokens :=
       {| input := or_zero match usage response with
                           | Some u => prompt_tokens u | None => None end;
          output_tokens :=
            or_zero match usage response with
                    | Some u => completion_tokens u | None => None end;
          total := or_zero match usage response with
                           | Some u => total_tokens u | None => None end |};
     toolCalls := [];
     toolResults := [];
     currentMessages := allMessages;
     iterationCount := 0;
     modelTime := firstResponseTime;
     toolsTime := 0;
     timeSegments :=
       [{| seg_type := model;
           seg_name := "Initial response";
           seg_startTime := initialCallTime;
           seg_endTime := (initialCallTime + firstResponseTime)%Z;
           seg_duration := firstResponseTime |}];
     now := (initialCallTime + firstResponseTime)%Z |}.

(** The loop variables when the [while] loop is left, or the exception
    that left the [try] block. *)
Definition run_loop (providerStartTime : Z) (allMessages : list Message)
  : Turn :=
  let initialCallTime := providerStartTime in
  let call := create allMessages in
  let firstResponseTime := latency call in
  match settles call with
  | Throws e => Raise e (initialCallTime + firstResponseTime)%Z
  | Returns response =>
      while_loop MAX_TOOL_ITERATIONS
        (initial_state allMessages initialCallTime firstResponseTime
           response)
  end.

(** The non-streaming path of [executeRequest], from [providerStartTime]
    on, for the message list [allMessages]. *)
Definition executeRequest (providerStartTime : Z)
    (allMessages : list Message) : BatchResult :=
  match run_loop providerStartTime allMessages with
  | Break st | Continue st =>
      Resolved
        (respond providerStartTime (latency (create allMessages)) st)
  | Raise e at_time => Rejected (reject providerStartTime e at_time)
  end.

End ExecuteRequest.

(** *** utils.ts and the streaming branch *)

(** A streamed chunk: [choices[0]?.delta?.content] and [usage]. *)
Record ChatCompletionChunk : Type := {
  delta : option string;
  chunk_usage : option Usage
}.

(** The async iterable handed to the helper: its chunks, then its end or
    the exception it raises. *)
Record ChunkStream : Type := {
  chunks : list ChatCompletionChunk;
  chunks_end : Outcome unit
}.

(** [let usage: any = {}] *)
Definition no_usage : Usage :=
  {| prompt_tokens := None; completion_tokens := None; total_tokens := None |}.

(** What the helper has done when [start] settles: the [onUpdate] calls
    in order, the deltas enqueued, and [close()] or [error(e)]. *)
Record Pumped : Type := {
  updates : list (string * Usage);
  deltas : list string;
  finished : Outcome unit
}.

(** [for await (const chunk of stream)] *)
Fixpoint for_chunks (accumulatedContent : string) (usage : Usage)
    (l : list ChatCompletionChunk) : list (string * Usage) * list string :=
  match l with
  | [] => ([], [])
  | chunk :: rest =>
      let d := match nonempty (delta chunk) with
               | Some t => t
               | None => ""
               end in
      let accumulatedContent := (accumulatedContent ++ d)%string in
      let usage := match chunk_usage chunk with
                   | Some u => u
                   | None => usage
                   end in
      let (ups, ds) := for_chunks accumulatedContent usage rest in
      ((accumulatedContent, usage) :: ups, d :: ds)
  end.

Definition createReadableStreamFromLMStudioStream (stream : ChunkStream)
  : Pumped :=
  let (ups, ds) := for_chunks "" no_usage (chunks stream) in
  {| updates := ups; deltas := ds; finished := chunks_end stream |}.

(** [tokens] of the streaming result: each field holds whatever the
    callback read from [usage], [None] being [undefined]. *)
Record StreamTokens : Type := {
  st_input : option Z;
  st_output : option Z;
  st_total : option Z
}.

(** The fields of [streamingResult.execution.output] that the callback
    derives from its arguments alone.  ([cost] and [providerTiming], which
    it also writes, do not feed into them.) *)
Record StreamingOutput : Type := {
  so_content : string;
  so_tokens : StreamTokens
}.

(** [execution.output] as first built. *)
Definition initial_output : StreamingOutput :=
  {| so_content := "";
     so_tokens := {| st_input := Some 0%Z;
                     st_output := Some 0%Z;
                     st_total := Some 0%Z |} |}.

(** The [(content, usage) => { ... }] callback of the streaming branch. *)
Definition onUpdate (out : StreamingOutput) (content : string) (usage : Usage)
  : StreamingOutput :=
  {| so_content := content;
     so_tokens := {| st_input := prompt_tokens usage;
                     st_output := completion_tokens usage;
                     st_total := total_tokens usage |} |}.

(** The values [execution.output] takes while the stream is consumed:
    the initial one, then one per [onUpdate] call. *)
Fixpoint outputs (out : StreamingOutput) (ups : list (string * Usage))
  : list StreamingOutput :=
  match ups with
  | [] => [out]
  | (c, u) :: rest => out :: outputs (onUpdate out c u) rest
  end.

Definition streaming_outputs (stream : ChunkStream) : list StreamingOutput :=
  outputs initial_output (updates (createReadableStreamFromLMStudioStream stream)).

End LMStudio.

(* ------------------------------------------------------------------ *)
(** ** Reference built-ins and environments for the examples *)

Module Builtins.

Definition dq : string := String (ascii_of_nat 34) "".
Definition lf : string := String newline "".

Definition decimal (n : Z) : string := NilEmpty.string_of_int (Z.to_int n).

(** [String(n).padStart(width, '0')] for [n >= 0] *)
Definition padded (width : nat) (n : Z) : string :=
  let s := decimal n in
  (fix zeros (k : nat) : string :=
     match k with O => s | S k' => String "0" (zeros k') end)
    (width - String.length s).

(** Year, month and day of the proleptic Gregorian calendar for a day
    count from 1970-01-01. *)
Definition civil (days : Z) : Z * Z * Z :=
  let z := (days + 719468)%Z in
  let era := (z / 146097)%Z in
  let doe := (z - era * 146097)%Z in
  let yoe := ((doe - doe / 1460 + doe / 36524 - doe / 146096) / 365)%Z in
  let doy := (doe - (365 * yoe + yoe / 4 - yoe / 100))%Z in
  let mp := ((5 * doy + 2) / 153)%Z in
  let d := (doy - (153 * mp + 2) / 5 + 1)%Z in
  let m := (if mp <? 10 then mp + 3 else mp - 9)%Z in
  let y := (yoe + era * 400 + (if m <=? 2 then 1 else 0))%Z in
  (y, m, d).

(** [new Date(ms).toISOString()] for an instant in the years 0 to 9999. *)
Definition toISOString (ms : Z) : string :=
  let days := (ms / 86400000)%Z in
  let rest := (ms mod 86400000)%Z in
  let '(y, m, d) := civil days in
  (padded 4 y ++ "-" ++ padded 2 m ++ "-" ++ padded 2 d ++ "T" ++
   padded 2 (rest / 3600000) ++ ":" ++
   padded 2 (rest / 60000 mod 60) ++ ":" ++
   padded 2 (rest / 1000 mod 60) ++ "." ++
   padded 3 (rest mod 1000) ++ "Z")%string.

Definition hex_digit (n : nat) : ascii :=
  ascii_of_nat (if (n <? 10)%nat then 48 + n else 87 + n).

(** The quoted form of a string in [JSON.stringify]. *)
Fixpoint escaped (s : string) : string :=
  match s with
  | "" => ""
  | String c s' =>
      let n := nat_of_ascii c in
      ((if (n =? 34)%nat then "\" ++ dq
        else if (n =? 92)%nat then "\\"
        else if (n =? 8)%nat then "\b"
        else if (n =? 9)%nat then "\t"
        else if (n =? 10)%nat then "\n"
        else if (n =? 12)%nat then "\f"
        else if (n =? 13)%nat then "\r"
        else if (n <? 32)%nat then
          "\u00" ++ String (hex_digit (n / 16)) (String (hex_digit (n mod 16)) "")
        else String c "") ++ escaped s')%string
  end.

(** [JSON.stringify(v)]: [None] is [undefined]. *)
Fixpoint JSON_stringify (v : JsValue) : option string :=
  match v with
  | JUndefined => None
  | JNull => Some "null"
  | JBool b => Some (if b then "true" else "false")
  | JNum n => Some (decimal n)
  | JStr s => Some (dq ++ escaped s ++ dq)%string
  | JArr items =>
      let element x :=
        match JSON_stringify x with Some t => t | None => "null" end in
      Some ("[" ++
            (fix go (l : list JsValue) : string :=
               match l with
               | [] => ""
               | [x] => element x
               | x :: rest => element x ++ "," ++ go rest
               end) items ++ "]")%string
  | JObj fields =>
      Some ("{" ++
            (fix go (first : bool) (l : list (string * JsValue)) : string :=
               match l with
               | [] => ""
               | (k, x) :: rest =>
                   match JSON_stringify x with
                   | None => go first rest
                   | Some t =>
                       (if first then "" else ",") ++
                       dq ++ escaped k ++ dq ++ ":" ++ t ++ go false rest
                   end
               end) true fields ++ "}")%string
  end.

End Builtins.

Module Examples.
Import LMStudio Builtins.

(** A tool without preset parameters, in a request without workflow
    context: both parameter objects are the arguments of the model. *)
Definition prepareToolExecution (t : ToolConfig) (toolArgs : JsValue)
  : Outcome (JsValue * JsValue) :=
  Returns (toolArgs, toolArgs).

Definition a_tool (name : string) : ToolConfig :=
  {| id := name; description := ""; parameters := JObj [];
     usageControl := None |}.

Definition a_call (cid name args : string) : ToolCall :=
  {| tc_id := cid; tc_name := name; tc_arguments := args |}.

Definition a_usage (p c : Z) : option Usage :=
  Some {| prompt_tokens := Some p;
          completion_tokens := Some c;
          total_tokens := Some (p + c)%Z |}.

Definition a_completion (text : option string) (calls : option (list ToolCall))
  : ChatCompletion :=
  {| first_message := Some {| msg_content := text; msg_tool_calls := calls |};
     usage := a_usage 7 3 |}.

Definition user_hello : list Message := [RequestMessage "user" (JStr "hello")].

(** A backend that asks for the [search] tool in every completion. *)
Definition create_always_tools (messages : list Message) : Run ChatCompletion :=
  {| latency := 10;
     settles :=
       Returns (a_completion (Some "working")
                  (Some [a_call "call_1" "search" "{}"])) |}.

(** A backend that asks once for the calls [calls] and then answers. *)
Definition create_once (calls : list ToolCall) (messages : list Message)
  : Run ChatCompletion :=
  {| latency := 10;
     settles :=
       Returns match messages with
               | [_] => a_completion None (Some calls)
               | _ => a_completion (Some "done") None
               end |}.

(** Tools that echo their name: [slow] takes 50 ms, [boom] throws after
    5 ms, every other tool takes 20 ms. *)
Definition executeTool (invocation : nat * string) (name : string)
    (params : JsValue) : Run ToolResult :=
  if name =? "boom" then
    {| latency := 5; settles := Throws (ErrorObject "boom failed") |}
  else
    {| latency := if name =? "slow" then 50 else 20;
       settles := Returns {| success := true;
                             output := JStr name;
                             error := None |} |}.

End Examples.

(* ------------------------------------------------------------------ *)
(** ** Vocabulary of the statements *)

Module Props.
Import Route LMStudio.

(** Number of [done] and [error] events of a sequence. *)
Definition terminal_count (evs : list CanonicalEvent) : nat :=
  List.length (filter is_terminal evs).

(** Exactly one terminal event, in last position. *)
Definition one_terminal_last (evs : list CanonicalEvent) : Prop :=
  terminal_count evs = 1 /\
  exists front t, evs = front ++ [t] /\ is_terminal t = true.

(** A content event whose data is truthy. *)
Definition is_truthy_content (e : CanonicalEvent) : bool :=
  match e with ContentEvent d => truthy d | _ => false end.

(** One content event per non-empty chunk, each carrying its chunk. *)
Definition raw_events (chunks : list string) : list CanonicalEvent :=
  flat_map
    (fun c => if negb (c =? "") then [ContentEvent (JStr c)] else [])
    chunks.

(** The payload of an SSE-framed line. *)
Definition payload_of (line : string) : string := trim (slice 6 line).

(** A complete line that carries the [[DONE]] sentinel. *)
Definition is_done_line (line : string) : bool :=
  startsWith "data: " line && (payload_of line =? "[DONE]").

(** The values of the promises that did not resolve to [null]. *)
Fixpoint somes {A : Type} (l : list (option A)) : list A :=
  match l with
  | [] => []
  | Some a :: rest => a :: somes rest
  | None :: rest => somes rest
  end.

Definition is_tool_segment (s : TimeSegment) : bool :=
  match seg_type s with tool => true | model => false end.

Definition is_model_segment (s : TimeSegment) : bool :=
  match seg_type s with model => true | tool => false end.

(** Instants listed in the order they occurred. *)
Fixpoint ascending (l : list Z) : bool :=
  match l with
  | a :: (b :: _) as rest => (a <=? b)%Z && ascending rest
  | _ => true
  end.

(** [usage] reports no negative count. *)
Definition usage_nonneg (u : Usage) : Prop :=
  (0 <= or_zero (prompt_tokens u) /\ 0 <= or_zero (completion_tokens u) /\
   0 <= or_zero (total_tokens u))%Z.

(** Field by field comparison of the batch counters. *)
Definition tokens_le (a b : Tokens) : Prop :=
  (input a <= input b /\ output_tokens a <= output_tokens b /\
   total a <= total b)%Z.

End Props.

(* ------------------------------------------------------------------ *)
(** ** Further vocabulary *)

Module Telemetry.
Import Route LMStudio.

(** The text of complete lines, each with the line feed that ended it. *)
Fixpoint unlines (lines : list string) : string :=
  match lines with
  | [] => ""
  | l :: rest => (l ++ String newline (unlines rest))%string
  end.

Fixpoint has_newline (s : string) : bool :=
  match s with
  | "" => false
  | String c s' => Ascii.eqb c newline || has_newline s'
  end.

Definition is_chat_id (e : CanonicalEvent) : bool :=
  match e with ChatIdEvent _ => true | _ => false end.

(** The provider stream as the route reads it, when it is the stream
    built by [createReadableStreamFromLMStudioStream]: one read per
    enqueued delta and then the end; when the helper ends with
    [controller.error], which empties the queue of its stream, the deltas
    that the route had read by then ([consumed] of them) and then the
    error. *)
Definition as_upstream (consumed : nat) (p : Pumped) : Upstream :=
  match finished p with
  | Returns _ => {| reads := deltas p; read_end := ReaderDone |}
  | Throws e =>
      {| reads := firstn consumed (deltas p); read_end := ReaderThrows e |}
  end.

(** The usage object the helper holds after the chunks [l]. *)
Definition latest_usage (u : Usage) (l : list ChatCompletionChunk) : Usage :=
  fold_left
    (fun u chunk => match chunk_usage chunk with Some u' => u' | None => u end)
    l u.

Fixpoint sum_durations (l : list TimeSegment) : Z :=
  match l with
  | [] => 0%Z
  | s :: rest => (seg_duration s + sum_durations rest)%Z
  end.

Definition is_tool_message (m : Message) : bool :=
  match m with ToolMessage _ _ => true | _ => false end.

Definition is_assistant_turn (m : Message) : bool :=
  match m with AssistantToolCalls _ => true | _ => false end.

(** The payload recorded for a failed invocation. *)
Definition error_payload (message name : string) : JsValue :=
  JObj [("error", JBool true); ("message", JStr message); ("tool", JStr name)].

End Telemetry.

(* ------------------------------------------------------------------ *)
(** ** chat-completion-streaming/route.ts: the request handler *)

Module Copilot.
Import Route LMStudio Builtins.

(** An element of [body.contexts]. *)
Record Context : Type := {
  ctx_type : JsValue;
  ctx_content : JsValue
}.

(** The fields of the request body that the handler reads; a missing
    field is [undefined], [contexts] is an array or is missing. *)
Record Body : Type := {
  message : JsValue;
  model : string;
  contexts : option (list Context);
  stream : JsValue;
  chatId : JsValue
}.

(** What [COPILOT_MODEL_MAPPING[model] || { ... }] evaluates to: an entry
    of the table, a member of [Object.prototype] (which has neither
    [provider] nor [model]), or the fallback object. *)
Definition COPILOT_MODEL_MAPPING : list (string * (string * string)) :=
  [("claude-4.5-opus", ("anthropic", "claude-sonnet-4-20250514"));
   ("claude-4.5-sonnet", ("anthropic", "claude-sonnet-4-20250514"));
   ("claude-4.5-haiku", ("anthropic", "claude-3-5-haiku-20241022"));
   ("gpt-5.1-codex", ("openai", "gpt-4"));
   ("gpt-5.1-medium", ("openai", "gpt-4"));
   ("gemini-3-pro", ("google", "gemini-2.5-flash-exp"));
   ("openai/gpt-oss-20b", ("lmstudio", "openai/gpt-oss-20b"))].

Definition object_prototype_members : list string :=
  ["constructor"; "__proto__"; "hasOwnProperty"; "isPrototypeOf";
   "propertyIsEnumerable"; "toLocaleString"; "toString"; "valueOf";
   "__defineGetter__"; "__defineSetter__"; "__lookupGetter__";
   "__lookupSetter__"].

Fixpoint table_entry (name : string)
    (table : list (string * (string * string))) : option (string * string) :=
  match table with
  | [] => None
  | (k, v) :: rest => if k =? name then Some v else table_entry name rest
  end.

(** The request handed to [executeProviderRequest]; [temperature] is the
    literal [0.7] and is kept as its text. *)
Record ProviderRequest : Type := {
  pr_model : option string;
  pr_messages : list Message;
  pr_systemPrompt : string;
  pr_stream : JsValue;
  pr_temperature : string;
  pr_maxTokens : Z;
  pr_apiKey : string;
  pr_isCopilotRequest : bool
}.

(** What [executeProviderRequest] resolves to, as far as the handler
    looks: not an object, or an object with or without the keys [stream]
    and [content]. *)
Inductive ProviderResult : Type :=
| NotAnObject
| ResultObject (providerStream : option Upstream) (content : option JsValue).

(** The responses of the handler: a [text/event-stream] body, given by
    the events written to it and the way it ends, or a JSON error. *)
Inductive HttpResponse : Type :=
| EventStream (out : Transformed)
| JsonError (status : nat) (error : string).

Section Handler.

(** [String(v)], as applied by template literals and by [join]. *)
Variable ToString : JsValue -> string.
Variable JSON_parse : string -> Outcome JsValue.
Variable getProviderFromModel : string -> Outcome string.
Variable executeProviderRequest :
  option string -> ProviderRequest -> Outcome ProviderResult.

(** [c.type === name] *)
Definition type_is (name : string) (c : Context) : bool :=
  match ctx_type c with
  | JStr t => t =? name
  | _ => false
  end.

(** The function mapped over [contexts]. *)
Definition render (c : Context) : JsValue :=
  if type_is "past_chat" c && truthy (ctx_content c) then
    JStr ("Past conversation:" ++ lf ++ ToString (ctx_content c))
  else if type_is "workflow" c && truthy (ctx_content c) then
    JStr ("Workflow:" ++ lf ++ ToString (ctx_content c))
  else if type_is "current_workflow" c && truthy (ctx_content c) then
    JStr ("Current workflow:" ++ lf ++ ToString (ctx_content c))
  else or_else (ctx_content c) (JStr "").

(** [parts.join(sep)] on parts already converted to strings. *)
Fixpoint join_with (sep : string) (parts : list string) : string :=
  match parts with
  | [] => ""
  | [x] => x
  | x :: rest => (x ++ sep ++ join_with sep rest)%string
  end.

Definition separator : string := (lf ++ lf ++ "---" ++ lf ++ lf)%string.

(** [contexts.map(...).filter(Boolean).join('\n\n---\n\n')] *)
Definition contextContent (l : list Context) : string :=
  join_with separator (map ToString (filter truthy (map render l))).

Definition preamble : string :=
  ("You are a helpful AI assistant. Use the following context to help the user:"
   ++ lf ++ lf)%string.

(** The [messages] array built from the contexts and the message. *)
Definition build_messages (b : Body) : list Message :=
  match contexts b with
  | Some (c :: cs) =>
      if negb (contextContent (c :: cs) =? "") then
        [RequestMessage "system"
           (JStr (preamble ++ contextContent (c :: cs)))]
      else []
  | _ => []
  end ++ [RequestMessage "user" (message b)].

(** [modelMapping.provider] and [modelMapping.model]; [None] is
    [undefined]. *)
Definition resolve_model (name : string)
  : Outcome (option string * option string) :=
  match table_entry name COPILOT_MODEL_MAPPING with
  | Some (provider, backend) => Returns (Some provider, Some backend)
  | None =>
      if existsb (String.eqb name) object_prototype_members
      then Returns (None, None)
      else match getProviderFromModel name with
           | Returns provider => Returns (Some provider, Some name)
           | Throws e => Throws e
           end
  end.

(** [const { stream = true } = body] *)
Definition stream_flag (b : Body) : JsValue :=
  match stream b with
  | JUndefined => JBool true
  | v => v
  end.

Definition providerRequest (b : Body) (actualModel : option string)
  : ProviderRequest :=
  {| pr_model := actualModel;
     pr_messages := build_messages b;
     pr_systemPrompt := "";
     pr_stream := stream_flag b;
     pr_temperature := "0.7";
     pr_maxTokens := 8192;
     pr_apiKey := "";
     pr_isCopilotRequest := true |}.

(** [error instanceof Error ? error.message : 'Internal server error'] *)
Definition server_error (e : Thrown) : HttpResponse :=
  JsonError 500 match e with
                | ErrorObject m => m
                | OtherValue _ => "Internal server error"
                end.

(** [POST]: [body] is the outcome of [req.json()], [responseId] the id
    drawn for the response. *)
Definition POST (body : Outcome Body) (responseId : string) : HttpResponse :=
  match body with
  | Throws e => server_error e
  | Returns b =>
      match resolve_model (model b) with
      | Throws e => server_error e
      | Returns (providerId, actualModel) =>
          match executeProviderRequest providerId
                  (providerRequest b actualModel) with
          | Throws e => server_error e
          | Returns result =>
              match result with
              | ResultObject (Some providerStream) content =>
                  if truthy (stream_flag b) then
                    EventStream (start JSON_parse (chatId b) responseId
                                   providerStream)
                  else
                    match content with
                    | Some c =>
                        EventStream {| enqueued := [ContentEvent c;
                                                    DoneEvent responseId];
                                       controller := Closed |}
                    | None => JsonError 500 "Unexpected response format"
                    end
              | ResultObject None (Some c) =>
                  EventStream {| enqueued := [ContentEvent c;
                                              DoneEvent responseId];
                                 controller := Closed |}
              | _ => JsonError 500 "Unexpected response format"
              end
          end
      end
  end.

End Handler.

End Copilot.

(* ------------------------------------------------------------------ *)
(** ** providers/lmstudio/index.ts: the preparation of a request *)

Module LMStudioRequest.
Import LMStudio.

Definition LMSTUDIO_DEFAULT_URL : string := "http://localhost:1234/v1".

(** [s.replace(/\/$/, '')] *)
Fixpoint strip_trailing_slash (s : string) : string :=
  match s with
  | "" => ""
  | String c "" => if Ascii.eqb c "/" then "" else s
  | String c rest => String c (strip_trailing_slash rest)
  end.

(** [s.replace(/^lmstudio\//, '')] *)
Definition strip_provider_prefix (s : string) : string :=
  if startsWith "lmstudio/" s then slice 9 s else s.

(** The model names that [initialize] registers for the ids that the
    server lists. *)
Definition discovered_models (ids : list string) : list string :=
  map (fun i => ("lmstudio/" ++ i)%string) ids.

(** [a || b] on strings that may be missing. *)
Definition first_nonempty (a : option string) (b : string) : string :=
  match nonempty a with
  | Some s => s
  | None => b
  end.

(** [baseUrl] of [executeRequest], or the error thrown when it is
    empty. *)
Definition baseUrl (azureEndpoint envUrl : option string) : Outcome string :=
  let url :=
    strip_trailing_slash
      (first_nonempty azureEndpoint
         (first_nonempty envUrl LMSTUDIO_DEFAULT_URL)) in
  if url =? "" then
    Throws (ErrorObject "LMSTUDIO_BASE_URL is required for LM Studio provider")
  else Returns url.

(** [baseURL] of the client. *)
Definition client_baseURL (url : string) : string := (url ++ "/v1")%string.

(** The fields of the request that the preparation reads. *)
Record ProviderRequest : Type := {
  req_model : string;
  req_systemPrompt : option string;
  req_context : option string;
  req_messages : option (list Message);
  req_tools : option (list ToolConfig);
  req_maxTokens : option Z;
  req_stream : bool
}.

(** An entry of [payload.tools]. *)
Record FunctionTool : Type := {
  fn_name : string;
  fn_description : string;
  fn_parameters : JsValue
}.

(** The payload, without [temperature], which is copied from the request
    as [max_tokens] is. *)
Record Payload : Type := {
  p_model : string;
  p_messages : list Message;
  p_max_tokens : option Z;
  p_tools : option (list FunctionTool);
  p_tool_choice : option string
}.

Definition allMessages (request : ProviderRequest) : list Message :=
  match nonempty (req_systemPrompt request) with
  | Some p => [RequestMessage "system" (JStr p)]
  | None => []
  end ++
  match nonempty (req_context request) with
  | Some c => [RequestMessage "user" (JStr c)]
  | None => []
  end ++
  match req_messages request with
  | Some l => l
  | None => []
  end.

Definition function_tool (t : ToolConfig) : FunctionTool :=
  {| fn_name := id t;
     fn_description := description t;
     fn_parameters := parameters t |}.

(** [tools]: [None] is [undefined]. *)
Definition function_tools (request : ProviderRequest)
  : option (list FunctionTool) :=
  match req_tools request with
  | Some (t :: ts) => Some (map function_tool (t :: ts))
  | _ => None
  end.

(** [toolConfig?.usageControl] for the tool named [name]. *)
Definition usage_control_of (request : ProviderRequest) (name : string)
  : option string :=
  match find (fun t => id t =? name)
          match req_tools request with Some l => l | None => [] end with
  | Some t => usageControl t
  | None => None
  end.

Definition is_control (value : string) (c : option string) : bool :=
  match c with
  | Some v => v =? value
  | None => false
  end.

Definition filteredTools (request : ProviderRequest)
    (l : list FunctionTool) : list FunctionTool :=
  filter
    (fun f => negb (is_control "none" (usage_control_of request (fn_name f))))
    l.

(** [hasForcedTools], which only leads to a warning. *)
Definition hasForcedTools (request : ProviderRequest)
    (l : list FunctionTool) : bool :=
  existsb (fun f => is_control "force" (usage_control_of request (fn_name f)))
    l.

Definition payload (request : ProviderRequest) : Payload :=
  let kept :=
    match function_tools request with
    | Some l => filteredTools request l
    | None => []
    end in
  {| p_model := strip_provider_prefix (req_model request);
     p_messages := allMessages request;
     p_max_tokens := req_maxTokens request;
     p_tools := match kept with [] => None | _ => Some kept end;
     p_tool_choice := match kept with [] => None | _ => Some "auto" end |}.

(** [request.stream && (!tools || tools.length === 0)] *)
Definition uses_streaming (request : ProviderRequest) : bool :=
  req_stream request &&
  match function_tools request with
  | Some (_ :: _) => false
  | _ => true
  end.

End LMStudioRequest.

(* ------------------------------------------------------------------ *)
(** ** The history of a request *)

Module History.
Import LMStudio.

(** The text of the latest completion of [l] that has one; [text] when
    none has. *)
Fixpoint latest_known_content (l : list ChatCompletion) (text : string)
  : string :=
  match l with
  | [] => text
  | r :: rest =>
      latest_known_content rest
        match response_content r with
        | Some c => if c =? "" then text else c
        | None => text
        end
  end.

(** The message recorded for an invocation that threw [e]. *)
Definition thrown_message (e : Thrown) : string :=
  match e with
  | ErrorObject m => if m =? "" then "Tool execution failed" else m
  | OtherValue _ => "Tool execution failed"
  end.

(** The message recorded for an invocation that returned the failure
    [r]. *)
Definition failure_message (r : ToolResult) : string :=
  match error r with
  | Some m => if m =? "" then "Tool execution failed" else m
  | None => "Tool execution failed"
  end.

Section Trace.

Variable MAX_TOOL_ITERATIONS : nat.
Variable JSON_parse : string -> Outcome JsValue.
Variable JSON_stringify : JsValue -> option string.
Variable toISOString : Z -> string.
Variable prepareToolExecution :
  ToolConfig -> JsValue -> Outcome (JsValue * JsValue).
Variable executeTool : nat * string -> string -> JsValue -> Run ToolResult.
Variable create : list Message -> Run ChatCompletion.
Variable tools : list ToolConfig.

(** The calls of a response that are not skipped: a call is skipped when
    its arguments parse and no tool of the request has its name. *)
Definition recorded (tc : ToolCall) : bool :=
  match JSON_parse (tc_arguments tc) with
  | Throws _ => true
  | Returns _ =>
      match find (fun t => id t =? tc_name tc) tools with
      | Some _ => true
      | None => false
      end
  end.

(** The loop variables each time the condition of the [while] loop is
    evaluated: [currentResponse] runs through the completions received. *)
Fixpoint loop_states (fuel : nat) (st : LoopState) : list LoopState :=
  st ::
  match fuel with
  | O => []
  | S fuel' =>
      if (iterationCount st <? MAX_TOOL_ITERATIONS)%nat then
        match turn JSON_parse JSON_stringify toISOString
                prepareToolExecution executeTool create tools st with
        | Continue st' => loop_states fuel' st'
        | _ => []
        end
      else []
  end.

(** The completions that a request has received when it resolves. *)
Definition completions (providerStartTime : Z) (allMessages : list Message)
    (first : ChatCompletion) : list ChatCompletion :=
  map currentResponse
    (loop_states MAX_TOOL_ITERATIONS
       (initial_state allMessages providerStartTime
          (latency (create allMessages)) first)).

End Trace.

End History.

Module MoreExamples.
Import LMStudio Examples.

(** [String(v)] for the values at hand. *)
Fixpoint ToString (v : JsValue) : string :=
  match v with
  | JUndefined => "undefined"
  | JNull => "null"
  | JBool b => if b then "true" else "false"
  | JNum n => Builtins.decimal n
  | JStr s => s
  | JArr items =>
      let element x :=
        match x with
        | JUndefined | JNull => ""
        | _ => ToString x
        end in
      (fix go (l : list JsValue) : string :=
         match l with
         | [] => ""
         | [x] => element x
         | x :: rest => (element x ++ "," ++ go rest)%string
         end) items
  | JObj _ => "[object Object]"
  end.

(** A backend that asks for [search] once and is unreachable when asked
    again. *)
Definition create_then_fail (messages : list Message) : Run ChatCompletion :=
  match messages with
  | [_] =>
      {| latency := 10;
         settles := Returns (a_completion None
                               (Some [a_call "call_1" "search" "{}"])) |}
  | _ => {| latency := 3; settles := Throws (ErrorObject "ECONNRESET") |}
  end.

(** A request that streams and names one tool, which is disabled. *)
Definition disabled_search : ToolConfig :=
  {| id := "search"; description := "web search";
     parameters := JObj []; usageControl := Some "none" |}.

Definition disabled_search_request : LMStudioRequest.ProviderRequest :=
  {| LMStudioRequest.req_model := "lmstudio/qwen";
     LMStudioRequest.req_systemPrompt := Some "be brief";
     LMStudioRequest.req_context := None;
     LMStudioRequest.req_messages := Some user_hello;
     LMStudioRequest.req_tools := Some [disabled_search];
     LMStudioRequest.req_maxTokens := Some 256%Z;
     LMStudioRequest.req_stream := true |}.

(** A backend that asks for [search] in every completion and has a text
    only in the first one. *)
Definition create_silent_after_first (messages : list Message)
  : Run ChatCompletion :=
  {| latency := 10;
     settles :=
       Returns (a_completion
                  match messages with [_] => Some "thinking" | _ => None end
                  (Some [a_call "call_1" "search" "{}"])) |}.

End MoreExamples.

(* ================================================================== *)
(** * Results *)

Import Route LMStudio Props Builtins.
Import Telemetry History.

(** ** Strings *)

Lemma startsWith_app (p a b : string) :
  startsWith p a = true -> startsWith p (a ++ b)%string = true.
Proof.
  revert a; induction p as [|c p IH]; intros a H; [reflexivity|].
  destruct a as [|d a]; simpl in *; [discriminate|].
  apply andb_true_iff in H as [Hc Hp].
  now rewrite Hc, (IH _ Hp).
Qed.

Lemma includes_app_l (p a b : string) :
  includes p a = true -> includes p (a ++ b)%string = true.
Proof.
  induction a as [|c a IH]; simpl; intros H.
  - rewrite orb_false_r in H.
    destruct p; [|discriminate].
    destruct b; reflexivity.
  - apply orb_true_iff in H as [H|H].
    + change (String c (a ++ b)%string) with (String c a ++ b)%string.
      now rewrite (startsWith_app _ _ b H).
    + rewrite (IH H). apply orb_true_r.
Qed.

Lemma includes_app_r (p a b : string) :
  includes p b = true -> includes p (a ++ b)%string = true.
Proof.
  intros H; induction a as [|c a IH]; simpl; [exact H|].
  rewrite IH. apply orb_true_r.
Qed.

Lemma includes_join_false (p : string) (cs : list string) :
  includes p (join cs) = false ->
  Forall (fun c => includes p c = false) cs.
Proof.
  induction cs as [|c cs IH]; simpl; intros H; constructor.
  - destruct (includes p c) eqn:E; [|reflexivity].
    now rewrite (includes_app_l _ _ _ E) in H.
  - apply IH. destruct (includes p (join cs)) eqn:E; [|reflexivity].
    now rewrite (includes_app_r _ c _ E) in H.
Qed.

(** The first line is a prefix of the text. *)
Lemma split_lines_head (s : string) :
  exists l ls rest, split_lines s = l :: ls /\ s = (l ++ rest)%string.
Proof.
  induction s as [|c s (l & ls & rest & E & Es)]; simpl.
  - now exists "", [], "".
  - destruct (Ascii.eqb c newline).
    + now exists "", (split_lines s), (String c s).
    + rewrite E. exists (String c l), ls, rest. split; [reflexivity|].
      simpl. now rewrite <- Es.
Qed.

(** A line that starts with the marker lies in a text that includes it. *)
Lemma split_lines_includes (p s line : string) :
  In line (split_lines s) -> startsWith p line = true ->
  includes p s = true.
Proof.
  revert line; induction s as [|c s IH]; simpl; intros line Hin Hp.
  - destruct Hin as [<-|[]]. now rewrite Hp.
  - destruct (Ascii.eqb c newline).
    + destruct Hin as [<-|Hin].
      * destruct p; [reflexivity|discriminate].
      * rewrite (IH _ Hin Hp). apply orb_true_r.
    + destruct (split_lines_head s) as (l & ls & rest & E & Es).
      rewrite E in Hin. destruct Hin as [<-|Hin].
      * rewrite Es.
        change (String c (l ++ rest)%string) with (String c l ++ rest)%string.
        now rewrite (startsWith_app _ _ rest Hp).
      * rewrite (IH line); [apply orb_true_r| |exact Hp].
        rewrite E. now right.
Qed.

Lemma trimEnd_nonwhite (c : ascii) (s : string) :
  is_white c = false -> trimEnd (String c s) <> "".
Proof.
  intros H. simpl. destruct (trimEnd s); [rewrite H|]; discriminate.
Qed.

(** A line that starts with the marker is not blank. *)
Lemma framed_line_not_blank (line : string) :
  startsWith "data: " line = true -> (trim line =? "") = false.
Proof.
  intros H. destruct line as [|c line]; [discriminate|].
  change (Ascii.eqb "d" c && startsWith "ata: " line = true) in H.
  apply andb_true_iff in H as [Hc _].
  apply Ascii.eqb_eq in Hc. subst c.
  apply String.eqb_neq. unfold trim. simpl trimStart.
  now apply trimEnd_nonwhite.
Qed.

(** ** The stream transformer *)

Section TransformerFacts.

Variable JSON_parse : string -> Outcome JsValue.

Lemma raw_fallback_truthy (data : string) :
  Forall (fun e => is_truthy_content e = true) (raw_fallback data).
Proof.
  unfold raw_fallback. destruct (data =? "") eqn:E; simpl; constructor.
  - simpl. now rewrite E.
  - constructor.
Qed.

Lemma payload_events_truthy (data : string) :
  Forall (fun e => is_truthy_content e = true)
    (payload_events JSON_parse data).
Proof.
  unfold payload_events.
  destruct (JSON_parse data) as [json|]; [|apply raw_fallback_truthy].
  destruct (delta_content json) as [c|]; [|apply raw_fallback_truthy].
  destruct (truthy c) eqn:E; repeat constructor. exact E.
Qed.

Lemma for_lines_truthy (lines : list string) :
  Forall (fun e => is_truthy_content e = true) (for_lines JSON_parse lines).
Proof.
  induction lines as [|line rest IH]; cbn [for_lines]; [constructor|].
  destruct (trim line =? ""); [exact IH|].
  destruct (startsWith "data: " line); [|exact IH].
  destruct (trim (slice 6 line) =? "[DONE]"); [constructor|].
  apply Forall_app. split; [apply payload_events_truthy|exact IH].
Qed.

Lemma on_chunk_truthy (buffer chunk : string) :
  Forall (fun e => is_truthy_content e = true)
    (snd (on_chunk JSON_parse buffer chunk)).
Proof.
  unfold on_chunk. destruct (includes "data: " (buffer ++ chunk)); simpl.
  - apply for_lines_truthy.
  - destruct ((buffer ++ chunk)%string =? "") eqn:E; simpl; constructor.
    + simpl. now rewrite E.
    + constructor.
Qed.

Lemma read_loop_truthy (chunks : list string) (buffer : string) :
  Forall (fun e => is_truthy_content e = true)
    (snd (read_loop JSON_parse buffer chunks)).
Proof.
  revert buffer; induction chunks as [|c cs IH]; intros buffer; simpl.
  - constructor.
  - pose proof (on_chunk_truthy buffer c) as H.
    destruct (on_chunk JSON_parse buffer c) as [b' evs]. simpl in H.
    specialize (IH b').
    destruct (read_loop JSON_parse b' cs) as [final evs']. simpl in *.
    apply Forall_app. now split.
Qed.

Lemma truthy_content_not_terminal (evs : list CanonicalEvent) :
  Forall (fun e => is_truthy_content e = true) evs ->
  filter is_terminal evs = [].
Proof.
  induction 1 as [|e evs He _ IH]; simpl; [reflexivity|].
  destruct e; try discriminate. exact IH.
Qed.

(** Before the end of the upstream is known, nothing terminal has been
    enqueued. *)
Lemma head_body_not_terminal (chatId : JsValue) (chunks : list string) :
  filter is_terminal
    ((if truthy chatId then [ChatIdEvent chatId] else []) ++
     snd (read_loop JSON_parse "" chunks)) = [].
Proof.
  rewrite filter_app.
  rewrite (truthy_content_not_terminal _ (read_loop_truthy chunks "")).
  now destruct (truthy chatId).
Qed.

End TransformerFacts.

(** C1, as the code has it: when the upstream ends normally the events
    enqueued hold exactly one terminal event, it is the [done] event with
    the response id drawn for the stream, it comes last and the stream is
    closed, whether or not any content was produced; when a read throws,
    no terminal event at all is enqueued and the stream is put in the
    errored state with the exception. *)
Theorem C1_terminal_event_by_read_end :
  forall (JSON_parse : string -> Outcome JsValue) (chatId : JsValue)
         (responseId : string) (up : Upstream),
    match read_end up with
    | ReaderDone =>
        one_terminal_last (enqueued (start JSON_parse chatId responseId up)) /\
        (exists front,
            enqueued (start JSON_parse chatId responseId up)
            = front ++ [DoneEvent responseId] /\
            terminal_count front = 0) /\
        controller (start JSON_parse chatId responseId up) = Closed
    | ReaderThrows e =>
        terminal_count (enqueued (start JSON_parse chatId responseId up)) = 0 /\
        controller (start JSON_parse chatId responseId up) = Errored e
    end.
Proof.
  intros P chatId rid [chunks ending]. unfold start, one_terminal_last,
    terminal_count. simpl.
  pose proof (head_body_not_terminal P chatId chunks) as H.
  destruct ending as [|e]; simpl.
  - rewrite app_assoc. repeat split.
    + rewrite filter_app, H. reflexivity.
    + eexists _, _. split; reflexivity.
    + eexists. split; [reflexivity|]. now rewrite H.
  - now rewrite H.
Qed.

(** C1 as stated fails: after a read that throws, the sequence has no
    terminal event. *)
Lemma C1_no_terminal_after_exception :
  ~ one_terminal_last
      (enqueued
         (start JsonRef.JSON_parse (JStr "chat-1") "resp-1"
            {| reads := ["Hello"];
               read_end := ReaderThrows (ErrorObject "socket hang up") |})).
Proof.
  intros [H _]. vm_compute in H. discriminate.
Qed.

(** C2, as the code has it: when a read throws, the transformer puts the
    stream in the errored state with the exception ([controller.error]);
    it enqueues neither an event of type [error] nor a [done] event, and
    what it has enqueued is what a normal end would have enqueued before
    its [done] event. *)
Theorem C2_read_exception_errors_the_stream :
  forall (JSON_parse : string -> Outcome JsValue) (chatId : JsValue)
         (responseId : string) (chunks : list string) (e : Thrown),
    controller
      (start JSON_parse chatId responseId
         {| reads := chunks; read_end := ReaderThrows e |}) = Errored e /\
    Forall (fun ev => is_error ev = false /\ is_done ev = false)
      (enqueued
         (start JSON_parse chatId responseId
            {| reads := chunks; read_end := ReaderThrows e |})) /\
    enqueued
      (start JSON_parse chatId responseId
         {| reads := chunks; read_end := ReaderDone |})
    = enqueued
        (start JSON_parse chatId responseId
           {| reads := chunks; read_end := ReaderThrows e |})
      ++ [DoneEvent responseId].
Proof.
  intros P chatId rid chunks e. unfold start. simpl.
  split; [reflexivity|]. split; [|now rewrite app_assoc].
  apply Forall_app. split.
  - destruct (truthy chatId); repeat constructor.
  - eapply Forall_impl; [|apply read_loop_truthy].
    intros ev H. destruct ev; try discriminate. now split.
Qed.

(** C2 as stated fails: after a read that throws, no event of type
    [error] is among the events enqueued. *)
Lemma C2_no_error_event_after_exception :
  ~ exists message,
      In (ErrorEvent message)
        (enqueued
           (start JsonRef.JSON_parse JUndefined "resp-2"
              {| reads := ["Hel"; "lo"];
                 read_end := ReaderThrows (ErrorObject "ECONNRESET") |})).
Proof.
  intros [m H]. vm_compute in H.
  destruct H as [H|[H|[]]]; discriminate.
Qed.

(** The stream scenarios of the specification. *)

Example raw_text_two_chunks :
  start JsonRef.JSON_parse JUndefined "resp-0"
    {| reads := ["Hello"; " world"]; read_end := ReaderDone |}
  = {| enqueued := [ContentEvent (JStr "Hello");
                    ContentEvent (JStr " world");
                    DoneEvent "resp-0"];
       controller := Closed |}.
Proof. reflexivity. Qed.

Example framed_delta_then_done :
  start JsonRef.JSON_parse (JStr "chat-7") "resp-0"
    {| reads :=
         ["data: {" ++ dq ++ "choices" ++ dq ++ ":[{" ++ dq ++ "delta" ++ dq ++
          ":{" ++ dq ++ "content" ++ dq ++ ":" ++ dq ++ "Hi" ++ dq ++ "}}]}" ++
          lf ++ lf ++ "data: [DONE]" ++ lf ++ lf]%string;
       read_end := ReaderDone |}
  = {| enqueued := [ChatIdEvent (JStr "chat-7");
                    ContentEvent (JStr "Hi");
                    DoneEvent "resp-0"];
       controller := Closed |}.
Proof. vm_compute. reflexivity. Qed.

Example framed_line_split_over_two_reads :
  enqueued
    (start JsonRef.JSON_parse JUndefined "resp-0"
       {| reads := ["data: not-"; "json" ++ lf]%string;
          read_end := ReaderDone |})
  = [ContentEvent (JStr "not-json"); DoneEvent "resp-0"].
Proof. vm_compute. reflexivity. Qed.

Example null_payload_is_forwarded_raw :
  enqueued
    (start JsonRef.JSON_parse JUndefined "resp-0"
       {| reads := ["data: null" ++ lf]%string; read_end := ReaderDone |})
  = [ContentEvent (JStr "null"); DoneEvent "resp-0"].
Proof. vm_compute. reflexivity. Qed.

(** *** Raw text *)

Section RawText.

Variable JSON_parse : string -> Outcome JsValue.

Lemma read_loop_raw (chunks : list string) :
  Forall (fun c => includes "data: " c = false) chunks ->
  read_loop JSON_parse "" chunks = ("", raw_events chunks).
Proof.
  induction 1 as [|c cs Hc _ IH]; [reflexivity|].
  cbn [read_loop]. unfold on_chunk.
  change ("" ++ c)%string with c. rewrite Hc, IH. reflexivity.
Qed.

Lemma content_text_raw (chunks : list string) :
  content_text (raw_events chunks) = join chunks.
Proof.
  induction chunks as [|c cs IH]; [reflexivity|].
  unfold raw_events in *. cbn [flat_map join].
  destruct (c =? "") eqn:E; simpl.
  - apply String.eqb_eq in E. now subst c.
  - now rewrite IH.
Qed.

Lemma content_text_before (evs tail : list CanonicalEvent) :
  content_text tail = "" -> content_text (evs ++ tail) = content_text evs.
Proof.
  intros Ht. induction evs as [|ev evs IH]; simpl.
  - exact Ht.
  - destruct ev as [c|d|r|m]; try exact IH.
    destruct d; try exact IH. now rewrite IH.
Qed.

(** The text forwarded is that of the content events of the loop. *)
Lemma content_text_start (chatId : JsValue) (responseId : string)
    (up : Upstream) :
  content_text (enqueued (start JSON_parse chatId responseId up))
  = content_text (snd (read_loop JSON_parse "" (reads up))).
Proof.
  unfold start.
  assert (H : forall evs,
             content_text
               ((if truthy chatId then [ChatIdEvent chatId] else []) ++ evs)
             = content_text evs) by (intros; now destruct (truthy chatId)).
  destruct (read_end up); simpl; rewrite H; [|reflexivity].
  now apply content_text_before.
Qed.

End RawText.

(** C3, as the code has it: as long as the upstream text does not contain
    the frame marker, every non-empty chunk is forwarded as one content
    event of its own, so the event sequence follows the chunk boundaries,
    while the concatenation of the content data is the upstream text and is
    the same for every way of splitting that text into chunks. *)
Theorem C3_raw_text_chunking :
  forall (JSON_parse : string -> Outcome JsValue) (chatId : JsValue)
         (responseId : string) (chunks chunks' : list string)
         (ending ending' : ReadEnd),
    join chunks = join chunks' ->
    includes "data: " (join chunks) = false ->
    snd (read_loop JSON_parse "" chunks) = raw_events chunks /\
    content_text
      (enqueued
         (start JSON_parse chatId responseId
            {| reads := chunks; read_end := ending |})) = join chunks /\
    content_text
      (enqueued
         (start JSON_parse chatId responseId
            {| reads := chunks'; read_end := ending' |}))
    = content_text
        (enqueued
           (start JSON_parse chatId responseId
              {| reads := chunks; read_end := ending |})).
Proof.
  intros P chatId rid cs cs' e e' Hjoin Hraw.
  pose proof (read_loop_raw P _ (includes_join_false _ _ Hraw)) as H.
  rewrite Hjoin in Hraw.
  pose proof (read_loop_raw P _ (includes_join_false _ _ Hraw)) as H'.
  rewrite !content_text_start. simpl reads. rewrite H, H'. simpl snd.
  rewrite !content_text_raw. repeat split. now symmetry.
Qed.

Lemma C3_raw_text_chunking_witness :
  join ["Hello"; " world"] = join ["Hello world"] /\
  includes "data: " (join ["Hello"; " world"]) = false /\
  snd (read_loop JsonRef.JSON_parse "" ["Hello"; " world"])
  = raw_events ["Hello"; " world"] /\
  content_text
    (enqueued
       (start JsonRef.JSON_parse (JStr "chat-1") "resp-1"
          {| reads := ["Hello"; " world"]; read_end := ReaderDone |}))
  = join ["Hello"; " world"] /\
  content_text
    (enqueued
       (start JsonRef.JSON_parse (JStr "chat-1") "resp-1"
          {| reads := ["Hello world"]; read_end := ReaderDone |}))
  = content_text
      (enqueued
         (start JsonRef.JSON_parse (JStr "chat-1") "resp-1"
            {| reads := ["Hello"; " world"]; read_end := ReaderDone |})).
Proof.
  split; [reflexivity|]. split; [reflexivity|].
  apply (C3_raw_text_chunking JsonRef.JSON_parse (JStr "chat-1") "resp-1"
           ["Hello"; " world"] ["Hello world"] ReaderDone ReaderDone);
    reflexivity.
Defined.

(** C3 as stated fails: the same text in two chunkings gives two event
    sequences, and once the frame marker is involved even the concatenated
    content differs. *)
Lemma C3_chunking_changes_events :
  (join ["Hello"; " world"] = join ["Hello world"] /\
   enqueued
     (start JsonRef.JSON_parse JUndefined "resp-3"
        {| reads := ["Hello"; " world"]; read_end := ReaderDone |})
   <> enqueued
        (start JsonRef.JSON_parse JUndefined "resp-3"
           {| reads := ["Hello world"]; read_end := ReaderDone |})) /\
  (join ["da"; "ta: [DONE]" ++ lf]%string = join ["data: [DONE]" ++ lf]%string /\
   content_text
     (enqueued
        (start JsonRef.JSON_parse JUndefined "resp-3"
           {| reads := ["da"; "ta: [DONE]" ++ lf]%string;
              read_end := ReaderDone |}))
   <> content_text
        (enqueued
           (start JsonRef.JSON_parse JUndefined "resp-3"
              {| reads := ["data: [DONE]" ++ lf]%string;
                 read_end := ReaderDone |}))).
Proof.
  repeat split; try reflexivity; vm_compute; discriminate.
Qed.

(** *** Framed lines *)

Section FramedLines.

Variable JSON_parse : string -> Outcome JsValue.

Lemma in_removelast (A : Type) (x : A) (l : list A) :
  In x (removelast l) -> In x l.
Proof.
  induction l as [|a l IH]; simpl; [tauto|].
  destruct l as [|b l]; [intros []|].
  intros [->|H]; [now left|right; now apply IH].
Qed.

(** A framed line that no [[DONE]] line precedes gets its payload
    handled. *)
Lemma for_lines_reaches (front back : list string) (line : string)
    (ev : CanonicalEvent) :
  Forall (fun l => is_done_line l = false) front ->
  startsWith "data: " line = true ->
  payload_of line <> "[DONE]" ->
  In ev (payload_events JSON_parse (payload_of line)) ->
  In ev (for_lines JSON_parse (front ++ line :: back)).
Proof.
  intros Hfront Hline Hdone Hev.
  induction Hfront as [|l front Hl _ IH]; cbn [app for_lines].
  - rewrite (framed_line_not_blank _ Hline), Hline.
    apply String.eqb_neq in Hdone. unfold payload_of in *. rewrite Hdone.
    apply in_or_app. now left.
  - destruct (trim l =? ""); [exact IH|].
    unfold is_done_line, payload_of in Hl.
    destruct (startsWith "data: " l); [|exact IH].
    apply andb_false_iff in Hl as [Hl|Hl]; [discriminate|].
    rewrite Hl. apply in_or_app. now right.
Qed.

Lemma read_loop_app (xs ys : list string) (buffer : string) :
  read_loop JSON_parse buffer (xs ++ ys)
  = (fst (read_loop JSON_parse (fst (read_loop JSON_parse buffer xs)) ys),
     snd (read_loop JSON_parse buffer xs) ++
     snd (read_loop JSON_parse (fst (read_loop JSON_parse buffer xs)) ys)).
Proof.
  revert buffer; induction xs as [|x xs IH]; intros buffer; simpl.
  - now destruct (read_loop JSON_parse buffer ys).
  - destruct (on_chunk JSON_parse buffer x) as [b evs].
    rewrite IH.
    destruct (read_loop JSON_parse b xs) as [b' evs']. simpl.
    now rewrite app_assoc.
Qed.

(** What one chunk enqueues is part of what the stream enqueues. *)
Lemma chunk_events_enqueued (chatId : JsValue) (responseId : string)
    (before after : list string) (chunk : string) (ending : ReadEnd)
    (ev : CanonicalEvent) :
  In ev
    (snd (on_chunk JSON_parse (fst (read_loop JSON_parse "" before)) chunk)) ->
  In ev
    (enqueued
       (start JSON_parse chatId responseId
          {| reads := before ++ chunk :: after; read_end := ending |})).
Proof.
  intros H.
  assert (Hbody : In ev
            (snd (read_loop JSON_parse "" (before ++ chunk :: after)))).
  { rewrite read_loop_app. simpl snd. apply in_or_app. right.
    cbn [read_loop].
    destruct (on_chunk JSON_parse (fst (read_loop JSON_parse "" before))
                chunk) as [b evs].
    destruct (read_loop JSON_parse b after) as [b' evs']. simpl in *.
    apply in_or_app. now left. }
  unfold start. simpl reads. simpl read_end.
  destruct ending; simpl; apply in_or_app; right;
    [apply in_or_app; now left | exact Hbody].
Qed.

End FramedLines.

(** C4, as the code has it: no content event with empty data is ever
    enqueued; and a complete framed line whose trimmed payload is not
    empty, is not [[DONE]] and is not JSON has that payload forwarded as a
    content event, provided no [[DONE]] line precedes it among the complete
    lines taken from the buffer in the same turn (a [[DONE]] line ends the
    processing of the lines of its turn). *)
Theorem C4_parse_failure_forwarded :
  forall (JSON_parse : string -> Outcome JsValue) (chatId : JsValue)
         (responseId : string),
    (forall up : Upstream,
        ~ In (ContentEvent (JStr ""))
            (enqueued (start JSON_parse chatId responseId up))) /\
    (forall (before after : list string) (chunk : string) (ending : ReadEnd)
            (front back : list string) (line : string) (err : Thrown),
        removelast
          (split_lines (fst (read_loop JSON_parse "" before) ++ chunk)%string)
        = front ++ line :: back ->
        Forall (fun l => is_done_line l = false) front ->
        startsWith "data: " line = true ->
        payload_of line <> "" ->
        payload_of line <> "[DONE]" ->
        JSON_parse (payload_of line) = Throws err ->
        In (ContentEvent (JStr (payload_of line)))
          (enqueued
             (start JSON_parse chatId responseId
                {| reads := before ++ chunk :: after;
                   read_end := ending |}))).
Proof.
  intros P chatId rid. split.
  - intros up Hin. unfold start in Hin.
    assert (Hbody : ~ In (ContentEvent (JStr ""))
                      (snd (read_loop P "" (reads up)))).
    { intros H. pose proof (read_loop_truthy P (reads up) "") as F.
      rewrite Forall_forall in F. specialize (F _ H). discriminate. }
    destruct (read_end up); simpl in Hin;
      apply in_app_or in Hin as [Hin|Hin].
    + destruct (truthy chatId); [destruct Hin as [?|[]]; discriminate|easy].
    + apply in_app_or in Hin as [Hin|[Hin|[]]]; [easy|discriminate].
    + destruct (truthy chatId); [destruct Hin as [?|[]]; discriminate|easy].
    + easy.
  - intros before after chunk ending front back line err
      Hsplit Hfront Hline Hne Hdone Hparse.
    apply chunk_events_enqueued. unfold on_chunk.
    assert (Hin : In line
              (split_lines (fst (read_loop P "" before) ++ chunk)%string)).
    { apply in_removelast. rewrite Hsplit. apply in_or_app. right. now left. }
    rewrite (split_lines_includes _ _ _ Hin Hline). simpl snd.
    rewrite Hsplit. apply for_lines_reaches; try assumption.
    unfold payload_events. rewrite Hparse. unfold raw_fallback.
    apply String.eqb_neq in Hne. rewrite Hne. now left.
Qed.

Lemma C4_parse_failure_forwarded_witness :
  In (ContentEvent (JStr "not-json"))
    (enqueued
       (start JsonRef.JSON_parse JUndefined "resp-5"
          {| reads := ["data: not-json" ++ lf ++ lf]%string;
             read_end := ReaderDone |})).
Proof.
  apply (proj2 (C4_parse_failure_forwarded JsonRef.JSON_parse JUndefined
                  "resp-5")
           [] [] ("data: not-json" ++ lf ++ lf)%string ReaderDone
           [] [""] "data: not-json" (ErrorObject "Unexpected token"));
    try reflexivity.
  - constructor.
  - vm_compute. discriminate.
  - vm_compute. discriminate.
Defined.

(** C4 as stated fails: a complete framed line with a payload that is not
    JSON is dropped when a [[DONE]] line came before it in the same
    chunk. *)
Lemma C4_line_after_done_dropped :
  In "data: not-json"
    (removelast
       (split_lines ("data: [DONE]" ++ lf ++ "data: not-json" ++ lf)%string)) /\
  JsonRef.JSON_parse "not-json" = Throws (ErrorObject "Unexpected token") /\
  ~ In (ContentEvent (JStr "not-json"))
      (enqueued
         (start JsonRef.JSON_parse JUndefined "resp-4"
            {| reads := ["data: [DONE]" ++ lf ++ "data: not-json" ++ lf]%string;
               read_end := ReaderDone |})).
Proof.
  split; [vm_compute; tauto|]. split; [reflexivity|].
  vm_compute. intros [H|[]]. discriminate.
Qed.

(** ** The tool loop *)

Section LoopFacts.

Variable MAX_TOOL_ITERATIONS : nat.
Variable JSON_parse : string -> Outcome JsValue.
Variable JSON_stringify : JsValue -> option string.
Variable toISOString : Z -> string.
Variable prepareToolExecution :
  ToolConfig -> JsValue -> Outcome (JsValue * JsValue).
Variable executeTool : nat * string -> string -> JsValue -> Run ToolResult.
Variable create : list Message -> Run ChatCompletion.
Variable tools : list ToolConfig.

Local Abbreviation invoke' :=
  (invoke JSON_parse prepareToolExecution executeTool tools).
Local Abbreviation record' := (record_settled JSON_stringify toISOString).
Local Abbreviation turn' :=
  (turn JSON_parse JSON_stringify toISOString prepareToolExecution
     executeTool create tools).
Local Abbreviation loop' :=
  (while_loop MAX_TOOL_ITERATIONS JSON_parse JSON_stringify toISOString
     prepareToolExecution executeTool create tools).

(** What the [for] loop over the settled promises appends, and what it
    leaves alone. *)
Lemma fold_record_settled (settled : list (option Settled))
    (st : LoopState) :
  let st' := fold_left record' settled st in
  toolCalls st'
  = toolCalls st ++ map (tool_call_record toISOString) (somes settled) /\
  timeSegments st' = timeSegments st ++ map tool_segment (somes settled) /\
  currentMessages st'
  = currentMessages st ++ map (tool_message JSON_stringify) (somes settled) /\
  toolResults st'
  = toolResults st ++
    map (fun s => output (result s))
      (filter (fun s => success (result s)) (somes settled)) /\
  currentResponse st' = currentResponse st /\
  content st' = content st /\
  tokens st' = tokens st /\
  iterationCount st' = iterationCount st /\
  modelTime st' = modelTime st /\
  toolsTime st' = toolsTime st /\
  now st' = now st.
Proof.
  revert st; induction settled as [|v settled IH]; intros st;
    cbv zeta; cbn [fold_left somes].
  - cbn [map filter]. rewrite !app_nil_r. repeat split.
  - destruct v as [s|]; [|apply IH].
    specialize (IH (record' st (Some s))). cbv zeta in IH.
    destruct IH as (H1 & H2 & H3 & H4 & H5 & H6 & H7 & H8 & H9 & H10 & H11).
    rewrite H1, H2, H3, H4, H5, H6, H7, H8, H9, H10, H11.
    cbn [record_settled toolCalls timeSegments currentMessages toolResults
         currentResponse content tokens iterationCount modelTime toolsTime
         now map filter].
    rewrite <- !app_assoc. repeat split.
    destruct (success (result s)); cbn [map]; [now rewrite <- app_assoc|].
    reflexivity.
Qed.

(** The shape of a turn that finds tool calls in the response. *)
Lemma turn_with_calls (st : LoopState) (c : ToolCall) (cs : list ToolCall) :
  response_tool_calls (currentResponse st) = Some (c :: cs) ->
  let settled := map (invoke' (iterationCount st) (now st)) (c :: cs) in
  let st3 :=
    fold_left record' settled
      {| currentResponse := currentResponse st;
         content := latest_content (currentResponse st) (content st);
         tokens := tokens st;
         toolCalls := toolCalls st;
         toolResults := toolResults st;
         currentMessages :=
           currentMessages st ++ [AssistantToolCalls (c :: cs)];
         iterationCount := iterationCount st;
         modelTime := modelTime st;
         toolsTime := toolsTime st;
         timeSegments := timeSegments st;
         now := joined_at (now st) settled |} in
  match settles (create (currentMessages st3)) with
  | Throws e =>
      turn' st = Raise e (now st3 + latency (create (currentMessages st3)))%Z
  | Returns response =>
      exists st',
        turn' st = Continue st' /\
        currentResponse st' = response /\
        content st' = latest_content response (content st3) /\
        tokens st' = add_usage (tokens st3) response /\
        toolCalls st' = toolCalls st3 /\
        toolResults st' = toolResults st3 /\
        currentMessages st' = currentMessages st3 /\
        iterationCount st' = S (iterationCount st) /\
        exists seg,
          timeSegments st' = timeSegments st3 ++ [seg] /\
          seg_type seg = model
  end.
Proof.
  intros Hcalls settled st3. unfold turn. rewrite Hcalls.
  fold settled. fold st3.
  destruct (settles (create (currentMessages st3))) as [response|e];
    [|reflexivity].
  eexists. split; [reflexivity|].
  cbn [currentResponse content tokens toolCalls toolResults currentMessages
       iterationCount timeSegments].
  repeat split.
  - f_equal. unfold st3.
    now destruct (fold_record_settled settled
                       {| currentResponse := currentResponse st;
                          content :=
                            latest_content (currentResponse st) (content st);
                          tokens := tokens st;
                          toolCalls := toolCalls st;
                          toolResults := toolResults st;
                          currentMessages :=
                            currentMessages st ++
                            [AssistantToolCalls (c :: cs)];
                          iterationCount := iterationCount st;
                          modelTime := modelTime st;
                          toolsTime := toolsTime st;
                          timeSegments := timeSegments st;
                          now := joined_at (now st) settled |})
      as (_ & _ & _ & _ & _ & _ & _ & H & _).
  - eexists. split; reflexivity.
Qed.

(** A turn that continues has counted one more iteration. *)
Lemma turn_continue_count (st st' : LoopState) :
  turn' st = Continue st' -> iterationCount st' = S (iterationCount st).
Proof.
  intros H.
  destruct (response_tool_calls (currentResponse st)) as [[|c cs]|] eqn:E;
    try (unfold turn in H; rewrite E in H; discriminate).
  pose proof (turn_with_calls st c cs E) as T. cbv zeta in T.
  destruct (settles (create _)) in T.
  - destruct T as (st'' & Ht & T). rewrite Ht in H.
    injection H as <-. apply T.
  - rewrite T in H. discriminate.
Qed.

(** [MAX_TOOL_ITERATIONS - iterationCount] turns of fuel are all the
    loop can use. *)
Lemma while_loop_fuel (fuel : nat) (st : LoopState) :
  MAX_TOOL_ITERATIONS - iterationCount st <= fuel ->
  loop' fuel st = loop' (MAX_TOOL_ITERATIONS - iterationCount st) st.
Proof.
  revert st; induction fuel as [|fuel IH]; intros st Hle.
  - now replace (MAX_TOOL_ITERATIONS - iterationCount st) with 0 by lia.
  - destruct (MAX_TOOL_ITERATIONS - iterationCount st) as [|k] eqn:Ek.
    + simpl. destruct (Nat.ltb_spec (iterationCount st) MAX_TOOL_ITERATIONS);
        [lia|reflexivity].
    + simpl.
      destruct (iterationCount st <? MAX_TOOL_ITERATIONS)%nat;
        [|reflexivity].
      destruct (turn' st) as [s|st'|e t] eqn:Et; try reflexivity.
      pose proof (turn_continue_count _ _ Et) as Hc.
      rewrite IH by lia.
      now replace (MAX_TOOL_ITERATIONS - iterationCount st') with k by lia.
Qed.

(** The loop never hands back [Continue]. *)
Lemma while_loop_stops (fuel : nat) (st st' : LoopState) :
  loop' fuel st <> Continue st'.
Proof.
  revert st; induction fuel as [|fuel IH]; intros st; simpl; [discriminate|].
  destruct (iterationCount st <? MAX_TOOL_ITERATIONS)%nat; [|discriminate].
  destruct (turn' st) eqn:E; [discriminate|apply IH|discriminate].
Qed.

Local Abbreviation settled_of st calls :=
  (somes (map (invoke' (iterationCount st) (now st)) calls)).
Local Abbreviation next_messages st calls :=
  (currentMessages st ++
   AssistantToolCalls calls ::
   map (tool_message JSON_stringify) (settled_of st calls)).

(** A turn on a response with tool calls, when the next completion
    arrives. *)
Lemma turn_step (st : LoopState) (c : ToolCall) (cs : list ToolCall)
    (response : ChatCompletion) :
  response_tool_calls (currentResponse st) = Some (c :: cs) ->
  settles (create (next_messages st (c :: cs))) = Returns response ->
  exists st' seg,
    turn' st = Continue st' /\
    currentResponse st' = response /\
    toolCalls st'
    = toolCalls st ++
      map (tool_call_record toISOString) (settled_of st (c :: cs)) /\
    toolResults st'
    = toolResults st ++
      map (fun s => output (result s))
        (filter (fun s => success (result s)) (settled_of st (c :: cs))) /\
    timeSegments st'
    = timeSegments st ++
      map tool_segment (settled_of st (c :: cs)) ++ [seg] /\
    seg_type seg = model /\
    currentMessages st' = next_messages st (c :: cs) /\
    content st'
    = latest_content response
        (latest_content (currentResponse st) (content st)) /\
    tokens st' = add_usage (tokens st) response /\
    iterationCount st' = S (iterationCount st).
Proof.
  intros Hcalls Hret.
  pose proof (turn_with_calls st c cs Hcalls) as T. cbv zeta in T.
  match type of T with
  | context [fold_left ?f ?l ?s] =>
      destruct (fold_record_settled l s)
        as (F1 & F2 & F3 & F4 & F5 & F6 & F7 & F8 & _);
      cbn [toolCalls timeSegments currentMessages toolResults
           currentResponse content tokens iterationCount] in F1, F2, F3,
        F4, F5, F6, F7, F8;
      rewrite <- app_assoc in F3; cbn [app] in F3;
      set (st3 := fold_left f l s) in *
  end.
  rewrite F3, Hret in T.
  destruct T as (st' & Ht & T1 & T2 & T3 & T4 & T5 & T6 & T7 & seg & T8 & T9).
  exists st', seg. rewrite T4, T5, T8, T6, T2, T3, F1, F2, F4, F6, F7.
  rewrite <- app_assoc. repeat split; assumption.
Qed.

(** The same turn, when the next completion fails. *)
Lemma turn_raise (st : LoopState) (c : ToolCall) (cs : list ToolCall)
    (e : Thrown) :
  response_tool_calls (currentResponse st) = Some (c :: cs) ->
  settles (create (next_messages st (c :: cs))) = Throws e ->
  exists t, turn' st = Raise e t.
Proof.
  intros Hcalls Hthrow.
  pose proof (turn_with_calls st c cs Hcalls) as T. cbv zeta in T.
  match type of T with
  | context [fold_left ?f ?l ?s] =>
      destruct (fold_record_settled l s) as (_ & _ & F3 & _);
      cbn [currentMessages] in F3;
      rewrite <- app_assoc in F3; cbn [app] in F3
  end.
  rewrite F3, Hthrow in T. eexists. exact T.
Qed.

(** A turn that leaves the loop changes nothing but [content]. *)
Lemma turn_break (st st' : LoopState) :
  turn' st = Break st' ->
  (response_tool_calls (currentResponse st) = None \/
   response_tool_calls (currentResponse st) = Some []) /\
  currentResponse st' = currentResponse st /\
  content st' = latest_content (currentResponse st) (content st) /\
  tokens st' = tokens st /\
  toolCalls st' = toolCalls st /\
  toolResults st' = toolResults st /\
  timeSegments st' = timeSegments st /\
  iterationCount st' = iterationCount st.
Proof.
  intros H.
  destruct (response_tool_calls (currentResponse st)) as [[|c cs]|] eqn:E.
  - unfold turn in H. rewrite E in H. injection H as <-. simpl. tauto.
  - pose proof (turn_with_calls st c cs E) as T. cbv zeta in T.
    destruct (settles (create _)) in T.
    + destruct T as (st'' & Ht & _). rewrite Ht in H. discriminate.
    + rewrite T in H. discriminate.
  - unfold turn in H. rewrite E in H. injection H as <-. simpl. tauto.
Qed.

(** A turn that continues found tool calls and got a completion. *)
Lemma turn_continue (st st' : LoopState) :
  turn' st = Continue st' ->
  exists c cs seg,
    response_tool_calls (currentResponse st) = Some (c :: cs) /\
    settles (create (next_messages st (c :: cs)))
    = Returns (currentResponse st') /\
    toolCalls st'
    = toolCalls st ++
      map (tool_call_record toISOString) (settled_of st (c :: cs)) /\
    toolResults st'
    = toolResults st ++
      map (fun s => output (result s))
        (filter (fun s => success (result s)) (settled_of st (c :: cs))) /\
    timeSegments st'
    = timeSegments st ++
      map tool_segment (settled_of st (c :: cs)) ++ [seg] /\
    seg_type seg = model /\
    currentMessages st' = next_messages st (c :: cs) /\
    content st'
    = latest_content (currentResponse st')
        (latest_content (currentResponse st) (content st)) /\
    tokens st' = add_usage (tokens st) (currentResponse st') /\
    iterationCount st' = S (iterationCount st).
Proof.
  intros H.
  destruct (response_tool_calls (currentResponse st)) as [[|c cs]|] eqn:E;
    try (unfold turn in H; rewrite E in H; discriminate).
  destruct (settles (create (next_messages st (c :: cs)))) as [r|e] eqn:Ec.
  - destruct (turn_step st c cs r E Ec) as (st'' & seg & Ht & Hr & T).
    rewrite Ht in H. injection H as <-. subst r.
    exists c, cs, seg. split; [reflexivity|]. split; [exact Ec|exact T].
  - destruct (turn_raise st c cs e E Ec) as (t & Ht).
    rewrite Ht in H. discriminate.
Qed.

(** Induction over the turns of the loop. *)
Lemma while_loop_invariant (I : LoopState -> Prop) :
  (forall st st', I st -> turn' st = Break st' -> I st') ->
  (forall st st',
      I st -> iterationCount st < MAX_TOOL_ITERATIONS ->
      turn' st = Continue st' -> I st') ->
  forall fuel st st', I st -> loop' fuel st = Break st' -> I st'.
Proof.
  intros Hbreak Hcont. induction fuel as [|fuel IH]; intros st st' HI H.
  - injection H as <-. exact HI.
  - simpl in H.
    destruct (Nat.ltb_spec (iterationCount st) MAX_TOOL_ITERATIONS) as [Hlt|_].
    + destruct (turn' st) as [s|s|e t] eqn:Et.
      * injection H as <-. now apply (Hbreak st).
      * apply (IH s); [now apply (Hcont st)|exact H].
      * discriminate.
    + injection H as <-. exact HI.
Qed.

(** The successful records carry exactly the outputs pushed to
    [toolResults]. *)
Lemma successful_records (ss : list Settled) :
  map rec_result
    (filter rec_success (map (tool_call_record toISOString) ss))
  = map (fun s => output (result s))
      (filter (fun s => success (result s)) ss).
Proof.
  induction ss as [|s ss IH]; [reflexivity|]. cbn [map filter].
  unfold tool_call_record at 1. cbn [rec_success].
  destruct (success (result s)) eqn:E; [|exact IH].
  cbn [map]. rewrite IH. f_equal.
  unfold tool_call_record, resultContent. cbn [rec_result]. now rewrite E.
Qed.

Lemma tool_segments_not_model (ss : list Settled) :
  filter is_model_segment (map tool_segment ss) = [].
Proof. induction ss as [|s ss IH]; [reflexivity|exact IH]. Qed.

(** [toolResults] holds the results of the successful entries of
    [toolCalls], in the same order. *)
Lemma results_match_calls (fuel : nat) (st st' : LoopState) :
  toolResults st = map rec_result (filter rec_success (toolCalls st)) ->
  loop' fuel st = Break st' ->
  toolResults st' = map rec_result (filter rec_success (toolCalls st')).
Proof.
  apply (while_loop_invariant
           (fun s => toolResults s
                     = map rec_result (filter rec_success (toolCalls s)))).
  - intros s s' HI Hb.
    destruct (turn_break _ _ Hb) as (_ & _ & _ & _ & Hc & Hr & _).
    now rewrite Hc, Hr.
  - intros s s' HI _ Hc.
    destruct (turn_continue _ _ Hc)
      as (c & cs & seg & _ & _ & H1 & H2 & _).
    rewrite H1, H2, filter_app, map_app, successful_records. now f_equal.
Qed.

(** The counter stays within the cap. *)
Lemma count_within_cap (fuel : nat) (st st' : LoopState) :
  iterationCount st <= MAX_TOOL_ITERATIONS ->
  loop' fuel st = Break st' ->
  iterationCount st' <= MAX_TOOL_ITERATIONS.
Proof.
  apply (while_loop_invariant
           (fun s => iterationCount s <= MAX_TOOL_ITERATIONS)).
  - intros s s' HI Hb.
    destruct (turn_break _ _ Hb) as (_ & _ & _ & _ & _ & _ & _ & Hn).
    now rewrite Hn.
  - intros s s' HI Hlt Hc. rewrite (turn_continue_count _ _ Hc). lia.
Qed.

(** One model segment for the first completion and one per turn
    completed. *)
Lemma model_segments_count (fuel : nat) (st st' : LoopState) :
  List.length (filter is_model_segment (timeSegments st))
  = iterationCount st + 1 ->
  loop' fuel st = Break st' ->
  List.length (filter is_model_segment (timeSegments st'))
  = iterationCount st' + 1.
Proof.
  apply (while_loop_invariant
           (fun s => List.length (filter is_model_segment (timeSegments s))
                     = iterationCount s + 1)).
  - intros s s' HI Hb.
    destruct (turn_break _ _ Hb) as (_ & _ & _ & _ & _ & _ & Hs & Hn).
    now rewrite Hs, Hn.
  - intros s s' HI _ Hc.
    destruct (turn_continue _ _ Hc)
      as (c & cs & seg & _ & _ & _ & _ & Hs & Hm & _ & _ & _ & Hn).
    rewrite Hs, Hn, !filter_app, tool_segments_not_model. cbn [app filter].
    unfold is_model_segment at 2. rewrite Hm.
    rewrite length_app, HI. simpl. lia.
Qed.

(** [content] is the text of the latest completion whenever that
    completion has a text. *)
Lemma content_is_latest (fuel : nat) (st st' : LoopState) :
  (forall c, nonempty (response_content (currentResponse st)) = Some c ->
             content st = c) ->
  loop' fuel st = Break st' ->
  forall c, nonempty (response_content (currentResponse st')) = Some c ->
            content st' = c.
Proof.
  apply (while_loop_invariant
           (fun s => forall c,
                nonempty (response_content (currentResponse s)) = Some c ->
                content s = c)).
  - intros s s' HI Hb c Hc.
    destruct (turn_break _ _ Hb) as (_ & Hr & Hk & _).
    rewrite Hk. rewrite Hr in Hc. unfold latest_content. now rewrite Hc.
  - intros s s' HI _ Ht c Hc.
    destruct (turn_continue _ _ Ht)
      as (c0 & cs & seg & _ & _ & _ & _ & _ & _ & _ & Hk & _).
    rewrite Hk. unfold latest_content at 1. now rewrite Hc.
Qed.

(** With a backend that always asks for tools, the loop takes every
    turn the cap allows and then stops. *)
Lemma loop_runs_to_cap (fuel : nat) (st : LoopState) :
  (forall messages, exists response c cs,
      settles (create messages) = Returns response /\
      response_tool_calls response = Some (c :: cs)) ->
  (exists c cs, response_tool_calls (currentResponse st) = Some (c :: cs)) ->
  iterationCount st + fuel = MAX_TOOL_ITERATIONS ->
  exists st', loop' fuel st = Break st' /\
              iterationCount st' = MAX_TOOL_ITERATIONS.
Proof.
  intros Halways. revert st.
  induction fuel as [|fuel IH]; intros st (c & cs & Hcalls) Hsum.
  - exists st. split; [reflexivity|lia].
  - cbn [while_loop].
    destruct (Nat.ltb_spec (iterationCount st) MAX_TOOL_ITERATIONS);
      [|lia].
    destruct (Halways (next_messages st (c :: cs)))
      as (response & c' & cs' & Hret & Hcalls').
    destruct (turn_step st c cs response Hcalls Hret)
      as (st' & seg & Ht & Hr & T).
    rewrite Ht. apply IH.
    + exists c', cs'. now rewrite Hr.
    + decompose [and] T. lia.
Qed.

Local Abbreviation run' :=
  (run_loop MAX_TOOL_ITERATIONS JSON_parse JSON_stringify toISOString
     prepareToolExecution executeTool create tools).
Local Abbreviation execute' :=
  (executeRequest MAX_TOOL_ITERATIONS JSON_parse JSON_stringify toISOString
     prepareToolExecution executeTool create tools).

(** A resolved request is the [return] statement on the state in which
    the loop was left. *)
Lemma resolved_from_loop (providerStartTime : Z)
    (allMessages : list Message) (r : ProviderResponse) :
  execute' providerStartTime allMessages = Resolved r ->
  exists response st,
    settles (create allMessages) = Returns response /\
    loop' MAX_TOOL_ITERATIONS
      (initial_state allMessages providerStartTime
         (latency (create allMessages)) response) = Break st /\
    run' providerStartTime allMessages = Break st /\
    r = respond toISOString providerStartTime
          (latency (create allMessages)) st.
Proof.
  unfold executeRequest, run_loop. intros H.
  destruct (settles (create allMessages)) as [response|e]; [|discriminate].
  exists response.
  destruct (loop' MAX_TOOL_ITERATIONS _) as [st|st|e t] eqn:E.
  - exists st. injection H as <-. repeat split.
  - now apply while_loop_stops in E.
  - discriminate.
Qed.

Lemma invoke_fields (iteration : nat) (t0 : Z) (tc : ToolCall)
    (s : Settled) :
  invoke' iteration t0 tc = Some s ->
  toolCall s = tc /\ toolName s = tc_name tc /\ startTime s = t0.
Proof.
  unfold invoke. intros H.
  destruct (JSON_parse (tc_arguments tc)) as [toolArgs|e].
  - destruct (find _ tools) as [t|]; [|discriminate].
    destruct (prepareToolExecution t toolArgs) as [[params ep]|e].
    + destruct (settles (executeTool _ _ _)); injection H as <-;
        repeat split.
    + injection H as <-. repeat split.
  - injection H as <-. repeat split.
Qed.

Lemma in_somes_map (A B : Type) (f : A -> option B) (l : list A) (a : A)
    (b : B) :
  In a l -> f a = Some b -> In b (somes (map f l)).
Proof.
  intros Hin Hf. induction l as [|x l IH]; [contradiction|].
  cbn [map somes]. destruct Hin as [->|Hin].
  - rewrite Hf. now left.
  - destruct (f x); [right|]; now apply IH.
Qed.

Lemma filter_none (A : Type) (f : A -> bool) (l : list A) :
  (forall a, In a l -> f a = false) -> filter f l = [].
Proof.
  induction l as [|x l IH]; intros H; [reflexivity|]. cbn [filter].
  rewrite (H x) by now left. apply IH. intros a Ha. apply H. now right.
Qed.

(** The settled values keep the order of the calls they come from. *)
Lemma settled_in_issue_order (iteration : nat) (t0 : Z)
    (calls : list ToolCall) :
  map toolCall (somes (map (invoke' iteration t0) calls))
  = filter
      (fun tc => match invoke' iteration t0 tc with
                 | Some _ => true
                 | None => false
                 end) calls.
Proof.
  induction calls as [|tc calls IH]; [reflexivity|]. cbn [map somes filter].
  destruct (invoke' iteration t0 tc) as [s|] eqn:E; [|exact IH].
  cbn [map]. rewrite IH. f_equal. now apply (invoke_fields _ _ _ _ E).
Qed.

Local Abbreviation states' :=
  (loop_states MAX_TOOL_ITERATIONS JSON_parse JSON_stringify toISOString
     prepareToolExecution executeTool create tools).

Lemma latest_content_known (r : ChatCompletion) (text : string) :
  latest_content r text
  = match response_content r with
    | Some c => if c =? "" then text else c
    | None => text
    end.
Proof.
  unfold latest_content, nonempty.
  destruct (response_content r) as [c|]; [|reflexivity].
  now destruct (c =? "").
Qed.

Lemma latest_content_twice (r : ChatCompletion) (text : string) :
  latest_content r (latest_content r text) = latest_content r text.
Proof.
  unfold latest_content. now destruct (nonempty (response_content r)).
Qed.

Lemma loop_states_head (fuel : nat) (st : LoopState) :
  states' fuel st = st :: tl (states' fuel st).
Proof. now destruct fuel. Qed.

(** When the loop is left, [content] is the text of the latest completion
    received that has one, and the counter tells how many completions
    were received after the first. *)
Lemma loop_content_history (fuel : nat) (st st' : LoopState) :
  content st = latest_content (currentResponse st) (content st) ->
  loop' fuel st = Break st' ->
  content st'
  = latest_known_content (map currentResponse (tl (states' fuel st)))
      (content st) /\
  iterationCount st'
  = iterationCount st + List.length (tl (states' fuel st)).
Proof.
  revert st; induction fuel as [|fuel IH]; intros st Hc H.
  - injection H as <-. cbn. split; [reflexivity|lia].
  - cbn [while_loop] in H. cbn [loop_states tl].
    destruct (iterationCount st <? MAX_TOOL_ITERATIONS)%nat.
    + destruct (turn' st) as [s|s|e t] eqn:Et.
      * injection H as <-.
        destruct (turn_break _ _ Et) as (_ & _ & Hk & _ & _ & _ & _ & Hn).
        rewrite Hk, Hn, <- Hc. cbn. split; [reflexivity|lia].
      * destruct (turn_continue _ _ Et)
          as (c & cs & seg & _ & _ & _ & _ & _ & _ & _ & Hk & _ & Hn).
        rewrite <- Hc in Hk.
        destruct (IH s) as (I1 & I2); [|exact H|].
        { rewrite Hk at 2. now rewrite latest_content_twice. }
        rewrite I1, I2, Hn.
        destruct fuel as [|fuel']; cbn [loop_states tl map List.length];
          (split; [|lia]); cbn [latest_known_content];
          now rewrite <- latest_content_known, <- Hk.
      * discriminate.
    + injection H as <-. cbn. split; [reflexivity|lia].
Qed.

(** C5, as the code has it: [iterations] counts the completions
    received, the first one included, so it is one more than the number
    of turns of the tool loop and never exceeds
    [MAX_TOOL_ITERATIONS + 1]; the content returned is the text of the
    latest completion received that has one (the empty string when none
    has).  Reaching the cap is not an error: with a backend that asks for
    tools in every completion the loop takes exactly
    [MAX_TOOL_ITERATIONS] turns, the request resolves and [iterations] is
    [MAX_TOOL_ITERATIONS + 1] (4 for a cap of 3). *)
Theorem C5_iterations_count_completions (providerStartTime : Z)
    (allMessages : list Message) :
  (forall r,
      execute' providerStartTime allMessages = Resolved r ->
      iterations (timing r) <= MAX_TOOL_ITERATIONS + 1 /\
      List.length (filter is_model_segment (t_timeSegments (timing r)))
      = iterations (timing r) /\
      exists first,
        settles (create allMessages) = Returns first /\
        List.length
          (completions MAX_TOOL_ITERATIONS JSON_parse JSON_stringify
             toISOString prepareToolExecution executeTool create tools
             providerStartTime allMessages first)
        = iterations (timing r) /\
        r_content r
        = latest_known_content
            (completions MAX_TOOL_ITERATIONS JSON_parse JSON_stringify
               toISOString prepareToolExecution executeTool create tools
               providerStartTime allMessages first) "") /\
  ((forall messages, exists response c cs,
       settles (create messages) = Returns response /\
       response_tool_calls response = Some (c :: cs)) ->
   exists st,
     run' providerStartTime allMessages = Break st /\
     iterationCount st = MAX_TOOL_ITERATIONS /\
     execute' providerStartTime allMessages
     = Resolved (respond toISOString providerStartTime
                   (latency (create allMessages)) st) /\
     iterations
       (timing (respond toISOString providerStartTime
                  (latency (create allMessages)) st))
     = MAX_TOOL_ITERATIONS + 1 /\
     exists first,
       settles (create allMessages) = Returns first /\
       List.length
         (completions MAX_TOOL_ITERATIONS JSON_parse JSON_stringify
            toISOString prepareToolExecution executeTool create tools
            providerStartTime allMessages first)
       = MAX_TOOL_ITERATIONS + 1 /\
       r_content (respond toISOString providerStartTime
                    (latency (create allMessages)) st)
       = latest_known_content
           (completions MAX_TOOL_ITERATIONS JSON_parse JSON_stringify
              toISOString prepareToolExecution executeTool create tools
              providerStartTime allMessages first) "").
Proof.
  assert (P : forall r,
             execute' providerStartTime allMessages = Resolved r ->
             iterations (timing r) <= MAX_TOOL_ITERATIONS + 1 /\
             List.length
               (filter is_model_segment (t_timeSegments (timing r)))
             = iterations (timing r) /\
             exists first,
               settles (create allMessages) = Returns first /\
               List.length
                 (completions MAX_TOOL_ITERATIONS JSON_parse JSON_stringify
                    toISOString prepareToolExecution executeTool create tools
                    providerStartTime allMessages first)
               = iterations (timing r) /\
               r_content r
               = latest_known_content
                   (completions MAX_TOOL_ITERATIONS JSON_parse JSON_stringify
                      toISOString prepareToolExecution executeTool create
                      tools providerStartTime allMessages first) "").
  { intros r H.
    destruct (resolved_from_loop _ _ _ H) as (response & st & E0 & L & _ & ->).
    cbn [respond timing iterations t_timeSegments r_content].
    split; [|split].
    - apply count_within_cap in L; [lia|simpl; lia].
    - now apply model_segments_count in L.
    - exists response. split; [exact E0|].
      unfold completions.
      set (init := initial_state allMessages providerStartTime
                     (latency (create allMessages)) response) in *.
      assert (Hi : content init
                   = latest_content (currentResponse init) (content init)).
      { cbn. unfold latest_content.
        now destruct (nonempty (response_content response)). }
      destruct (loop_content_history _ _ _ Hi L) as (Hk & Hn).
      rewrite (loop_states_head MAX_TOOL_ITERATIONS init).
      cbn [map List.length latest_known_content]. rewrite Hk, Hn.
      rewrite length_map. split; [cbn; lia|]. f_equal.
      cbn. now rewrite <- latest_content_known. }
  split; [exact P|].
  intros Halways.
  destruct (Halways allMessages) as (response & c & cs & Hret & Hcalls).
  destruct (loop_runs_to_cap MAX_TOOL_ITERATIONS
              (initial_state allMessages providerStartTime
                 (latency (create allMessages)) response) Halways)
    as (st & L & Hn); [now exists c, cs|reflexivity|].
  assert (Hx : execute' providerStartTime allMessages
               = Resolved (respond toISOString providerStartTime
                             (latency (create allMessages)) st))
    by (unfold executeRequest, run_loop; now rewrite Hret, L).
  exists st. split; [unfold run_loop; now rewrite Hret, L|].
  split; [exact Hn|]. split; [exact Hx|].
  split; [cbn; lia|].
  destruct (P _ Hx) as (_ & _ & first & Hf & Hlen & Hc).
  exists first. split; [exact Hf|]. split; [|exact Hc].
  rewrite Hlen. cbn. lia.
Qed.

Local Abbreviation recorded' := (recorded JSON_parse tools).

Lemma invoke_recorded (iteration : nat) (t0 : Z) (tc : ToolCall) :
  match invoke' iteration t0 tc with Some _ => true | None => false end
  = recorded' tc.
Proof.
  unfold invoke, recorded.
  destruct (JSON_parse (tc_arguments tc)); [|reflexivity].
  destruct (find _ tools) as [t|]; [|reflexivity].
  destruct (prepareToolExecution t _) as [[params ep]|e]; [|reflexivity].
  now destruct (settles (executeTool _ _ _)).
Qed.

(** The settled values of a batch are those of the calls that are not
    skipped, in the order of the calls. *)
Lemma settled_names (iteration : nat) (t0 : Z) (calls : list ToolCall) :
  map toolName (somes (map (invoke' iteration t0) calls))
  = map tc_name (filter recorded' calls).
Proof.
  induction calls as [|tc calls IH]; [reflexivity|]. cbn [map somes filter].
  rewrite <- (invoke_recorded iteration t0 tc).
  destruct (invoke' iteration t0 tc) as [s|] eqn:E; [|exact IH].
  cbn [map]. rewrite IH. f_equal. now apply (invoke_fields _ _ _ _ E).
Qed.

(** [Promise.allSettled] resolves when the last promise has settled: not
    before the batch started, not before any promise settled, and at one
    of these times. *)
Lemma joined_at_spec (settled : list (option Settled)) (t0 : Z) :
  (t0 <= joined_at t0 settled)%Z /\
  Forall (fun s => (endTime s <= joined_at t0 settled)%Z) (somes settled) /\
  (joined_at t0 settled = t0 \/
   In (joined_at t0 settled) (map endTime (somes settled))).
Proof.
  unfold joined_at. revert t0.
  induction settled as [|[s|] settled IH]; intros t0;
    cbn [fold_left somes map].
  - split; [lia|]. split; [constructor|now left].
  - destruct (IH (Z.max t0 (endTime s))) as (H1 & H2 & H3).
    split; [lia|]. split; [constructor; [lia|exact H2]|].
    destruct H3 as [H3|H3]; [|right; right; exact H3].
    rewrite H3.
    destruct (Z.max_spec t0 (endTime s)) as [[_ ->]|[_ ->]];
      [right; left; reflexivity|left; reflexivity].
  - apply IH.
Qed.

(** An invocation that reaches [executeTool]. *)
Lemma invoke_executed (iteration : nat) (t0 : Z) (tc : ToolCall)
    (toolArgs : JsValue) (t : ToolConfig) (params executionParams : JsValue) :
  JSON_parse (tc_arguments tc) = Returns toolArgs ->
  find (fun t => id t =? tc_name tc) tools = Some t ->
  prepareToolExecution t toolArgs = Returns (params, executionParams) ->
  exists s,
    invoke' iteration t0 tc = Some s /\
    toolCall s = tc /\ toolName s = tc_name tc /\ startTime s = t0 /\
    endTime s
    = (t0 + latency (executeTool (iteration, tc_id tc) (tc_name tc)
                       executionParams))%Z /\
    duration s
    = latency (executeTool (iteration, tc_id tc) (tc_name tc)
                 executionParams) /\
    match settles (executeTool (iteration, tc_id tc) (tc_name tc)
                     executionParams) with
    | Returns res =>
        success (result s) = success res /\
        toolParams s = params /\
        resultContent s
        = (if success res then output res
           else error_payload (failure_message res) (tc_name tc))
    | Throws e =>
        success (result s) = false /\
        toolParams s = JObj [] /\
        resultContent s = error_payload (thrown_message e) (tc_name tc)
    end.
Proof.
  intros Hparse Hfind Hprep. unfold invoke. rewrite Hparse, Hfind, Hprep.
  destruct (settles (executeTool _ _ _)) as [res|e]; eexists;
    (split; [reflexivity|]);
    cbn [toolCall toolName startTime endTime duration result toolParams
         failed success];
    (repeat split; try lia); unfold resultContent;
    cbn [result toolName failed success error output].
  - destruct (success res); [reflexivity|].
    unfold error_payload, failure_message, nonempty.
    destruct (error res) as [m|]; [|reflexivity]. now destruct (m =? "").
  - unfold error_payload, thrown_message, tool_error_message, nonempty.
    destruct e as [m|text]; [|reflexivity]. now destruct (m =? "").
Qed.

(** An invocation that throws before it reaches [executeTool]. *)
Lemma invoke_thrown (iteration : nat) (t0 : Z) (tc : ToolCall)
    (e : Thrown) :
  JSON_parse (tc_arguments tc) = Throws e \/
  (exists toolArgs t,
      JSON_parse (tc_arguments tc) = Returns toolArgs /\
      find (fun t => id t =? tc_name tc) tools = Some t /\
      prepareToolExecution t toolArgs = Throws e) ->
  exists s,
    invoke' iteration t0 tc = Some s /\
    toolCall s = tc /\ toolName s = tc_name tc /\
    success (result s) = false /\
    toolParams s = JObj [] /\
    resultContent s = error_payload (thrown_message e) (tc_name tc).
Proof.
  assert (K : resultContent (failed tc t0 t0 e)
              = error_payload (thrown_message e) (tc_name tc)).
  { unfold resultContent.
    cbn [result toolName failed success error output].
    unfold error_payload, thrown_message, tool_error_message, nonempty.
    destruct e as [m|text]; [|reflexivity]. now destruct (m =? ""). }
  intros [Hparse|(toolArgs & t & Hparse & Hfind & Hprep)]; unfold invoke.
  - rewrite Hparse. eexists. split; [reflexivity|]. now repeat split.
  - rewrite Hparse, Hfind, Hprep. eexists. split; [reflexivity|].
    now repeat split.
Qed.

(** A turn on a response with tool calls, with its clock: the next
    completion is requested when the batch has been joined. *)
Lemma turn_clock (st : LoopState) (c : ToolCall) (cs : list ToolCall) :
  response_tool_calls (currentResponse st) = Some (c :: cs) ->
  let joined :=
    joined_at (now st) (map (invoke' (iterationCount st) (now st)) (c :: cs)) in
  let call := create (next_messages st (c :: cs)) in
  match settles call with
  | Returns response =>
      exists st' seg,
        turn' st = Continue st' /\
        currentResponse st' = response /\
        toolCalls st'
        = toolCalls st ++
          map (tool_call_record toISOString) (settled_of st (c :: cs)) /\
        timeSegments st'
        = timeSegments st ++
          map tool_segment (settled_of st (c :: cs)) ++ [seg] /\
        seg_type seg = model /\
        seg_startTime seg = joined /\
        seg_endTime seg = (joined + latency call)%Z /\
        currentMessages st' = next_messages st (c :: cs) /\
        toolsTime st' = (toolsTime st + (joined - now st))%Z /\
        iterationCount st' = S (iterationCount st)
  | Throws e => turn' st = Raise e (joined + latency call)%Z
  end.
Proof.
  intros Hcalls joined call. unfold turn. rewrite Hcalls. cbv zeta.
  match goal with
  | |- context [fold_left ?f ?l ?s] =>
      destruct (fold_record_settled l s)
        as (F1 & F2 & F3 & _ & _ & _ & _ & F8 & _ & F10 & F11);
      cbn [toolCalls timeSegments currentMessages iterationCount toolsTime
           now] in F1, F2, F3, F8, F10, F11;
      rewrite <- app_assoc in F3; cbn [app] in F3;
      set (st3 := fold_left f l s) in *
  end.
  rewrite F3, F11. fold joined. fold call.
  destruct (settles call) as [response|e]; [|reflexivity].
  eexists. eexists. split; [reflexivity|].
  cbn [currentResponse toolCalls timeSegments currentMessages toolsTime
       iterationCount seg_type seg_startTime seg_endTime].
  rewrite F1, F2, F8, F10. rewrite <- app_assoc.
  repeat split.
Qed.


(** C7, as the code has it: [toolResults] holds the results of the
    successful records of [toolCalls] and nothing else; and what a turn
    appends to [toolCalls], [toolResults] and [timeSegments] follows the
    order in which the calls were issued (their order in [tool_calls]),
    whatever the order in which they completed. *)
Theorem C7_appended_in_issue_order (providerStartTime : Z)
    (allMessages : list Message) :
  (forall r,
      execute' providerStartTime allMessages = Resolved r ->
      exists st,
        run' providerStartTime allMessages = Break st /\
        r_toolResults r
        = match toolResults st with [] => None | l => Some l end /\
        toolResults st
        = map rec_result (filter rec_success (toolCalls st))) /\
  (forall st st',
      turn' st = Continue st' ->
      exists calls seg,
        response_tool_calls (currentResponse st) = Some calls /\
        map toolCall (settled_of st calls)
        = filter
            (fun tc =>
               match invoke' (iterationCount st) (now st) tc with
               | Some _ => true
               | None => false
               end) calls /\
        toolCalls st'
        = toolCalls st ++
          map (tool_call_record toISOString) (settled_of st calls) /\
        toolResults st'
        = toolResults st ++
          map (fun s => output (result s))
            (filter (fun s => success (result s)) (settled_of st calls)) /\
        timeSegments st'
        = timeSegments st ++ map tool_segment (settled_of st calls) ++ [seg] /\
        seg_type seg = model).
Proof.
  split.
  - intros r H.
    destruct (resolved_from_loop _ _ _ H) as (response & st & _ & L & R & ->).
    exists st. repeat split; [exact R|].
    now apply results_match_calls in L.
  - intros st st' Ht.
    destruct (turn_continue _ _ Ht)
      as (c & cs & seg & Hc & _ & H1 & H2 & H3 & H4 & _).
    exists (c :: cs), seg. repeat split; try assumption.
    apply settled_in_issue_order.
Qed.

(** C8, as the code has it: an invocation whose arguments are JSON and
    whose tool is not among [request.tools] resolves to [null]; the loop
    over the settled promises passes over it, so the batch leaves the
    same records, segments and messages as the batch without it. *)
Theorem C8_absent_tool_skipped (iteration : nat) (t0 : Z) (tc : ToolCall)
    (toolArgs : JsValue) :
  (forall t, In t tools -> id t <> tc_name tc) ->
  JSON_parse (tc_arguments tc) = Returns toolArgs ->
  invoke' iteration t0 tc = None /\
  (forall st, record' st (invoke' iteration t0 tc) = st) /\
  (forall front back st,
      fold_left record' (map (invoke' iteration t0) (front ++ tc :: back)) st
      = fold_left record' (map (invoke' iteration t0) (front ++ back)) st).
Proof.
  intros Habsent Hparse.
  assert (Hnone : invoke' iteration t0 tc = None).
  { unfold invoke. rewrite Hparse.
    destruct (find (fun t => id t =? tc_name tc) tools) as [t|] eqn:E;
      [|reflexivity].
    apply find_some in E as [Hin Hid]. apply String.eqb_eq in Hid.
    now destruct (Habsent t Hin). }
  split; [exact Hnone|]. split.
  - intros st. now rewrite Hnone.
  - intros front back st.
    rewrite !map_app, !fold_left_app. cbn [map fold_left].
    now rewrite Hnone.
Qed.

(** C10: the [toolCalls] field of a resolved request is omitted when the
    loop recorded no invocation and is the non-empty list of records
    otherwise; the [toolResults] field is omitted when no recorded
    invocation succeeded; neither field is ever an empty list. *)
Theorem C10_empty_lists_omitted (providerStartTime : Z)
    (allMessages : list Message) (r : ProviderResponse) :
  execute' providerStartTime allMessages = Resolved r ->
  exists st,
    run' providerStartTime allMessages = Break st /\
    (toolCalls st = [] -> r_toolCalls r = None) /\
    (toolCalls st <> [] -> r_toolCalls r = Some (toolCalls st)) /\
    ((forall record, In record (toolCalls st) -> rec_success record = false) ->
     r_toolResults r = None) /\
    r_toolCalls r <> Some [] /\
    r_toolResults r <> Some [].
Proof.
  intros H.
  destruct (resolved_from_loop _ _ _ H) as (response & st & _ & L & R & ->).
  exists st. split; [exact R|].
  apply results_match_calls in L; [|reflexivity].
  cbn [respond r_toolCalls r_toolResults]. rewrite L.
  split; [|split; [|split; [|split]]].
  - now intros ->.
  - destruct (toolCalls st); [now intros []|reflexivity].
  - intros Hnone. now rewrite (filter_none _ _ _ Hnone).
  - destruct (toolCalls st); discriminate.
  - destruct (map rec_result _); discriminate.
Qed.

End LoopFacts.

(** *** The tool loop on concrete backends *)

Local Abbreviation run_batch max create tools :=
  (executeRequest max JsonRef.JSON_parse JSON_stringify toISOString
     Examples.prepareToolExecution Examples.executeTool create tools 0
     Examples.user_hello).

(** The tool scenario of the specification: of two calls one succeeds
    and one throws; both are recorded, both get a tool message, and the
    second completion ends the request. *)
Example one_tool_of_two_throws :
  exists r,
    run_batch 3
      (Examples.create_once
         [Examples.a_call "c1" "slow" "{}"; Examples.a_call "c2" "boom" "{}"])
      [Examples.a_tool "slow"; Examples.a_tool "boom"] = Resolved r /\
    option_map (map (fun c => (rec_name c, rec_success c))) (r_toolCalls r)
    = Some [("slow", true); ("boom", false)] /\
    r_toolResults r = Some [JStr "slow"] /\
    r_content r = "done" /\
    iterations (timing r) = 2.
Proof. eexists. split; [vm_compute; reflexivity|]. repeat split. Qed.

Lemma C5_iterations_count_completions_witness :
  match run_batch 3 Examples.create_always_tools
          [Examples.a_tool "search"] with
  | Resolved r => iterations (timing r) <= 3 + 1
  | Rejected _ => False
  end /\
  match run_batch 3 MoreExamples.create_silent_after_first
          [Examples.a_tool "search"] with
  | Resolved r => r_content r = "thinking"
  | Rejected _ => False
  end /\
  exists st,
    run_loop 3 JsonRef.JSON_parse JSON_stringify toISOString
      Examples.prepareToolExecution Examples.executeTool
      Examples.create_always_tools [Examples.a_tool "search"] 0
      Examples.user_hello = Break st /\
    iterationCount st = 3.
Proof.
  split; [|split].
  - destruct (run_batch 3 Examples.create_always_tools
                [Examples.a_tool "search"]) as [r|e] eqn:E.
    + exact (proj1
               (proj1 (C5_iterations_count_completions 3 JsonRef.JSON_parse
                         JSON_stringify toISOString
                         Examples.prepareToolExecution Examples.executeTool
                         Examples.create_always_tools
                         [Examples.a_tool "search"] 0 Examples.user_hello)
                  r E)).
    + vm_compute in E. discriminate.
  - destruct (run_batch 3 MoreExamples.create_silent_after_first
                [Examples.a_tool "search"]) as [r|e] eqn:E.
    + destruct (proj2
                  (proj2
                     (proj1 (C5_iterations_count_completions 3
                               JsonRef.JSON_parse JSON_stringify toISOString
                               Examples.prepareToolExecution
                               Examples.executeTool
                               MoreExamples.create_silent_after_first
                               [Examples.a_tool "search"] 0
                               Examples.user_hello)
                        r E)))
        as (first & Hf & _ & Hc).
      vm_compute in Hf. injection Hf as <-. rewrite Hc.
      vm_compute. reflexivity.
    + vm_compute in E. discriminate.
  - destruct (proj2 (C5_iterations_count_completions 3 JsonRef.JSON_parse
                       JSON_stringify toISOString Examples.prepareToolExecution
                       Examples.executeTool Examples.create_always_tools
                       [Examples.a_tool "search"] 0 Examples.user_hello))
      as (st & R & N & _).
    + intros messages. eexists _, _, _. split; reflexivity.
    + exists st. split; [exact R|exact N].
Defined.

(** C5 as stated fails: with a cap of 3 and a backend that always asks
    for tools, the request resolves with [iterations] equal to 4. *)
Lemma C5_cap_of_three_reports_four :
  exists r,
    run_batch 3 Examples.create_always_tools
      [Examples.a_tool "search"] = Resolved r /\
    iterations (timing r) = 4 /\
    ~ iterations (timing r) <= 3.
Proof.
  eexists. split; [vm_compute; reflexivity|].
  split; [reflexivity|]. cbn. lia.
Qed.


Lemma C7_appended_in_issue_order_witness :
  exists st',
    turn JsonRef.JSON_parse JSON_stringify toISOString
      Examples.prepareToolExecution Examples.executeTool
      (Examples.create_once
         [Examples.a_call "c1" "slow" "{}"; Examples.a_call "c2" "fast" "{}"])
      [Examples.a_tool "slow"; Examples.a_tool "fast"]
      (initial_state Examples.user_hello 0 10
         (Examples.a_completion None
            (Some [Examples.a_call "c1" "slow" "{}";
                   Examples.a_call "c2" "fast" "{}"])))
    = Continue st' /\
    map rec_name (toolCalls st') = ["slow"; "fast"].
Proof.
  destruct
    (turn JsonRef.JSON_parse JSON_stringify toISOString
       Examples.prepareToolExecution Examples.executeTool
       (Examples.create_once
          [Examples.a_call "c1" "slow" "{}"; Examples.a_call "c2" "fast" "{}"])
       [Examples.a_tool "slow"; Examples.a_tool "fast"]
       (initial_state Examples.user_hello 0 10
          (Examples.a_completion None
             (Some [Examples.a_call "c1" "slow" "{}";
                    Examples.a_call "c2" "fast" "{}"]))))
    as [s|st'|e t] eqn:E;
    [vm_compute in E; discriminate| |vm_compute in E; discriminate].
  exists st'. split; [reflexivity|].
  destruct (proj2
              (C7_appended_in_issue_order 3 JsonRef.JSON_parse JSON_stringify
                 toISOString Examples.prepareToolExecution
                 Examples.executeTool _ _ 0 Examples.user_hello)
              _ _ E)
    as (calls & seg & Hc & _ & Htc & _).
  rewrite Htc. vm_compute in Hc. injection Hc as <-. reflexivity.
Defined.

(** C7 as stated fails: [fast] completes 30 ms before [slow], and yet its
    result, its record and its segment come after those of [slow], which
    was issued first. *)
Lemma C7_slow_call_listed_first :
  exists r,
    run_batch 3
      (Examples.create_once
         [Examples.a_call "c1" "slow" "{}"; Examples.a_call "c2" "fast" "{}"])
      [Examples.a_tool "slow"; Examples.a_tool "fast"] = Resolved r /\
    r_toolResults r = Some [JStr "slow"; JStr "fast"] /\
    option_map (map rec_name) (r_toolCalls r) = Some ["slow"; "fast"] /\
    map (fun s => (seg_name s, seg_endTime s))
      (filter is_tool_segment (t_timeSegments (timing r)))
    = [("slow", 60%Z); ("fast", 30%Z)] /\
    ascending
      (map seg_endTime (filter is_tool_segment (t_timeSegments (timing r))))
    = false.
Proof.
  eexists. split; [vm_compute; reflexivity|]. repeat split.
Qed.

Lemma C8_absent_tool_skipped_witness :
  invoke JsonRef.JSON_parse Examples.prepareToolExecution
    Examples.executeTool [Examples.a_tool "search"] 0 10
    (Examples.a_call "c4" "ghost" "{}") = None.
Proof.
  apply (C8_absent_tool_skipped JsonRef.JSON_parse JSON_stringify toISOString
           Examples.prepareToolExecution Examples.executeTool
           [Examples.a_tool "search"] 0 10
           (Examples.a_call "c4" "ghost" "{}") (JObj [])).
  - intros t [<-|[]]. vm_compute. discriminate.
  - reflexivity.
Defined.

(** C8 as stated fails: a call to a tool that the request does not offer
    is recorded, as a failed call with a segment and a tool message, when
    its arguments are not JSON. *)
Lemma C8_absent_tool_with_bad_arguments_recorded :
  (forall t, In t [Examples.a_tool "search"] -> id t <> "ghost") /\
  exists r,
    run_batch 3
      (Examples.create_once [Examples.a_call "c5" "ghost" "not-json"])
      [Examples.a_tool "search"] = Resolved r /\
    option_map (map (fun c => (rec_name c, rec_success c))) (r_toolCalls r)
    = Some [("ghost", false)] /\
    map seg_name (filter is_tool_segment (t_timeSegments (timing r)))
    = ["ghost"].
Proof.
  split.
  - intros t [<-|[]]. vm_compute. discriminate.
  - eexists. split; [vm_compute; reflexivity|]. split; reflexivity.
Qed.

Lemma C10_empty_lists_omitted_witness :
  exists r,
    run_batch 3 (Examples.create_once []) [] = Resolved r /\
    r_toolCalls r = None /\
    r_toolResults r <> Some [].
Proof.
  destruct (run_batch 3 (Examples.create_once []) []) as [r|e] eqn:E;
    [|vm_compute in E; discriminate].
  exists r. split; [reflexivity|].
  destruct (C10_empty_lists_omitted 3 JsonRef.JSON_parse JSON_stringify
              toISOString Examples.prepareToolExecution Examples.executeTool
              (Examples.create_once []) [] 0 Examples.user_hello r E)
    as (st & R & H1 & _ & _ & _ & H5).
  split; [|exact H5].
  apply H1. vm_compute in R. injection R as <-. reflexivity.
Defined.

(** ** Token counters *)

(** A turn of the batch loop adds the usage of the new completion to the
    running totals, so the counters do not decrease when the backend
    reports no negative usage. *)
Lemma batch_tokens_accumulate (t : Tokens) (r : ChatCompletion) :
  (forall u, usage r = Some u -> usage_nonneg u) ->
  tokens_le t (add_usage t r).
Proof.
  unfold add_usage, tokens_le, usage_nonneg. intros H.
  destruct (usage r) as [u|]; [|lia].
  specialize (H u eq_refl). simpl. lia.
Qed.

(** Every update of the streaming result overwrites the three counters
    with the fields of the usage object handed to the callback. *)
Lemma streaming_last_write_wins (out : StreamingOutput) (content : string)
    (u : Usage) :
  so_tokens (onUpdate out content u)
  = {| st_input := prompt_tokens u;
       st_output := completion_tokens u;
       st_total := total_tokens u |}.
Proof. reflexivity. Qed.

(** The counters after each update are the fields of the usage handed
    to that update. *)
Lemma outputs_tokens (ups : list (string * Usage)) (out : StreamingOutput) :
  map so_tokens (tl (outputs out ups))
  = map (fun p => {| st_input := prompt_tokens (snd p);
                     st_output := completion_tokens (snd p);
                     st_total := total_tokens (snd p) |}) ups.
Proof.
  revert out; induction ups as [|[c u] ups IH]; intros out; [reflexivity|].
  cbn [outputs tl map snd]. rewrite <- (IH (onUpdate out c u)).
  now destruct ups as [|[c' u'] ups].
Qed.

(** As long as no chunk has carried usage, the callback is handed the
    usage object it started from. *)
Lemma for_chunks_without_usage (l : list ChatCompletionChunk) (acc : string)
    (u : Usage) :
  Forall (fun chunk => chunk_usage chunk = None) l ->
  Forall (fun p => snd p = u) (fst (for_chunks acc u l)).
Proof.
  intros H. revert acc. induction H as [|chunk l Hc _ IH]; intros acc.
  - constructor.
  - cbn [for_chunks]. rewrite Hc.
    specialize (IH (acc ++ match nonempty (delta chunk) with
                           | Some t => t
                           | None => ""
                           end)%string).
    destruct (for_chunks _ u l) as [ups ds]. constructor; [reflexivity|].
    exact IH.
Qed.

(** On a stream whose chunks carry no usage, every update leaves the
    three counters undefined. *)
Lemma counters_undefined_without_usage (l : list ChatCompletionChunk)
    (e : Outcome unit) :
  Forall (fun chunk => chunk_usage chunk = None) l ->
  Forall (fun t => t = {| st_input := None;
                          st_output := None;
                          st_total := None |})
    (map so_tokens
       (tl (streaming_outputs {| chunks := l; chunks_end := e |}))).
Proof.
  intros H. unfold streaming_outputs, createReadableStreamFromLMStudioStream.
  cbn [chunks chunks_end].
  pose proof (for_chunks_without_usage l "" no_usage H) as F.
  destruct (for_chunks "" no_usage l) as [ups ds]. cbn [updates fst] in *.
  rewrite outputs_tokens. apply Forall_map.
  eapply Forall_impl; [|exact F]. intros p ->. reflexivity.
Qed.

(** C9 fails on the streaming path: a chunk that arrives before the
    backend has reported any usage makes the callback overwrite the three
    counters, which start at 0, with the fields of the empty usage object,
    that is with [undefined]; they hold integers again only once a chunk
    with usage has arrived. *)
Theorem C9_counters_undefined_before_usage :
  map so_tokens
    (streaming_outputs
       {| chunks := [{| delta := Some "Hi"; chunk_usage := None |};
                     {| delta := None;
                        chunk_usage :=
                          Some {| prompt_tokens := Some 5%Z;
                                  completion_tokens := Some 2%Z;
                                  total_tokens := Some 7%Z |} |}];
          chunks_end := Returns tt |})
  = [{| st_input := Some 0%Z; st_output := Some 0%Z; st_total := Some 0%Z |};
     {| st_input := None; st_output := None; st_total := None |};
     {| st_input := Some 5%Z; st_output := Some 2%Z; st_total := Some 7%Z |}].
Proof. reflexivity. Qed.

(* ================================================================== *)
(** * Further results *)

(** ** The stream transformer: framing *)

Lemma append_assoc_s (a b c : string) :
  ((a ++ b) ++ c)%string = (a ++ (b ++ c))%string.
Proof. induction a as [|x a IH]; simpl; [reflexivity|now rewrite IH]. Qed.

Lemma append_empty_r (a : string) : (a ++ "")%string = a.
Proof. induction a as [|x a IH]; simpl; [reflexivity|now rewrite IH]. Qed.

(** No line of a split text holds a line feed. *)
Lemma split_lines_no_newline (s : string) :
  Forall (fun l => has_newline l = false) (split_lines s).
Proof.
  induction s as [|c s IH]; simpl; [repeat constructor|].
  destruct (Ascii.eqb c newline) eqn:E; [now constructor|].
  destruct (split_lines s) as [|l ls]; [repeat constructor; simpl; now rewrite E|].
  inversion IH as [|? ? Hl Hls]; subst. constructor; [|exact Hls].
  simpl. now rewrite E, Hl.
Qed.

(** Splitting loses nothing: the complete lines with their line feeds,
    followed by the last piece, are the text. *)
Lemma split_lines_unlines (s : string) :
  (unlines (removelast (split_lines s)) ++ last (split_lines s) "")%string = s.
Proof.
  induction s as [|c s IH]; [reflexivity|]. cbn [split_lines].
  destruct (Ascii.eqb_spec c newline) as [->|Hc].
  - destruct (split_lines s) as [|l ls] eqn:E.
    + destruct (split_lines_head s) as (? & ? & ? & E' & _). congruence.
    + cbn [removelast last unlines]. cbn [removelast last] in IH.
      simpl. now rewrite IH.
  - destruct (split_lines s) as [|l ls] eqn:E.
    + destruct (split_lines_head s) as (? & ? & ? & E' & _). congruence.
    + destruct ls as [|l' ls'].
      * simpl in *. now rewrite IH.
      * cbn [removelast last unlines] in *. simpl. now rewrite IH.
Qed.

Lemma split_lines_app_newline (x y : string) :
  split_lines (x ++ String newline y) = split_lines x ++ split_lines y.
Proof.
  induction x as [|c x IH]; simpl.
  - reflexivity.
  - destruct (Ascii.eqb c newline); [now rewrite IH|].
    rewrite IH.
    destruct (split_lines x) as [|l ls] eqn:E; [|reflexivity].
    destruct (split_lines_head x) as (? & ? & ? & E' & _). congruence.
Qed.

Lemma last_app_nonempty (A : Type) (l l' : list A) (d : A) :
  l' <> [] -> last (l ++ l') d = last l' d.
Proof.
  intros H. induction l as [|a l IH]; [reflexivity|]. cbn [app last].
  destruct (l ++ l') eqn:E; [|exact IH].
  apply app_eq_nil in E as [_ E]. contradiction.
Qed.

Section Framing.

Variable JSON_parse : string -> Outcome JsValue.

(** X1: when the buffered text holds the frame marker, a read cuts it
    into the complete lines, which are processed, and the piece after the
    last line feed, which becomes the buffer: no character is lost, and
    whatever the mode the buffer never holds a line feed after a read. *)
Theorem on_chunk_keeps_the_unfinished_line (buffer chunk : string) :
  has_newline (fst (on_chunk JSON_parse buffer chunk)) = false /\
  (includes "data: " (buffer ++ chunk) = true ->
   on_chunk JSON_parse buffer chunk
   = (last (split_lines (buffer ++ chunk)) "",
      for_lines JSON_parse (removelast (split_lines (buffer ++ chunk)))) /\
   (unlines (removelast (split_lines (buffer ++ chunk))) ++
    fst (on_chunk JSON_parse buffer chunk))%string
   = (buffer ++ chunk)%string).
Proof.
  unfold on_chunk. split.
  - destruct (includes "data: " (buffer ++ chunk)); [|reflexivity]. simpl fst.
    pose proof (split_lines_no_newline (buffer ++ chunk)) as F.
    destruct (split_lines_head (buffer ++ chunk)) as (l & ls & _ & E & _).
    rewrite E in *. clear E. revert l F.
    induction ls as [|x ls IH]; intros l F.
    + now inversion F.
    + inversion F; subst. now apply (IH x).
  - intros ->. split; [reflexivity|]. simpl fst. apply split_lines_unlines.
Qed.

(** X2: lines that do not start with the frame marker (blank lines,
    comments, other SSE fields) produce nothing and do not disturb the
    lines around them. *)
Theorem for_lines_ignores_unframed_lines (lines : list string) :
  for_lines JSON_parse (filter (startsWith "data: ") lines)
  = for_lines JSON_parse lines.
Proof.
  induction lines as [|line rest IH]; [reflexivity|]. cbn [filter for_lines].
  destruct (startsWith "data: " line) eqn:E.
  - cbn [for_lines]. rewrite E, (framed_line_not_blank _ E).
    destruct (trim (slice 6 line) =? "[DONE]"); [reflexivity|].
    now rewrite IH.
  - rewrite IH. now destruct (trim line =? "").
Qed.

Lemma for_lines_app (front back : list string) :
  Forall (fun l => is_done_line l = false) front ->
  for_lines JSON_parse (front ++ back)
  = for_lines JSON_parse front ++ for_lines JSON_parse back.
Proof.
  induction 1 as [|l front Hl _ IH]; [reflexivity|].
  cbn [app for_lines]. destruct (trim l =? ""); [exact IH|].
  unfold is_done_line, payload_of in Hl.
  destruct (startsWith "data: " l); [|exact IH].
  apply andb_false_iff in Hl as [Hl|Hl]; [discriminate|].
  now rewrite Hl, IH, app_assoc.
Qed.

(** X3: the lines of one read are handled one after the other and
    independently up to the first [[DONE]] line; that line and every line
    after it in the same read produce nothing. *)
Theorem for_lines_until_done (front back : list string) :
  (Forall (fun l => is_done_line l = false) front ->
   for_lines JSON_parse (front ++ back)
   = for_lines JSON_parse front ++ for_lines JSON_parse back) /\
  (forall line,
      is_done_line line = true ->
      for_lines JSON_parse (front ++ line :: back)
      = for_lines JSON_parse front).
Proof.
  split.
  - apply for_lines_app.
  - intros line Hline. unfold is_done_line, payload_of in Hline.
    apply andb_true_iff in Hline as [Hf Hd].
    induction front as [|l front IH]; cbn [app for_lines].
    + now rewrite (framed_line_not_blank _ Hf), Hf, Hd.
    + destruct (trim l =? ""); [exact IH|].
      destruct (startsWith "data: " l); [|exact IH].
      destruct (trim (slice 6 l) =? "[DONE]"); [reflexivity|].
      now rewrite IH.
Qed.

(** X4: in framed mode the events do not depend on a chunk boundary that
    falls right after a line feed: when the first read ends a line, holds
    no [[DONE]] line and both reads hold the marker, the two reads give
    the buffer and the events of the single read of their concatenation. *)
Theorem framed_reads_merge_at_line_end (buffer text chunk' : string) :
  includes "data: " (buffer ++ text ++ String newline "") = true ->
  includes "data: " chunk' = true ->
  Forall (fun l => is_done_line l = false) (split_lines (buffer ++ text)) ->
  read_loop JSON_parse buffer [(text ++ String newline "")%string; chunk']
  = read_loop JSON_parse buffer [(text ++ String newline chunk')%string].
Proof.
  intros H1 H2 Hdone. cbn [read_loop]. unfold on_chunk.
  rewrite H1.
  replace (buffer ++ text ++ String newline "")%string
    with ((buffer ++ text) ++ String newline "")%string
    by apply append_assoc_s.
  replace (buffer ++ text ++ String newline chunk')%string
    with ((buffer ++ text) ++ String newline chunk')%string
    by apply append_assoc_s.
  rewrite !split_lines_app_newline.
  assert (Hinc : includes "data: "
                   ((buffer ++ text) ++ String newline chunk') = true).
  { apply includes_app_r. cbn [includes]. rewrite H2. apply orb_true_r. }
  rewrite Hinc. cbn [split_lines].
  rewrite removelast_last, last_last. change ("" ++ chunk')%string with chunk'.
  rewrite H2.
  destruct (split_lines_head chunk') as (l & ls & _ & E & _). rewrite E.
  rewrite removelast_app by discriminate.
  rewrite last_app_nonempty by discriminate.
  rewrite (for_lines_app _ _ Hdone).
  now rewrite !app_nil_r.
Qed.

(** X5: the chat id event is enqueued exactly when the request carries a
    truthy [chatId]; it is then the first event, and no other event is a
    chat id event. *)
Theorem chat_id_event_comes_first (chatId : JsValue) (responseId : string)
    (up : Upstream) :
  exists rest,
    enqueued (start JSON_parse chatId responseId up)
    = (if truthy chatId then [ChatIdEvent chatId] else []) ++ rest /\
    Forall (fun e => is_chat_id e = false) rest.
Proof.
  unfold start.
  assert (B : Forall (fun e => is_chat_id e = false)
                (snd (read_loop JSON_parse "" (reads up)))).
  { eapply Forall_impl; [|apply read_loop_truthy].
    intros e H. now destruct e. }
  destruct (read_end up); simpl; eexists; (split; [reflexivity|]);
    [apply Forall_app; split; [exact B|repeat constructor]|exact B].
Qed.

End Framing.

Lemma on_chunk_keeps_the_unfinished_line_witness :
  on_chunk JsonRef.JSON_parse "data: not" ("-json" ++ lf ++ "data: par")%string
  = ("data: par", [ContentEvent (JStr "not-json")]).
Proof.
  etransitivity.
  - apply (proj2 (on_chunk_keeps_the_unfinished_line JsonRef.JSON_parse
                    "data: not" ("-json" ++ lf ++ "data: par")%string)).
    reflexivity.
  - vm_compute. reflexivity.
Defined.

Lemma for_lines_until_done_witness :
  for_lines JsonRef.JSON_parse
    (["data: one"; ": keep-alive"] ++ "data: [DONE]" :: ["data: two"])
  = for_lines JsonRef.JSON_parse ["data: one"; ": keep-alive"].
Proof.
  apply (proj2 (for_lines_until_done JsonRef.JSON_parse
                  ["data: one"; ": keep-alive"] ["data: two"])).
  reflexivity.
Defined.

Lemma framed_reads_merge_at_line_end_witness :
  read_loop JsonRef.JSON_parse ""
    [("data: one" ++ String newline "")%string; "data: two"]
  = read_loop JsonRef.JSON_parse ""
      [("data: one" ++ String newline "data: two")%string].
Proof.
  apply (framed_reads_merge_at_line_end JsonRef.JSON_parse "" "data: one"
           "data: two"); try reflexivity.
  repeat constructor.
Defined.


(** ** The streaming helper and its consumer *)

Lemma for_chunks_summary (l : list ChatCompletionChunk) (acc : string)
    (u : Usage) :
  List.length (fst (for_chunks acc u l)) = List.length l /\
  List.length (snd (for_chunks acc u l)) = List.length l /\
  last (fst (for_chunks acc u l)) (acc, u)
  = ((acc ++ join (snd (for_chunks acc u l)))%string, latest_usage u l).
Proof.
  revert acc u; induction l as [|chunk l IH]; intros acc u.
  - simpl. now rewrite append_empty_r.
  - cbn [for_chunks].
    set (d := match nonempty (delta chunk) with Some t => t | None => "" end).
    set (u' := match chunk_usage chunk with Some v => v | None => u end).
    specialize (IH (acc ++ d)%string u').
    destruct (for_chunks (acc ++ d) u' l) as [ups ds].
    cbn [fst snd List.length join] in *.
    destruct IH as (H1 & H2 & H3). repeat split; try congruence.
    unfold latest_usage. cbn [fold_left]. fold u'.
    fold (latest_usage u' l). rewrite <- append_assoc_s, <- H3.
    destruct ups as [|p ups]; [reflexivity|].
    cbn [last]. clear. revert p. induction ups as [|q ups IH]; intros p.
    + reflexivity.
    + cbn [last]. apply IH.
Qed.

Lemma last_any_default (A : Type) (l : list A) (d d' : A) :
  l <> [] -> last l d = last l d'.
Proof.
  induction l as [|a l IH]; [contradiction|]. intros _. cbn [last].
  destruct l; [reflexivity|]. now apply IH.
Qed.

Lemma outputs_nonempty (ups : list (string * Usage)) (out : StreamingOutput) :
  outputs out ups <> [].
Proof. destruct ups as [|[c u] ups]; discriminate. Qed.

Lemma outputs_last (ups : list (string * Usage)) (out : StreamingOutput)
    (c : string) (u : Usage) :
  last (outputs out ups) out
  = match ups with
    | [] => out
    | _ => onUpdate out (fst (last ups (c, u))) (snd (last ups (c, u)))
    end.
Proof.
  revert out; induction ups as [|[c' u'] ups IH]; intros out; [reflexivity|].
  cbn [outputs].
  change (out :: outputs (onUpdate out c' u') ups)
    with ([out] ++ outputs (onUpdate out c' u') ups).
  rewrite last_app_nonempty by apply outputs_nonempty.
  rewrite (last_any_default _ _ out (onUpdate out c' u'))
    by apply outputs_nonempty.
  rewrite IH. destruct ups as [|p ups]; reflexivity.
Qed.

(** X6: the helper calls the callback once and enqueues one delta per
    chunk, ends the way its source ends, and the content the streaming
    result holds in the end is the concatenation of the deltas it has
    enqueued. *)
Theorem helper_forwards_every_delta (stream : ChunkStream) :
  List.length (updates (createReadableStreamFromLMStudioStream stream))
  = List.length (chunks stream) /\
  List.length (deltas (createReadableStreamFromLMStudioStream stream))
  = List.length (chunks stream) /\
  finished (createReadableStreamFromLMStudioStream stream)
  = chunks_end stream /\
  so_content (last (streaming_outputs stream) initial_output)
  = join (deltas (createReadableStreamFromLMStudioStream stream)).
Proof.
  unfold streaming_outputs, createReadableStreamFromLMStudioStream.
  pose proof (for_chunks_summary (chunks stream) "" no_usage) as (H1 & H2 & H3).
  destruct (for_chunks "" no_usage (chunks stream)) as [ups ds].
  cbn [updates deltas finished fst snd] in *. repeat split; try assumption.
  rewrite (outputs_last ups initial_output "" no_usage), H3.
  destruct ups as [|p ups]; [|reflexivity].
  destruct ds; [reflexivity|]. simpl in *. congruence.
Qed.

(** X7: after the last chunk of a non-empty stream the three counters of
    the streaming result are the fields of the usage object of the latest
    chunk that carried one, whatever the earlier chunks reported; they are
    undefined when no chunk carried usage. *)
Theorem final_counters_are_latest_usage (stream : ChunkStream) :
  chunks stream <> [] ->
  so_tokens (last (streaming_outputs stream) initial_output)
  = {| st_input := prompt_tokens (latest_usage no_usage (chunks stream));
       st_output := completion_tokens (latest_usage no_usage (chunks stream));
       st_total := total_tokens (latest_usage no_usage (chunks stream)) |}.
Proof.
  intros Hne. unfold streaming_outputs, createReadableStreamFromLMStudioStream.
  pose proof (for_chunks_summary (chunks stream) "" no_usage) as (H1 & _ & H3).
  destruct (for_chunks "" no_usage (chunks stream)) as [ups ds].
  cbn [updates fst snd] in *.
  rewrite (outputs_last ups initial_output "" no_usage), H3.
  destruct ups as [|p ups]; [|reflexivity].
  destruct (chunks stream); [contradiction|discriminate].
Qed.

Lemma final_counters_are_latest_usage_witness :
  so_tokens
    (last
       (streaming_outputs
          {| chunks := [{| delta := Some "Hi";
                           chunk_usage := Examples.a_usage 9 1 |};
                        {| delta := Some "!"; chunk_usage := None |};
                        {| delta := None;
                           chunk_usage := Examples.a_usage 9 2 |}];
             chunks_end := Returns tt |})
       initial_output)
  = {| st_input := Some 9%Z; st_output := Some 2%Z; st_total := Some 11%Z |}.
Proof.
  etransitivity.
  - apply final_counters_are_latest_usage. discriminate.
  - reflexivity.
Defined.

Lemma streamed_content (stream : ChunkStream) :
  so_content (last (streaming_outputs stream) initial_output)
  = join (deltas (createReadableStreamFromLMStudioStream stream)) /\
  finished (createReadableStreamFromLMStudioStream stream)
  = chunks_end stream.
Proof.
  unfold streaming_outputs, createReadableStreamFromLMStudioStream.
  pose proof (for_chunks_summary (chunks stream) "" no_usage) as (H1 & H2 & H3).
  destruct (for_chunks "" no_usage (chunks stream)) as [ups ds].
  cbn [updates deltas finished fst snd] in *. split; [|reflexivity].
  rewrite (outputs_last ups initial_output "" no_usage), H3.
  destruct ups as [|p ups]; [|reflexivity].
  destruct ds; [reflexivity|]. simpl in *. congruence.
Qed.

Lemma Forall_firstn_of (A : Type) (P : A -> Prop) (n : nat) (l : list A) :
  Forall P l -> Forall P (firstn n l).
Proof.
  intros H. revert n. induction H as [|a l Ha _ IH]; intros [|n];
    cbn [firstn]; constructor; [exact Ha|apply IH].
Qed.

(** X8: the route reading the stream built by the helper, when the text
    of the deltas does not hold the frame marker.  When the helper's
    source ends normally, the route reads every delta, the content events
    it sends carry, put together, exactly the content that the streaming
    result holds in the end, and its stream is closed.  When the source
    fails, [controller.error] drops what the route has not read yet: the
    route's stream is errored with the same exception, and its content
    events carry the text of the deltas it had read by then, however
    many these are. *)
Theorem helper_stream_through_route (JSON_parse : string -> Outcome JsValue)
    (chatId : JsValue) (responseId : string) (stream : ChunkStream)
    (consumed : nat) :
  includes "data: "
    (join (deltas (createReadableStreamFromLMStudioStream stream))) = false ->
  match chunks_end stream with
  | Returns _ =>
      content_text
        (enqueued
           (start JSON_parse chatId responseId
              (as_upstream consumed
                 (createReadableStreamFromLMStudioStream stream))))
      = so_content (last (streaming_outputs stream) initial_output) /\
      controller
        (start JSON_parse chatId responseId
           (as_upstream consumed
              (createReadableStreamFromLMStudioStream stream)))
      = Closed
  | Throws e =>
      content_text
        (enqueued
           (start JSON_parse chatId responseId
              (as_upstream consumed
                 (createReadableStreamFromLMStudioStream stream))))
      = join (firstn consumed
                (deltas (createReadableStreamFromLMStudioStream stream))) /\
      controller
        (start JSON_parse chatId responseId
           (as_upstream consumed
              (createReadableStreamFromLMStudioStream stream)))
      = Errored e
  end.
Proof.
  intros Hraw. apply includes_join_false in Hraw.
  destruct (streamed_content stream) as (Hc & Hf).
  rewrite content_text_start. unfold start, as_upstream. rewrite Hf.
  destruct (chunks_end stream) as [u|e]; cbn [reads read_end controller].
  - split; [|reflexivity].
    rewrite (read_loop_raw JSON_parse _ Hraw). cbn [snd].
    now rewrite content_text_raw.
  - split; [|reflexivity].
    rewrite (read_loop_raw JSON_parse _
               (Forall_firstn_of _ _ consumed _ Hraw)).
    cbn [snd]. now rewrite content_text_raw.
Qed.

Lemma helper_stream_through_route_witness :
  content_text
    (enqueued
       (start JsonRef.JSON_parse JUndefined "resp-8"
          (as_upstream 2
             (createReadableStreamFromLMStudioStream
                {| chunks := [{| delta := Some "Hel"; chunk_usage := None |};
                              {| delta := None; chunk_usage := None |};
                              {| delta := Some "lo"; chunk_usage := None |}];
                   chunks_end := Throws (ErrorObject "socket closed") |}))))
  = "Hel" /\
  controller
    (start JsonRef.JSON_parse JUndefined "resp-8"
       (as_upstream 2
          (createReadableStreamFromLMStudioStream
             {| chunks := [{| delta := Some "Hel"; chunk_usage := None |};
                           {| delta := None; chunk_usage := None |};
                           {| delta := Some "lo"; chunk_usage := None |}];
                chunks_end := Throws (ErrorObject "socket closed") |})))
  = Errored (ErrorObject "socket closed").
Proof.
  exact (helper_stream_through_route JsonRef.JSON_parse JUndefined "resp-8"
           {| chunks := [{| delta := Some "Hel"; chunk_usage := None |};
                         {| delta := None; chunk_usage := None |};
                         {| delta := Some "lo"; chunk_usage := None |}];
              chunks_end := Throws (ErrorObject "socket closed") |}
           2 eq_refl).
Defined.

(** ** The tool loop: rejection, timing, telemetry, conversation *)

Section LoopTelemetry.

Variable MAX_TOOL_ITERATIONS : nat.
Variable JSON_parse : string -> Outcome JsValue.
Variable JSON_stringify : JsValue -> option string.
Variable toISOString : Z -> string.
Variable prepareToolExecution :
  ToolConfig -> JsValue -> Outcome (JsValue * JsValue).
Variable executeTool : nat * string -> string -> JsValue -> Run ToolResult.
Variable create : list Message -> Run ChatCompletion.
Variable tools : list ToolConfig.

Local Abbreviation invoke' :=
  (invoke JSON_parse prepareToolExecution executeTool tools).
Local Abbreviation turn' :=
  (turn JSON_parse JSON_stringify toISOString prepareToolExecution
     executeTool create tools).
Local Abbreviation loop' :=
  (while_loop MAX_TOOL_ITERATIONS JSON_parse JSON_stringify toISOString
     prepareToolExecution executeTool create tools).
Local Abbreviation execute' :=
  (executeRequest MAX_TOOL_ITERATIONS JSON_parse JSON_stringify toISOString
     prepareToolExecution executeTool create tools).
Local Abbreviation settled_of st calls :=
  (somes (map (invoke' (iterationCount st) (now st)) calls)).
Local Abbreviation next_messages st calls :=
  (currentMessages st ++
   AssistantToolCalls calls ::
   map (tool_message JSON_stringify) (settled_of st calls)).

(** A turn raises only when the completion it asks for fails. *)
Lemma turn_raise_inv (st : LoopState) (e : Thrown) (t : Z) :
  turn' st = Raise e t ->
  exists c cs,
    response_tool_calls (currentResponse st) = Some (c :: cs) /\
    settles (create (next_messages st (c :: cs))) = Throws e.
Proof.
  intros H.
  destruct (response_tool_calls (currentResponse st)) as [[|c cs]|] eqn:E;
    try (unfold turn in H; rewrite E in H; discriminate).
  exists c, cs. split; [reflexivity|].
  destruct (settles (create (next_messages st (c :: cs)))) as [r|e'] eqn:Ec.
  - destruct (turn_step JSON_parse JSON_stringify toISOString
                prepareToolExecution executeTool create tools st c cs r E Ec)
      as (st' & seg & Ht & _).
    rewrite Ht in H. discriminate.
  - destruct (turn_raise JSON_parse JSON_stringify toISOString
                prepareToolExecution executeTool create tools st c cs e' E Ec)
      as (t' & Ht).
    rewrite Ht in H. now injection H as -> _.
Qed.

Lemma loop_raise_inv (base : list Message) (fuel : nat) (st : LoopState)
    (e : Thrown) (t : Z) :
  (exists extra, currentMessages st = base ++ extra) ->
  loop' fuel st = Raise e t ->
  exists extra, settles (create (base ++ extra)) = Throws e.
Proof.
  revert st; induction fuel as [|fuel IH]; intros st (extra & Hm) H;
    [discriminate|].
  cbn [while_loop] in H.
  destruct (iterationCount st <? MAX_TOOL_ITERATIONS)%nat; [|discriminate].
  destruct (turn' st) as [s|st'|e' t'] eqn:Et; [discriminate| |].
  - apply (IH st'); [|exact H].
    destruct (turn_continue JSON_parse JSON_stringify toISOString
                prepareToolExecution executeTool create tools _ _ Et)
      as (c & cs & seg & _ & _ & _ & _ & _ & _ & Hn & _).
    rewrite Hn, Hm, <- app_assoc. eexists. reflexivity.
  - injection H as -> ->.
    destruct (turn_raise_inv _ _ _ Et) as (c & cs & _ & Hc).
    rewrite Hm, <- app_assoc in Hc. eexists. exact Hc.
Qed.

Lemma loop_never_raises (fuel : nat) (st : LoopState) (e : Thrown) (t : Z) :
  (forall messages, exists r, settles (create messages) = Returns r) ->
  loop' fuel st <> Raise e t.
Proof.
  intros Hall H.
  destruct (loop_raise_inv (currentMessages st) fuel st e t) as (extra & Hx);
    [exists []; now rewrite app_nil_r|exact H|].
  destruct (Hall (currentMessages st ++ extra)) as (r & Hr). congruence.
Qed.

(** X9: in the setting of this model, where [executeTool] settles with a
    result object or throws, what is recorded for a tool can be
    serialised by [JSON.stringify] and every completion carries a
    [choices] array, failing tools do not fail the request: as long as
    every completion arrives, the request resolves, whether the tools
    succeed, return a failure or throw, whether their arguments parse or
    not, and whether the preparation of their parameters throws or not. *)
Theorem resolves_when_completions_arrive (providerStartTime : Z)
    (allMessages : list Message) :
  (forall messages, exists r, settles (create messages) = Returns r) ->
  exists r, execute' providerStartTime allMessages = Resolved r.
Proof.
  intros Hall. unfold executeRequest, run_loop.
  destruct (Hall allMessages) as (r0 & ->).
  destruct (loop' MAX_TOOL_ITERATIONS _) as [st|st|e t] eqn:E.
  - eexists. reflexivity.
  - eexists. reflexivity.
  - now apply loop_never_raises in E.
Qed.

(** X10: in the same setting (tool results are objects, what is recorded
    can be serialised, completions carry a [choices] array), a request
    that is rejected is rejected by a failed completion: the rejection
    carries the text of what that completion threw, and the messages of
    the failed completion extend those of the request. *)
Theorem rejected_by_a_failed_completion (providerStartTime : Z)
    (allMessages : list Message) (err : EnhancedError) :
  execute' providerStartTime allMessages = Rejected err ->
  exists extra e,
    settles (create (allMessages ++ extra)) = Throws e /\
    err_message err = error_text e /\
    err_startTime err = toISOString providerStartTime.
Proof.
  unfold executeRequest, run_loop. intros H.
  destruct (settles (create allMessages)) as [r0|e0] eqn:E0.
  - destruct (loop' MAX_TOOL_ITERATIONS _) as [st|st|e t] eqn:E;
      try discriminate.
    injection H as <-.
    destruct (loop_raise_inv allMessages MAX_TOOL_ITERATIONS
                (initial_state allMessages providerStartTime
                   (latency (create allMessages)) r0) e t) as (extra & Hx);
      [exists []; cbn; now rewrite app_nil_r|exact E|].
    exists extra, e. repeat split. exact Hx.
  - injection H as <-. exists [], e0. rewrite app_nil_r. repeat split.
    exact E0.
Qed.

Local Abbreviation loop_invariant :=
  (while_loop_invariant MAX_TOOL_ITERATIONS JSON_parse JSON_stringify
     toISOString prepareToolExecution executeTool create tools).
Local Abbreviation turn_break' :=
  (turn_break MAX_TOOL_ITERATIONS JSON_parse JSON_stringify toISOString
     prepareToolExecution executeTool create tools).
Local Abbreviation turn_continue' :=
  (turn_continue JSON_parse JSON_stringify toISOString prepareToolExecution
     executeTool create tools).
Local Abbreviation resolved_from_loop' :=
  (resolved_from_loop MAX_TOOL_ITERATIONS JSON_parse JSON_stringify
     toISOString prepareToolExecution executeTool create tools).

Lemma somes_map_forall (A B : Type) (f : A -> option B) (P : B -> Prop)
    (l : list A) :
  (forall a b, f a = Some b -> P b) -> Forall P (somes (map f l)).
Proof.
  intros H. induction l as [|a l IH]; [constructor|]. cbn [map somes].
  destruct (f a) as [b|] eqn:E; [constructor; [now apply (H a)|exact IH]|].
  exact IH.
Qed.

Lemma invoke_duration (iteration : nat) (t0 : Z) (tc : ToolCall)
    (s : Settled) :
  invoke' iteration t0 tc = Some s ->
  duration s = (endTime s - startTime s)%Z.
Proof.
  unfold invoke. intros H.
  destruct (JSON_parse (tc_arguments tc)) as [toolArgs|e].
  - destruct (find _ tools) as [t|]; [|discriminate].
    destruct (prepareToolExecution t toolArgs) as [[params ep]|e].
    + destruct (settles (executeTool _ _ _)); now injection H as <-.
    + now injection H as <-.
  - now injection H as <-.
Qed.

Lemma sum_durations_app (a b : list TimeSegment) :
  sum_durations (a ++ b) = (sum_durations a + sum_durations b)%Z.
Proof. induction a as [|s a IH]; simpl; [reflexivity|rewrite IH; lia]. Qed.

Lemma tool_segments_all_tool (ss : list Settled) :
  filter is_tool_segment (map tool_segment ss) = map tool_segment ss.
Proof. induction ss as [|s ss IH]; [reflexivity|]. simpl. now rewrite IH. Qed.

(** The model segment and the model time of a turn that continues. *)
Lemma turn_continue_timing (st st' : LoopState) :
  turn' st = Continue st' ->
  exists calls seg,
    timeSegments st'
    = timeSegments st ++ map tool_segment (settled_of st calls) ++ [seg] /\
    seg_type seg = model /\
    seg_duration seg = (seg_endTime seg - seg_startTime seg)%Z /\
    modelTime st' = (modelTime st + seg_duration seg)%Z.
Proof.
  intros H.
  destruct (response_tool_calls (currentResponse st)) as [[|c cs]|] eqn:E;
    try (unfold turn in H; rewrite E in H; discriminate).
  unfold turn in H. rewrite E in H.
  match type of H with
  | context [fold_left ?f ?l ?s] =>
      destruct (fold_record_settled JSON_stringify toISOString l s)
        as (_ & F2 & _ & _ & _ & _ & _ & _ & F9 & _);
      cbn [timeSegments modelTime] in F2, F9;
      set (st3 := fold_left f l s) in *
  end.
  destruct (settles (create (currentMessages st3))); [|discriminate].
  injection H as <-. cbn [timeSegments modelTime].
  exists (c :: cs). eexists. rewrite F2, F9, <- app_assoc.
  split; [reflexivity|]. repeat split.
Qed.

(** X11: in a resolved request every time segment lasts from its start
    to its end, the first segment is that of the first completion and lasts
    [firstResponseTime], and [modelTime] is the sum of the durations of the
    model segments. *)
Theorem model_time_sums_model_segments (providerStartTime : Z)
    (allMessages : list Message) (r : ProviderResponse) :
  execute' providerStartTime allMessages = Resolved r ->
  Forall (fun s => seg_duration s = (seg_endTime s - seg_startTime s)%Z)
    (t_timeSegments (timing r)) /\
  t_modelTime (timing r)
  = sum_durations (filter is_model_segment (t_timeSegments (timing r))) /\
  exists first rest,
    t_timeSegments (timing r) = first :: rest /\
    seg_type first = model /\
    seg_duration first = t_firstResponseTime (timing r).
Proof.
  intros H.
  destruct (resolved_from_loop' _ _ _ H) as (r0 & st & _ & L & _ & ->).
  cbn [respond timing t_timeSegments t_modelTime t_firstResponseTime].
  revert L.
  apply (loop_invariant
           (fun s =>
              Forall (fun g => seg_duration g
                               = (seg_endTime g - seg_startTime g)%Z)
                (timeSegments s) /\
              modelTime s
              = sum_durations (filter is_model_segment (timeSegments s)) /\
              exists first rest,
                timeSegments s = first :: rest /\
                seg_type first = model /\
                seg_duration first = latency (create allMessages))).
  - intros s s' HI Hb.
    destruct (turn_break' _ _ Hb) as (_ & _ & _ & _ & _ & _ & Hs & _).
    rewrite Hs. destruct HI as (A & B & C). split; [exact A|]. split; [|exact C].
    rewrite <- B. clear - Hb.
    destruct (response_tool_calls (currentResponse s)) as [[|c cs]|] eqn:E;
      unfold turn in Hb; rewrite E in Hb; try now injection Hb as <-.
    destruct (settles _) in Hb; discriminate.
  - intros s s' (A & B & first & rest & C1 & C2) _ Hc.
    destruct (turn_continue_timing _ _ Hc) as (calls & seg & Hs & Hm & Hd & Ht).
    rewrite Hs, Ht. split; [|split].
    + apply Forall_app. split; [exact A|]. apply Forall_app. split.
      * apply Forall_map. apply somes_map_forall.
        intros tc x Hx. cbn. now apply (invoke_duration _ _ _ _ Hx).
      * now repeat constructor.
    + rewrite !filter_app, tool_segments_not_model, !sum_durations_app.
      cbn [app filter]. unfold is_model_segment at 2. rewrite Hm. simpl.
      rewrite B. lia.
    + exists first, (rest ++ map tool_segment (settled_of s calls) ++ [seg]).
      rewrite C1. split; [reflexivity|exact C2].
  - cbn. repeat split; [repeat constructor; cbn; lia|lia|].
    eexists _, _. repeat split.
Qed.

(** X12: in a resolved request the tool segments and the records of
    [toolCalls] describe the same invocations in the same order: same
    name, same start and end (the record holds their ISO text), same
    duration. *)
Theorem tool_segments_match_records (providerStartTime : Z)
    (allMessages : list Message) (r : ProviderResponse) :
  execute' providerStartTime allMessages = Resolved r ->
  map (fun s => (seg_name s, toISOString (seg_startTime s),
                 toISOString (seg_endTime s), seg_duration s))
    (filter is_tool_segment (t_timeSegments (timing r)))
  = map (fun c => (rec_name c, rec_startTime c, rec_endTime c, rec_duration c))
      match r_toolCalls r with Some l => l | None => [] end.
Proof.
  intros H.
  destruct (resolved_from_loop' _ _ _ H) as (r0 & st & _ & L & _ & ->).
  cbn [respond timing t_timeSegments r_toolCalls].
  assert (K : map (fun g => (seg_name g, toISOString (seg_startTime g),
                             toISOString (seg_endTime g), seg_duration g))
                (filter is_tool_segment (timeSegments st))
              = map (fun c => (rec_name c, rec_startTime c, rec_endTime c,
                               rec_duration c)) (toolCalls st));
    [|rewrite K; now destruct (toolCalls st)].
  revert L.
  apply (loop_invariant
           (fun s =>
              map (fun g => (seg_name g, toISOString (seg_startTime g),
                             toISOString (seg_endTime g), seg_duration g))
                (filter is_tool_segment (timeSegments s))
              = map (fun c => (rec_name c, rec_startTime c, rec_endTime c,
                               rec_duration c)) (toolCalls s))).
  - intros s s' HI Hb.
    destruct (turn_break' _ _ Hb) as (_ & _ & _ & _ & Hc & _ & Hs & _).
    now rewrite Hs, Hc.
  - intros s s' HI _ Hc.
    destruct (turn_continue' _ _ Hc)
      as (c & cs & seg & _ & _ & H1 & _ & H3 & Hm & _).
    rewrite H1, H3, !filter_app, tool_segments_all_tool, !map_app, HI.
    f_equal. cbn [filter]. unfold is_tool_segment at 1. rewrite Hm.
    cbn [map]. rewrite app_nil_r, !map_map. reflexivity.
  - reflexivity.
Qed.

Lemma turn_break_messages (st st' : LoopState) :
  turn' st = Break st' -> currentMessages st' = currentMessages st.
Proof.
  intros Hb.
  destruct (response_tool_calls (currentResponse st)) as [[|c cs]|] eqn:E;
    unfold turn in Hb; rewrite E in Hb; try now injection Hb as <-.
  destruct (settles _) in Hb; discriminate.
Qed.

Lemma tool_messages_count (ss : list Settled) :
  List.length
    (filter is_tool_message (map (tool_message JSON_stringify) ss))
  = List.length ss /\
  filter is_assistant_turn (map (tool_message JSON_stringify) ss) = [].
Proof.
  induction ss as [|s ss (IH1 & IH2)]; [now split|]. cbn. now rewrite IH1.
Qed.

(** X13: the conversation only grows: when a request resolves, the
    messages of its last completion are those of the request followed by
    nothing but assistant turns and tool messages, one assistant turn per
    turn of the loop and one tool message per record of [toolCalls]. *)
Theorem conversation_only_grows (providerStartTime : Z)
    (allMessages : list Message) (r : ProviderResponse) :
  execute' providerStartTime allMessages = Resolved r ->
  exists st extra,
    run_loop MAX_TOOL_ITERATIONS JSON_parse JSON_stringify toISOString
      prepareToolExecution executeTool create tools providerStartTime
      allMessages = Break st /\
    currentMessages st = allMessages ++ extra /\
    Forall (fun m => is_assistant_turn m || is_tool_message m = true) extra /\
    List.length (filter is_assistant_turn extra) + 1 = iterations (timing r) /\
    List.length (filter is_tool_message extra)
    = List.length match r_toolCalls r with Some l => l | None => [] end.
Proof.
  intros H.
  destruct (resolved_from_loop' _ _ _ H) as (r0 & st & _ & L & R & ->).
  exists st.
  assert (K : exists extra,
             currentMessages st = allMessages ++ extra /\
             Forall (fun m => is_assistant_turn m || is_tool_message m = true)
               extra /\
             List.length (filter is_assistant_turn extra) = iterationCount st /\
             List.length (filter is_tool_message extra)
             = List.length (toolCalls st)).
  { revert L.
    apply (loop_invariant
             (fun s => exists extra,
                  currentMessages s = allMessages ++ extra /\
                  Forall (fun m => is_assistant_turn m || is_tool_message m
                                   = true) extra /\
                  List.length (filter is_assistant_turn extra)
                  = iterationCount s /\
                  List.length (filter is_tool_message extra)
                  = List.length (toolCalls s))).
    - intros s s' HI Hb.
      destruct (turn_break' _ _ Hb) as (_ & _ & _ & _ & Hc & _ & _ & Hn).
      now rewrite (turn_break_messages _ _ Hb), Hc, Hn.
    - intros s s' (extra & E1 & E2 & E3 & E4) _ Hc.
      destruct (turn_continue' _ _ Hc)
        as (c & cs & seg & _ & _ & H1 & _ & _ & _ & Hm & _ & _ & Hn).
      destruct (tool_messages_count (settled_of s (c :: cs))) as (T1 & T2).
      exists (extra ++ AssistantToolCalls (c :: cs) ::
              map (tool_message JSON_stringify) (settled_of s (c :: cs))).
      rewrite Hm, E1, H1, Hn, <- app_assoc. split; [reflexivity|].
      split; [|split].
      + apply Forall_app. split; [exact E2|]. constructor; [reflexivity|].
        apply Forall_map. apply Forall_forall. intros x _. reflexivity.
      + rewrite filter_app, length_app, E3. cbn [filter is_assistant_turn].
        rewrite T2. simpl. lia.
      + rewrite filter_app, !length_app, E4. cbn [filter is_tool_message].
        now rewrite T1, length_map.
    - exists []. cbn. rewrite app_nil_r. repeat split. constructor. }
  destruct K as (extra & K1 & K2 & K3 & K4). exists extra.
  cbn [respond timing iterations r_toolCalls].
  repeat split; try assumption; [lia|].
  rewrite K4. now destruct (toolCalls st).
Qed.

(** X14: when the backend reports no negative usage, the token counters
    of a resolved request are at least those of its first completion, and
    are not negative. *)
Theorem batch_tokens_never_decrease (providerStartTime : Z)
    (allMessages : list Message) (r : ProviderResponse) :
  (forall messages response u,
      settles (create messages) = Returns response ->
      usage response = Some u -> usage_nonneg u) ->
  execute' providerStartTime allMessages = Resolved r ->
  exists first,
    settles (create allMessages) = Returns first /\
    tokens_le
      (tokens (initial_state allMessages providerStartTime
                 (latency (create allMessages)) first))
      (r_tokens r) /\
    tokens_le {| input := 0; output_tokens := 0; total := 0 |} (r_tokens r).
Proof.
  intros Hpos H.
  destruct (resolved_from_loop' _ _ _ H) as (r0 & st & E0 & L & _ & ->).
  exists r0. split; [exact E0|]. cbn [respond r_tokens].
  set (t0 := tokens (initial_state allMessages providerStartTime
                       (latency (create allMessages)) r0)).
  assert (K : tokens_le t0 (tokens st)).
  { revert L.
    apply (loop_invariant (fun s => tokens_le t0 (tokens s))).
    - intros s s' HI Hb.
      destruct (turn_break' _ _ Hb) as (_ & _ & _ & Ht & _). now rewrite Ht.
    - intros s s' HI _ Hc.
      destruct (turn_continue' _ _ Hc)
        as (c & cs & seg & _ & Hr & _ & _ & _ & _ & _ & _ & Ht & _).
      rewrite Ht.
      pose proof (batch_tokens_accumulate (tokens s) (currentResponse s')
                    (fun u Hu => Hpos _ _ u Hr Hu)) as A.
      unfold tokens_le in *. lia.
    - unfold t0, tokens_le. lia. }
  split; [exact K|].
  assert (Z0 : tokens_le {| input := 0; output_tokens := 0; total := 0 |} t0).
  { unfold t0, tokens_le, initial_state.
    cbn [tokens input output_tokens total].
    destruct (usage r0) as [u|] eqn:Eu; [|cbn; lia].
    apply (Hpos _ _ u E0 Eu). }
  unfold tokens_le in *. cbn in *. lia.
Qed.

Lemma turn_without_calls (st : LoopState) :
  response_tool_calls (currentResponse st) = None \/
  response_tool_calls (currentResponse st) = Some [] ->
  turn' st
  = Break {| currentResponse := currentResponse st;
             content := latest_content (currentResponse st) (content st);
             tokens := tokens st;
             toolCalls := toolCalls st;
             toolResults := toolResults st;
             currentMessages := currentMessages st;
             iterationCount := iterationCount st;
             modelTime := modelTime st;
             toolsTime := toolsTime st;
             timeSegments := timeSegments st;
             now := now st |}.
Proof. unfold turn. now intros [-> | ->]. Qed.

(** X15: when the first completion asks for no tool, or the cap is 0,
    the request resolves on that single completion: [iterations] is 1, the
    only segment is the initial one, [toolCalls] and [toolResults] are
    omitted, and the content is the text of the completion, or the empty
    string when it has none. *)
Theorem single_completion_request (providerStartTime : Z)
    (allMessages : list Message) (first : ChatCompletion) :
  settles (create allMessages) = Returns first ->
  MAX_TOOL_ITERATIONS = 0 \/
  response_tool_calls first = None \/ response_tool_calls first = Some [] ->
  exists r,
    execute' providerStartTime allMessages = Resolved r /\
    iterations (timing r) = 1 /\
    List.length (t_timeSegments (timing r)) = 1 /\
    r_toolCalls r = None /\
    r_toolResults r = None /\
    r_content r = match nonempty (response_content first) with
                  | Some c => c
                  | None => ""
                  end.
Proof.
  intros E0 Hcase. unfold executeRequest, run_loop. rewrite E0.
  destruct MAX_TOOL_ITERATIONS as [|n] eqn:Emax.
  - eexists. split; [reflexivity|]. cbn. repeat split.
  - destruct Hcase as [Hz|Hcase]; [discriminate|].
    cbn [while_loop].
    change (iterationCount
              (initial_state allMessages providerStartTime
                 (latency (create allMessages)) first) <? S n)%nat with true.
    cbv iota.
    rewrite (turn_without_calls
               (initial_state allMessages providerStartTime
                  (latency (create allMessages)) first) Hcase).
    eexists. split; [reflexivity|]. cbn. unfold latest_content.
    destruct (nonempty (response_content first)); repeat split.
Qed.

Lemma failed_record_payload (s : Settled) :
  success (result s) = false ->
  exists message,
    message <> "" /\
    rec_result (tool_call_record toISOString s)
    = error_payload message (rec_name (tool_call_record toISOString s)).
Proof.
  intros Hf. unfold tool_call_record, resultContent, error_payload.
  cbn [rec_result rec_name]. rewrite Hf.
  destruct (nonempty (error (result s))) as [m|] eqn:E.
  - exists m. split; [|reflexivity].
    unfold nonempty in E. destruct (error (result s)) as [t|]; [|discriminate].
    destruct (String.eqb_spec t ""); [discriminate|]. now injection E as <-.
  - eexists. split; [|reflexivity]. discriminate.
Qed.

(** X16: every record of a failed invocation in the result of a resolved
    request carries the payload [{error: true, message, tool}], where
    [tool] is the name of the record and [message] is never empty. *)
Theorem failed_records_carry_error_payload (providerStartTime : Z)
    (allMessages : list Message) (r : ProviderResponse)
    (records : list ToolCallRecord) :
  execute' providerStartTime allMessages = Resolved r ->
  r_toolCalls r = Some records ->
  Forall
    (fun record =>
       rec_success record = false ->
       exists message,
         message <> "" /\
         rec_result record = error_payload message (rec_name record))
    records.
Proof.
  intros H Hrec.
  destruct (resolved_from_loop' _ _ _ H) as (r0 & st & _ & L & _ & ->).
  cbn [respond r_toolCalls] in Hrec.
  assert (K : Forall
                (fun record =>
                   rec_success record = false ->
                   exists message,
                     message <> "" /\
                     rec_result record
                     = error_payload message (rec_name record))
                (toolCalls st)).
  { revert L.
    apply (loop_invariant
             (fun s => Forall
                         (fun record =>
                            rec_success record = false ->
                            exists message,
                              message <> "" /\
                              rec_result record
                              = error_payload message (rec_name record))
                         (toolCalls s))).
    - intros s s' HI Hb.
      destruct (turn_break' _ _ Hb) as (_ & _ & _ & _ & Hc & _). now rewrite Hc.
    - intros s s' HI _ Hc.
      destruct (turn_continue' _ _ Hc) as (c & cs & seg & _ & _ & H1 & _).
      rewrite H1. apply Forall_app. split; [exact HI|].
      apply Forall_map. apply Forall_forall. intros x _ Hx.
      now apply failed_record_payload.
    - constructor. }
  destruct (toolCalls st); [discriminate|]. now injection Hrec as <-.
Qed.

End LoopTelemetry.

Lemma resolves_when_completions_arrive_witness :
  exists r,
    run_batch 3
      (Examples.create_once
         [Examples.a_call "c1" "boom" "{}"; Examples.a_call "c2" "ghost" "x"])
      [Examples.a_tool "boom"] = Resolved r.
Proof.
  apply resolves_when_completions_arrive.
  intros messages. eexists. reflexivity.
Defined.

Lemma rejected_by_a_failed_completion_witness :
  exists err extra e,
    run_batch 3 MoreExamples.create_then_fail [Examples.a_tool "search"]
    = Rejected err /\
    settles (MoreExamples.create_then_fail (Examples.user_hello ++ extra))
    = Throws e /\
    err_message err = error_text e.
Proof.
  destruct (run_batch 3 MoreExamples.create_then_fail
              [Examples.a_tool "search"]) as [r|err] eqn:E;
    [vm_compute in E; discriminate|].
  destruct (rejected_by_a_failed_completion _ _ _ _ _ _ _ _ _ _ _ E)
    as (extra & e & Hs & Hm & _).
  exists err, extra, e. repeat split; assumption.
Defined.

Lemma model_time_sums_model_segments_witness :
  match run_batch 3 Examples.create_always_tools [Examples.a_tool "search"]
  with
  | Resolved r =>
      t_modelTime (timing r)
      = sum_durations (filter is_model_segment (t_timeSegments (timing r)))
  | Rejected _ => False
  end.
Proof.
  destruct (run_batch 3 Examples.create_always_tools
              [Examples.a_tool "search"]) as [r|err] eqn:E;
    [|vm_compute in E; discriminate].
  exact (proj1 (proj2 (model_time_sums_model_segments _ _ _ _ _ _ _ _ _ _ _ E))).
Defined.

Lemma tool_segments_match_records_witness :
  match run_batch 3
          (Examples.create_once
             [Examples.a_call "c1" "slow" "{}";
              Examples.a_call "c2" "boom" "{}"])
          [Examples.a_tool "slow"; Examples.a_tool "boom"]
  with
  | Resolved r =>
      map (fun s => (seg_name s, toISOString (seg_startTime s),
                     toISOString (seg_endTime s), seg_duration s))
        (filter is_tool_segment (t_timeSegments (timing r)))
      = map (fun c => (rec_name c, rec_startTime c, rec_endTime c,
                       rec_duration c))
          match r_toolCalls r with Some l => l | None => [] end
  | Rejected _ => False
  end.
Proof.
  destruct (run_batch 3
              (Examples.create_once
                 [Examples.a_call "c1" "slow" "{}";
                  Examples.a_call "c2" "boom" "{}"])
              [Examples.a_tool "slow"; Examples.a_tool "boom"])
    as [r|err] eqn:E; [|vm_compute in E; discriminate].
  exact (tool_segments_match_records _ _ _ _ _ _ _ _ _ _ _ E).
Defined.

Lemma conversation_only_grows_witness :
  match run_batch 3 Examples.create_always_tools [Examples.a_tool "search"]
  with
  | Resolved r =>
      exists st extra,
        run_loop 3 JsonRef.JSON_parse JSON_stringify toISOString
          Examples.prepareToolExecution Examples.executeTool
          Examples.create_always_tools [Examples.a_tool "search"] 0
          Examples.user_hello = Break st /\
        currentMessages st = Examples.user_hello ++ extra /\
        List.length (filter is_assistant_turn extra) + 1
        = iterations (timing r)
  | Rejected _ => False
  end.
Proof.
  destruct (run_batch 3 Examples.create_always_tools
              [Examples.a_tool "search"]) as [r|err] eqn:E;
    [|vm_compute in E; discriminate].
  destruct (conversation_only_grows _ _ _ _ _ _ _ _ _ _ _ E)
    as (st & extra & R & M & _ & A & _).
  exists st, extra. repeat split; assumption.
Defined.

Lemma batch_tokens_never_decrease_witness :
  match run_batch 3 Examples.create_always_tools [Examples.a_tool "search"]
  with
  | Resolved r =>
      tokens_le {| input := 0; output_tokens := 0; total := 0 |} (r_tokens r)
  | Rejected _ => False
  end.
Proof.
  destruct (run_batch 3 Examples.create_always_tools
              [Examples.a_tool "search"]) as [r|err] eqn:E;
    [|vm_compute in E; discriminate].
  destruct (batch_tokens_never_decrease 3 JsonRef.JSON_parse JSON_stringify
              toISOString Examples.prepareToolExecution Examples.executeTool
              Examples.create_always_tools [Examples.a_tool "search"] 0
              Examples.user_hello r) as (first & _ & _ & H); [|exact E|exact H].
  intros messages response u Hs Hu. cbn in Hs. injection Hs as <-.
  cbn in Hu. injection Hu as <-. unfold usage_nonneg. cbn. lia.
Defined.

Lemma single_completion_request_witness :
  exists r,
    run_batch 3 (Examples.create_once []) [] = Resolved r /\
    iterations (timing r) = 1 /\
    r_toolCalls r = None.
Proof.
  destruct (single_completion_request 3 JsonRef.JSON_parse JSON_stringify
              toISOString Examples.prepareToolExecution Examples.executeTool
              (Examples.create_once []) [] 0 Examples.user_hello
              (Examples.a_completion None (Some [])))
    as (r & H & Hi & _ & Hc & _).
  - reflexivity.
  - right. right. reflexivity.
  - exists r. repeat split; assumption.
Defined.

Lemma failed_records_carry_error_payload_witness :
  match run_batch 3
          (Examples.create_once [Examples.a_call "c1" "boom" "{}"])
          [Examples.a_tool "boom"]
  with
  | Resolved r =>
      match r_toolCalls r with
      | Some records =>
          Forall
            (fun record =>
               rec_success record = false ->
               exists message,
                 message <> "" /\
                 rec_result record
                 = error_payload message (rec_name record))
            records
      | None => False
      end
  | Rejected _ => False
  end.
Proof.
  destruct (run_batch 3
              (Examples.create_once [Examples.a_call "c1" "boom" "{}"])
              [Examples.a_tool "boom"]) as [r|err] eqn:E;
    [|vm_compute in E; discriminate].
  destruct (r_toolCalls r) as [records|] eqn:Er.
  - exact (failed_records_carry_error_payload _ _ _ _ _ _ _ _ _ _ _ _ E Er).
  - vm_compute in E. injection E as <-. discriminate.
Defined.

(** ** The request handler of the route *)

Section HandlerFacts.

Variable ToString : JsValue -> string.
Variable JSON_parse : string -> Outcome JsValue.
Variable getProviderFromModel : string -> Outcome string.
Variable executeProviderRequest :
  option string -> Copilot.ProviderRequest -> Outcome Copilot.ProviderResult.

(** X17: whatever the body and the provider do, the handler answers with
    a JSON error of status 500 or with an event stream; an event stream
    that is closed holds exactly one terminal event, the [done] event with
    the response id, in last position, and one that ends in error holds
    none. *)
Theorem handler_stream_ends_once (body : Outcome Copilot.Body)
    (responseId : string) :
  match Copilot.POST ToString JSON_parse getProviderFromModel
          executeProviderRequest body responseId with
  | Copilot.EventStream out =>
      match controller out with
      | Closed =>
          one_terminal_last (enqueued out) /\
          exists front, enqueued out = front ++ [DoneEvent responseId]
      | Errored _ => terminal_count (enqueued out) = 0
      end
  | Copilot.JsonError status _ => status = 500
  end.
Proof.
  assert (T : forall c,
             one_terminal_last [ContentEvent c; DoneEvent responseId] /\
             exists front,
               [ContentEvent c; DoneEvent responseId]
               = front ++ [DoneEvent responseId]).
  { intros c. split; [split; [reflexivity|]|].
    - now exists [ContentEvent c], (DoneEvent responseId).
    - now exists [ContentEvent c]. }
  unfold Copilot.POST.
  destruct body as [b|e]; [|now destruct e].
  destruct (Copilot.resolve_model _ _) as [[providerId actualModel]|e];
    [|now destruct e].
  destruct (executeProviderRequest _ _) as [result|e]; [|now destruct e].
  destruct result as [|[up|] [c|]]; try reflexivity; try apply T.
  - destruct (truthy (Copilot.stream_flag b)); [|apply T].
    unfold start. cbn [enqueued controller].
    pose proof (head_body_not_terminal JSON_parse (Copilot.chatId b) (reads up))
      as H.
    destruct (read_end up); cbn [enqueued controller].
    + rewrite app_assoc. split; [split|].
      * unfold terminal_count. now rewrite filter_app, H.
      * eexists _, _. split; reflexivity.
      * eexists. reflexivity.
    + unfold terminal_count. now rewrite H.
  - destruct (truthy (Copilot.stream_flag b)); [|reflexivity].
    unfold start. cbn [enqueued controller].
    pose proof (head_body_not_terminal JSON_parse (Copilot.chatId b) (reads up))
      as H.
    destruct (read_end up); cbn [enqueued controller].
    + rewrite app_assoc. split; [split|].
      * unfold terminal_count. now rewrite filter_app, H.
      * eexists _, _. split; reflexivity.
      * eexists. reflexivity.
    + unfold terminal_count. now rewrite H.
Qed.

Lemma render_truthy (c : Copilot.Context) :
  truthy (Copilot.render ToString c) = truthy (Copilot.ctx_content c).
Proof.
  unfold Copilot.render.
  destruct (truthy (Copilot.ctx_content c)) eqn:E.
  - rewrite !andb_true_r.
    destruct (Copilot.type_is "past_chat" c); [reflexivity|].
    destruct (Copilot.type_is "workflow" c); [reflexivity|].
    destruct (Copilot.type_is "current_workflow" c); [reflexivity|].
    unfold or_else. now rewrite E.
  - rewrite !andb_false_r. unfold or_else. now rewrite E.
Qed.

Lemma context_text_filtered (l : list Copilot.Context) :
  Copilot.contextContent ToString l
  = Copilot.join_with Copilot.separator
      (map ToString
         (map (Copilot.render ToString)
            (filter (fun c => truthy (Copilot.ctx_content c)) l))).
Proof.
  unfold Copilot.contextContent. do 2 f_equal.
  induction l as [|c l IH]; [reflexivity|]. cbn [map filter].
  rewrite render_truthy.
  destruct (truthy (Copilot.ctx_content c)); [cbn [map]; now rewrite IH|].
  exact IH.
Qed.

(** X18: the contexts whose content is empty or missing leave no trace in
    the context text, and the others are rendered in the order of the
    request: rendering all contexts and dropping the empty results is
    rendering the contexts that have content. *)
Theorem context_text_skips_empty_contexts (l : list Copilot.Context) :
  Copilot.contextContent ToString l
  = Copilot.join_with Copilot.separator
      (map ToString
         (map (Copilot.render ToString)
            (filter (fun c => truthy (Copilot.ctx_content c)) l))).
Proof. apply context_text_filtered. Qed.

(** X19: the messages handed to the provider always end with the user
    message that carries the message of the body; before it comes at most
    one message, a system message made of the fixed preamble and a
    non-empty context text, and none at all when no context has content. *)
Theorem messages_end_with_user_message (b : Copilot.Body) :
  exists front,
    Copilot.build_messages ToString b
    = front ++ [RequestMessage "user" (Copilot.message b)] /\
    (front = [] \/
     exists text,
       text <> "" /\
       front = [RequestMessage "system" (JStr (Copilot.preamble ++ text))]) /\
    ((forall c,
         In c match Copilot.contexts b with Some l => l | None => [] end ->
         truthy (Copilot.ctx_content c) = false) ->
     front = []).
Proof.
  unfold Copilot.build_messages.
  destruct (Copilot.contexts b) as [[|c cs]|].
  - exists []. repeat split. now left.
  - destruct (String.eqb_spec (Copilot.contextContent ToString (c :: cs)) "")
      as [E|E]; cbn [negb].
    + exists []. repeat split. now left.
    + eexists. split; [reflexivity|]. split.
      * right. eexists. split; [exact E|reflexivity].
      * intros Hall. exfalso. apply E.
        rewrite context_text_filtered.
        replace (filter (fun x => truthy (Copilot.ctx_content x)) (c :: cs))
          with (@nil Copilot.Context); [reflexivity|].
        symmetry. apply filter_none. exact Hall.
  - exists []. repeat split. now left.
Qed.

End HandlerFacts.

Lemma messages_end_with_user_message_witness :
  Copilot.build_messages MoreExamples.ToString
    {| Copilot.message := JStr "hi";
       Copilot.model := "gpt-5.1-codex";
       Copilot.contexts :=
         Some [{| Copilot.ctx_type := JStr "workflow";
                  Copilot.ctx_content := JStr "" |};
               {| Copilot.ctx_type := JStr "past_chat";
                  Copilot.ctx_content := JNull |}];
       Copilot.stream := JUndefined;
       Copilot.chatId := JUndefined |}
  = [RequestMessage "user" (JStr "hi")].
Proof.
  destruct (messages_end_with_user_message MoreExamples.ToString
              {| Copilot.message := JStr "hi";
                 Copilot.model := "gpt-5.1-codex";
                 Copilot.contexts :=
                   Some [{| Copilot.ctx_type := JStr "workflow";
                            Copilot.ctx_content := JStr "" |};
                         {| Copilot.ctx_type := JStr "past_chat";
                            Copilot.ctx_content := JNull |}];
                 Copilot.stream := JUndefined;
                 Copilot.chatId := JUndefined |})
    as (front & H & _ & Hnone).
  rewrite H, Hnone; [reflexivity|].
  intros c [<-|[<-|[]]]; reflexivity.
Defined.

(** ** The preparation of an LM Studio request *)

Lemma find_by_unique_id (t : ToolConfig) (l : list ToolConfig) :
  NoDup (map id l) -> In t l -> find (fun x => id x =? id t) l = Some t.
Proof.
  induction l as [|a l IH]; [intros _ []|]. cbn [map find].
  intros Hnd [->|Hin].
  - now rewrite String.eqb_refl.
  - inversion Hnd as [|? ? Hnot Hnd']; subst.
    destruct (String.eqb_spec (id a) (id t)) as [E|_]; [|now apply IH].
    exfalso. apply Hnot. rewrite E. now apply in_map.
Qed.

Lemma filter_map_swap (A B : Type) (f : A -> B) (p : B -> bool) (l : list A) :
  filter p (map f l) = map f (filter (fun a => p (f a)) l).
Proof.
  induction l as [|a l IH]; [reflexivity|]. cbn [map filter].
  destruct (p (f a)); cbn [map]; now rewrite IH.
Qed.

(** X20: when the tools of a request have distinct ids, the payload
    carries exactly the tools whose own usage control is not 'none', in
    the order of the request, and carries no [tools] entry when none is
    left. *)
Theorem payload_keeps_enabled_tools (request : LMStudioRequest.ProviderRequest)
    (l : list ToolConfig) :
  LMStudioRequest.req_tools request = Some l ->
  NoDup (map id l) ->
  LMStudioRequest.p_tools (LMStudioRequest.payload request)
  = match filter (fun t => negb (LMStudioRequest.is_control "none"
                                   (usageControl t))) l with
    | [] => None
    | kept => Some (map LMStudioRequest.function_tool kept)
    end.
Proof.
  intros Ht Hnd. unfold LMStudioRequest.payload. cbn [LMStudioRequest.p_tools].
  assert (K : match LMStudioRequest.function_tools request with
              | Some fs => LMStudioRequest.filteredTools request fs
              | None => []
              end
              = map LMStudioRequest.function_tool
                  (filter (fun t => negb (LMStudioRequest.is_control "none"
                                            (usageControl t))) l)).
  { unfold LMStudioRequest.function_tools. rewrite Ht.
    destruct l as [|t ts]; [reflexivity|].
    unfold LMStudioRequest.filteredTools. rewrite filter_map_swap. f_equal.
    apply filter_ext_in. intros x Hx.
    unfold LMStudioRequest.usage_control_of. rewrite Ht.
    cbn [LMStudioRequest.function_tool LMStudioRequest.fn_name].
    now rewrite (find_by_unique_id x _ Hnd Hx). }
  rewrite K.
  now destruct (filter _ l).
Qed.

Lemma payload_keeps_enabled_tools_witness :
  LMStudioRequest.p_tools
    (LMStudioRequest.payload
       {| LMStudioRequest.req_model := "lmstudio/qwen";
          LMStudioRequest.req_systemPrompt := None;
          LMStudioRequest.req_context := None;
          LMStudioRequest.req_messages := Some Examples.user_hello;
          LMStudioRequest.req_tools :=
            Some [{| id := "search"; description := "web search";
                     parameters := JObj []; usageControl := Some "none" |};
                  {| id := "calc"; description := "calculator";
                     parameters := JObj []; usageControl := Some "force" |}];
          LMStudioRequest.req_maxTokens := None;
          LMStudioRequest.req_stream := true |})
  = Some [{| LMStudioRequest.fn_name := "calc";
             LMStudioRequest.fn_description := "calculator";
             LMStudioRequest.fn_parameters := JObj [] |}].
Proof.
  etransitivity.
  - apply payload_keeps_enabled_tools; [reflexivity|].
    repeat constructor; cbn; intuition discriminate.
  - reflexivity.
Defined.

(** X21: a request streams exactly when it asks for it and names no tool.
    A request that names a tool takes the tool loop even when every tool
    is disabled by a usage control of 'none', and then its payload offers
    no tool at all; [tool_choice] is 'auto' exactly when the payload
    carries tools, and the payload never carries an empty tool list. *)
Theorem tools_decide_the_path (request : LMStudioRequest.ProviderRequest) :
  (LMStudioRequest.uses_streaming request = true <->
   LMStudioRequest.req_stream request = true /\
   (LMStudioRequest.req_tools request = None \/
    LMStudioRequest.req_tools request = Some [])) /\
  (forall t ts,
      LMStudioRequest.req_tools request = Some (t :: ts) ->
      (forall x, In x (t :: ts) -> usageControl x = Some "none") ->
      LMStudioRequest.uses_streaming request = false /\
      LMStudioRequest.p_tools (LMStudioRequest.payload request) = None) /\
  LMStudioRequest.p_tools (LMStudioRequest.payload request) <> Some [] /\
  (LMStudioRequest.p_tool_choice (LMStudioRequest.payload request) = Some "auto"
   <-> exists kept,
      LMStudioRequest.p_tools (LMStudioRequest.payload request) = Some kept) /\
  (LMStudioRequest.p_tool_choice (LMStudioRequest.payload request) = None
   <-> LMStudioRequest.p_tools (LMStudioRequest.payload request) = None).
Proof.
  split; [|split; [|split; [|split]]].
  - unfold LMStudioRequest.uses_streaming, LMStudioRequest.function_tools.
    destruct (LMStudioRequest.req_stream request),
      (LMStudioRequest.req_tools request) as [[|t ts]|]; cbn;
      intuition discriminate.
  - intros t ts Ht Hnone. split.
    + unfold LMStudioRequest.uses_streaming, LMStudioRequest.function_tools.
      rewrite Ht. cbn. apply andb_false_r.
    + unfold LMStudioRequest.payload. cbn [LMStudioRequest.p_tools].
      unfold LMStudioRequest.function_tools. rewrite Ht.
      replace (LMStudioRequest.filteredTools request
                 (map LMStudioRequest.function_tool (t :: ts)))
        with (@nil LMStudioRequest.FunctionTool); [reflexivity|].
      symmetry. apply filter_none. intros f Hf.
      unfold LMStudioRequest.usage_control_of. rewrite Ht.
      destruct (find _ (t :: ts)) as [x|] eqn:E.
      * apply find_some in E as [Hin _]. now rewrite (Hnone x Hin).
      * apply in_map_iff in Hf as (x & <- & Hx).
        apply find_none with (x := x) in E; [|exact Hx].
        cbn in E. now rewrite String.eqb_refl in E.
  - unfold LMStudioRequest.payload. cbn [LMStudioRequest.p_tools].
    destruct (match LMStudioRequest.function_tools request with
              | Some l => _ | None => _ end); discriminate.
  - unfold LMStudioRequest.payload.
    cbn [LMStudioRequest.p_tools LMStudioRequest.p_tool_choice].
    destruct (match LMStudioRequest.function_tools request with
              | Some l => _ | None => _ end).
    + split; [discriminate|intros [? ?]; discriminate].
    + split; [eexists; reflexivity|reflexivity].
  - unfold LMStudioRequest.payload.
    cbn [LMStudioRequest.p_tools LMStudioRequest.p_tool_choice].
    destruct (match LMStudioRequest.function_tools request with
              | Some l => _ | None => _ end); split; try reflexivity;
      discriminate.
Qed.

Lemma tools_decide_the_path_witness :
  LMStudioRequest.uses_streaming MoreExamples.disabled_search_request = false /\
  LMStudioRequest.p_tools
    (LMStudioRequest.payload MoreExamples.disabled_search_request) = None.
Proof.
  apply (proj1 (proj2 (tools_decide_the_path
                         MoreExamples.disabled_search_request))
           MoreExamples.disabled_search [] eq_refl).
  intros x [<-|[]]. reflexivity.
Defined.

Lemma strip_trailing_slash_spec (s : string) :
  (s = LMStudioRequest.strip_trailing_slash s \/
   s = (LMStudioRequest.strip_trailing_slash s ++ "/")%string) /\
  (LMStudioRequest.strip_trailing_slash s = "" -> s = "" \/ s = "/").
Proof.
  induction s as [|c s (IH1 & IH2)]; [split; now left|].
  cbn [LMStudioRequest.strip_trailing_slash].
  destruct s as [|d s].
  - destruct (Ascii.eqb_spec c "/") as [->|_]; split; auto; discriminate.
  - split; [|discriminate].
    destruct IH1 as [IH1|IH1]; [left|right]; cbn [append]; now rewrite <- IH1.
Qed.

Lemma strip_trailing_slash_app (u : string) :
  LMStudioRequest.strip_trailing_slash (u ++ "/") = u.
Proof.
  induction u as [|c u IH]; [reflexivity|].
  change (String c u ++ "/")%string with (String c (u ++ "/")).
  destruct u as [|d u]; [reflexivity|].
  change (String d u ++ "/")%string with (String d (u ++ "/")) in *.
  cbn [LMStudioRequest.strip_trailing_slash] in *. now rewrite IH.
Qed.

Lemma strip_trailing_slash_none (s : string) :
  (forall u, s <> (u ++ "/")%string) ->
  LMStudioRequest.strip_trailing_slash s = s.
Proof.
  intros H. destruct (strip_trailing_slash_spec s) as ([E|E] & _).
  - now symmetry.
  - now destruct (H _ E).
Qed.

(** X22: the endpoint is the first non-empty one among the request's, the
    environment's and the default; the base URL is that endpoint with its
    trailing slash removed when it ends with one (only the last slash is
    removed) and the endpoint itself when it does not, and the request is
    refused with an error, before anything is sent, exactly when the
    endpoint is the single slash. *)
Theorem base_url_drops_one_trailing_slash (azureEndpoint envUrl : option string) :
  LMStudioRequest.first_nonempty azureEndpoint
    (LMStudioRequest.first_nonempty envUrl LMStudioRequest.LMSTUDIO_DEFAULT_URL)
  <> "" /\
  ((exists e, LMStudioRequest.baseUrl azureEndpoint envUrl = Throws e) <->
   LMStudioRequest.first_nonempty azureEndpoint
     (LMStudioRequest.first_nonempty envUrl
        LMStudioRequest.LMSTUDIO_DEFAULT_URL) = "/") /\
  (forall url,
      LMStudioRequest.baseUrl azureEndpoint envUrl = Returns url ->
      url <> "" /\
      (forall u,
          LMStudioRequest.first_nonempty azureEndpoint
            (LMStudioRequest.first_nonempty envUrl
               LMStudioRequest.LMSTUDIO_DEFAULT_URL) = (u ++ "/")%string ->
          url = u) /\
      ((forall u,
           LMStudioRequest.first_nonempty azureEndpoint
             (LMStudioRequest.first_nonempty envUrl
                LMStudioRequest.LMSTUDIO_DEFAULT_URL) <> (u ++ "/")%string) ->
       url
       = LMStudioRequest.first_nonempty azureEndpoint
           (LMStudioRequest.first_nonempty envUrl
              LMStudioRequest.LMSTUDIO_DEFAULT_URL))) /\
  (forall u,
      u <> "" ->
      LMStudioRequest.first_nonempty azureEndpoint
        (LMStudioRequest.first_nonempty envUrl
           LMStudioRequest.LMSTUDIO_DEFAULT_URL) = (u ++ "/")%string ->
      LMStudioRequest.baseUrl azureEndpoint envUrl = Returns u).
Proof.
  assert (N : forall a b, b <> "" -> LMStudioRequest.first_nonempty a b <> "").
  { intros a b Hb. unfold LMStudioRequest.first_nonempty, nonempty.
    destruct a as [t|]; [|exact Hb].
    destruct (String.eqb_spec t ""); [exact Hb|assumption]. }
  set (chosen := LMStudioRequest.first_nonempty azureEndpoint
                   (LMStudioRequest.first_nonempty envUrl
                      LMStudioRequest.LMSTUDIO_DEFAULT_URL)).
  assert (C : chosen <> "") by (apply N, N; discriminate).
  destruct (strip_trailing_slash_spec chosen) as (S1 & S2).
  unfold LMStudioRequest.baseUrl. fold chosen.
  split; [exact C|]. split; [split|split].
  - intros (e & H).
    destruct (String.eqb_spec (LMStudioRequest.strip_trailing_slash chosen) "")
      as [E|_]; [|discriminate].
    now destruct (S2 E).
  - intros ->. eexists. reflexivity.
  - intros url H.
    destruct (String.eqb_spec (LMStudioRequest.strip_trailing_slash chosen) "")
      as [_|E]; [discriminate|].
    injection H as <-. split; [exact E|]. split.
    + intros u ->. apply strip_trailing_slash_app.
    + intros Hno. now apply strip_trailing_slash_none.
  - intros u Hu ->. rewrite strip_trailing_slash_app.
    now destruct (String.eqb_spec u "").
Qed.

(** X23: the model names that [initialize] registers come back, in the
    payload of a request, as the ids that the server listed; a model name
    without the provider prefix is sent unchanged. *)
Theorem registered_model_names_round_trip (ids : list string) :
  map LMStudioRequest.strip_provider_prefix
    (LMStudioRequest.discovered_models ids) = ids /\
  (forall request i,
      In i ids ->
      LMStudioRequest.req_model request = ("lmstudio/" ++ i)%string ->
      LMStudioRequest.p_model (LMStudioRequest.payload request) = i) /\
  (forall request,
      startsWith "lmstudio/" (LMStudioRequest.req_model request) = false ->
      LMStudioRequest.p_model (LMStudioRequest.payload request)
      = LMStudioRequest.req_model request).
Proof.
  assert (S : forall i,
             LMStudioRequest.strip_provider_prefix ("lmstudio/" ++ i) = i).
  { intros i. unfold LMStudioRequest.strip_provider_prefix.
    replace (startsWith "lmstudio/" ("lmstudio/" ++ i)) with true.
    - reflexivity.
    - symmetry. apply (startsWith_app "lmstudio/" "lmstudio/" i). reflexivity. }
  split; [|split].
  - unfold LMStudioRequest.discovered_models. rewrite map_map.
    induction ids as [|i ids IH]; [reflexivity|]. cbn [map].
    now rewrite S, IH.
  - intros request i _ H. cbn. now rewrite H, S.
  - intros request H. cbn. unfold LMStudioRequest.strip_provider_prefix.
    now rewrite H.
Qed.

Lemma registered_model_names_round_trip_witness :
  LMStudioRequest.p_model
    (LMStudioRequest.payload
       {| LMStudioRequest.req_model := "lmstudio/openai/gpt-oss-20b";
          LMStudioRequest.req_systemPrompt := None;
          LMStudioRequest.req_context := None;
          LMStudioRequest.req_messages := None;
          LMStudioRequest.req_tools := None;
          LMStudioRequest.req_maxTokens := None;
          LMStudioRequest.req_stream := false |})
  = "openai/gpt-oss-20b".
Proof.
  apply (proj1 (proj2 (registered_model_names_round_trip
                         ["openai/gpt-oss-20b"]))).
  - now left.
  - reflexivity.
Defined.

Lemma base_url_drops_one_trailing_slash_witness :
  (exists e,
      LMStudioRequest.baseUrl (Some "/") (Some "http://host:1234")
      = Throws e) /\
  LMStudioRequest.baseUrl (Some "") (Some "http://host:1234//")
  = Returns "http://host:1234/".
Proof.
  split.
  - apply (proj2 (proj1 (proj2 (base_url_drops_one_trailing_slash
                                  (Some "/") (Some "http://host:1234"))))).
    reflexivity.
  - apply (proj2 (proj2 (proj2 (base_url_drops_one_trailing_slash
                                  (Some "") (Some "http://host:1234//"))))).
    + discriminate.
    + reflexivity.
Defined.
